(* ===== verification/_CoqProject ===== *)
-Q . S2P
Prelude.v
Utf8.v
FileSystem.v
QFile.v
File.v
FileSpec.v
JsonDocument.v
QJsonWriter.v
QJsonParser.v
QJsonFuel.v
QJson.v
Json.v
JsonStore.v
Sharing.v
SharedRefinement.v
