(* ===== verification/Prelude.v ===== *)
(** * A verification development of the jnc Qt file and JSON helpers

    The program (src/Qt/) is a thin layer over Qt's file and JSON classes:

    - [jnc::File] (src/Qt/File.h, src/Qt/File.cpp) owns one [QFile*].
      [File::open(fileName, mode)] checks that the parent directory of
      [fileName] exists (through [QDir::cdUp]), maps the six-valued
      [OpenMode] enumeration to a [QIODeviceBase::OpenMode] bit mask
      (always with [Text]), and opens the [QFile]; it reports one of four
      [ErrorCode]s.  [close], [read] (a [QTextStream::readAll]),
      [write] (a [QTextStream <<]), [seek] and [tell] forward to the
      [QFile].
    - [jnc::Json] (src/Qt/Json.h, src/Qt/Json.cpp) has two static helpers.
      [dump(fileName, doc)] opens a [File] in [write] mode, writes
      [doc.toJson()] and closes it, returning silently when the open
      fails.  [load(fileName)] opens a [File] in [read] mode, reads the
      whole text, and returns [QJsonDocument::fromJson] of it, or the
      default (null) document when the open fails or the text is empty.

    The two components interact only by calls: [Json] creates a local
    [File] on the stack, and its destructor closes the [QFile].

    ** Layout of the library (in dependency order)

    - [Prelude] (this file): the [Bytes] notation of [jnc_scope], the state
      monad [State] on stdpp's [MRet]/[MBind] classes with the tactics that
      unfold it, the [jnc] hint database (invariant preservation) and the
      [jnc_rw] rewrite database (contents of a file after it is set), the
      [qint64] range, and the lemmas and tactics on [Z] comparisons, bit
      operations and bytes that the components share.
    - [Utf8]: the UTF-8 codec that Qt applies between [QString] and bytes
      ([QString::toUtf8], [QString::fromUtf8] with its replacement of
      invalid bytes by U+FFFD, the [QTextStream] codec and its byte-order
      mark).
    - [FileSystem]: the POSIX file system the program runs against
      (directories, regular files as byte lists, paths the process may not
      open, the working directory), Qt's lexical path cleaning and
      [QDir::cdUp], the kernel's path resolution in [open(2)], and a small
      sample file system for the examples.
    - [QFile]: the [QIODeviceBase] open-mode flags as bits of a [Z] and the
      [QFile] object (file name, open mode, position) with [setFileName],
      [open] (with the file engine), [close], [readAll], [write], [seek]
      and the [QTextStream] read and write, modelled from Qt's documented
      behaviour on a POSIX system, with their well-formedness invariant.
    - [File]: [jnc::File] itself: [OpenMode], [ErrorCode], the mode switch
      and each method, as operations of the state monad over the pair
      (file system, [QFile]); [step], the relation of one method call.
    - [FileSpec]: the [FileHandle] contract of the specification as an
      abstract machine over four flags per mode (module [FileHandle]),
      the simulation relation [refines] between a [File] and it, and the
      simulation of each method, composed through the monad's bind.
    - [JsonDocument]: the interface [jnc::Json] needs of [QJsonDocument],
      as the type class [JsonDocument] (null document, [toJson],
      [fromJson], [valid], [loadable]) with its laws [JsonDocumentLaws].
    - [QJsonWriter], [QJsonParser], [QJson]: Qt's documents (arrays,
      objects with keys in order, strings of UTF-16 units, [qint64]
      integers, booleans, null), its indented writer and its parser, the
      proof that the parser reads back what the writer writes, and the
      instance of [JsonDocumentLaws] that follows; [QJsonFuel] shows that
      the parser's fuel is enough for every input.
    - [Json]: [jnc::Json::dump] and [load], written and proved for any
      instance of the interface, with examples on Qt's documents.
    - [JsonStore]: [class Json] as a record of its two static operations
      ([store], [json_store]) and the specification's JsonStore (its
      section 4.2) written on the abstract [FileHandle] ([spec_store]),
      for a table of flags.
    - [Sharing]: two [File] objects and [Json::dump] and [Json::load] on
      one file system, their calls in an explicit order ([on_left],
      [on_right], [on_fs]), and [step2], the relation of one call in such
      a world.
    - [SharedRefinement]: programs that interleave the calls of two
      [File]s with [dump] and [load] ([event], [run_events], for any
      handle type and any [store]), and the simulation [sim2] of the
      two-handle world by two abstract [FileHandle]s.

    ** What the theorems show (claim numbers of the manifest)

    - [Json.dump_load] (C1): [load] after [dump] of the same name returns
      the document, for any lawful [JsonDocument]; [Json.load_missing] and
      [Json.load_empty] (C13, C14): the silent failure paths of [load];
      [Json.load_blank] (C20): a file of blanks goes to the parser;
      [Json.load_parse_total] (C24): [load] parses [toUtf8()] of the text
      read, to completion, so bytes that are not UTF-8 reach the parser as
      U+FFFD; [Json.load_read_only] (C28): [load] never changes the file
      system; [Json.dump_dump] (C29): a second [dump] to the same name
      leaves what it alone leaves, since [write] mode truncates.
    - [File.open]: its error precedence, the cdUp check before the mode
      check (C3, C4); the Qt flags of each mode (C5); its result when the
      file opens (C6); the modes that truncate (C7); its failure (C8); a
      second [open], which first closes the open file (C15,
      [File.open_twice]); the root and the empty name (C30,
      [File.open_boundary_names]); a name [cdUp] accepts lexically that
      the kernel cannot walk (C31, [File.open_unresolved]).
    - [File] I/O: the write/seek/read round trip (C9), appending whatever
      [seek] did (C10), [tell] after [seek] (C11), [close] (C16), [read]
      removing carriage returns after decoding (C17), [tell] after an
      append (C18), overwriting at the position (C19).
    - Refinement (C2): from a new [File], every sequence of method calls
      returns what the abstract [FileHandle] returns with the flags Qt
      gives each mode, and leaves the same file system
      ([FileHandle.file_refines]).
    - Invariants (C12): every sequence of method calls from a new [File]
      on a well-formed file system keeps the file system and the handle
      well formed, and an open handle is always one a successful [open]
      left ([File.opened]: its name passes [cdUp], its mask has [Text],
      it is open on the file its name resolves to), by induction on
      [rtc step] ([File.reachable_inv]).
    - Composition (C21): [class Json] is the specification's JsonStore
      on the abstract [FileHandle] with Qt's table
      ([JsonStore.json_store_spec], from the simulation of C2 lifted
      through [dump] and [load]).  The two compose over a shared file
      system (C32, [SharedRefinement.shared_refines]): any program
      interleaving the calls of two [File]s with [dump] and [load]
      answers and leaves the file system as two abstract [FileHandle]s
      and the specification's JsonStore do; the one-handle simulation
      lifts to either side since [refines] looks at the file system only
      through its equality.
    - Liveness, bounds, termination: from any state, calls reach a handle
      open on any file the kernel allows (C22, [File.reopen_eventually],
      with the [eventually] combinator over [step]); [tell] after [read]
      is the larger of the position and the file size (C23,
      [File.read_tell]); [load] runs the parser to completion (C24).
    - Sharing (C25, C26): the file system is shared and the positions are
      not: an appending [File] writes after a document [dump] put in its
      file, a [File] that does not append writes at its old position,
      past the new end with zero bytes in the gap.  Every interleaving of
      the calls of two [File]s, [dump] and [load] keeps both handles as
      C12 says (C27, [Sharing.reachable2_inv], by induction on
      [rtc step2]): the files, the directories and the working directory
      only grow ([QFile.grows]), and [dump] and [load] reach their file
      system by [File] steps ([File.reaches], [File.keeps_fs], composed
      through the bind).
    - Qt's documents: [QJsonLaws.value_roundtrip] and
      [QJsonLaws.fromJson_toJson_doc] ([fromJson (toJson d) = d]),
      [QJsonFuel.fromJson_depth] (the parser never returns a value nested
      more than 1024 deep), and [Utf8.decode_encode]
      ([fromUtf8 (toUtf8 s) = s]).

    ** Fuel and bounds

    - [Utf8.decode] runs its loop with fuel [length bs]: every round
      consumes a byte, and [Utf8.decode_fuel_enough] shows that more fuel
      changes nothing.
    - [QJsonParser.fromJson] gives the parser [S (3 * length bs)] units
      of fuel: a bracket costs three calls for one byte.
      [QJsonFuel.fromJson_fuel] shows that this is enough for every input
      (any more fuel gives the same document), so running out of fuel
      never stands for a parse error; [QJsonLaws.cost_le_length] bounds
      the fuel the round trip spends by the length of the text.  The
      parser's [nestingLimit] (1024) bounds the depth of what it reads
      back: [loadable] requires it.
    - [QJson.number] writes at most 19 digits, enough for every [qint64]
      ([QJsonLaws.digits_aux_value]).

    ** Modelling choices

    - Integers are [Z]; [qint64] values are checked against
      [qint64_min, qint64_max] where the code depends on them.
    - The text [File] reads and writes is a list of code points (Unicode
      scalar values for what [write] receives); a JSON string is a list of
      UTF-16 units, as in [QString]; file contents are lists of bytes.
    - The platform is POSIX: [Text] mode does not translate newlines on
      writing; on reading, [QTextStream] turns the device's [Text] mode
      off, decodes the raw bytes, and then removes every carriage return
      from the decoded text.  [QFile::setFileName] on an open file closes
      it first, so a second [File::open] releases the first file.  There are no
      symbolic links; [..] is resolved lexically by [QDir] and by walking
      the directories in the kernel.
    - Writes go straight to the file: the [QTextStream] that [File::write]
      creates flushes when it is destroyed, at the end of the call.
    - Not modelled: concurrency (the program has none), Qt's warnings and
      error strings, the [NewOnly], [ExistingOnly] and [Unbuffered] flags
      (the program never passes them), I/O errors after a successful open,
      Windows paths, [QTextStream]'s detection of UTF-16 and UTF-32
      byte-order marks on reading (no text [File::write] produces starts
      with one), and JSON numbers that Qt stores as doubles (the model
      of the parser rejects them).  Every function, method and type of
      src/Qt/ is modelled; what the manifest's map leaves out of those
      files is their include guards, includes and namespace braces.  The
      Qt classes under the program (QFile, QDir, QTextStream, the UTF-8
      codec, QJsonDocument) are not in the repository: they are modelled
      from Qt's documented behaviour as far as the program uses them, and
      their remaining parts (doubles, UTF-16 storage with lone surrogates,
      buffering, the other open flags) stay out, as listed above.
*)

From stdpp Require Import base list gmap strings.
From Stdlib Require Import ZArith Lia.

Declare Scope jnc_scope.
Delimit Scope jnc_scope with jnc.
Open Scope Z_scope.

Create HintDb jnc discriminated.
Create Rewrite HintDb jnc_rw.

(** ** Machine integers *)

(** [qint64] is a signed 64-bit integer. *)
Definition qint64_min : Z := - 2 ^ 63.
Definition qint64_max : Z := 2 ^ 63 - 1.
Definition in_qint64 (z : Z) : bool := (qint64_min <=? z) && (z <=? qint64_max).

(** A byte is a [Z] in [0, 256). *)
Definition is_byte (b : Z) : bool := (0 <=? b) && (b <? 256).
Notation "'Bytes'" := (list Z) (only parsing) : jnc_scope.
Open Scope jnc_scope.

Definition bytes_ok (bs : Bytes) : bool := forallb is_byte bs.

(** ** A state monad

    [State S A] threads a state [S]; the instances make stdpp's
    [x ← m; k] and [m ;; k] notations available. *)

Definition State (S A : Type) : Type := S -> A * S.

#[export] Instance state_ret S : MRet (State S) := fun A a s => (a, s).
#[export] Instance state_bind S : MBind (State S) :=
  fun A B f m s => let '(a, s') := m s in f a s'.

Definition sget {S} : State S S := fun s => (s, s).
Definition sput {S} (s : S) : State S unit := fun _ => (tt, s).
Definition sgets {S A} (g : S -> A) : State S A := fun s => (g s, s).
Definition smodify {S} (g : S -> S) : State S unit := fun s => (tt, g s).

(** A bind run on a state, and what the callers of a computation on a
    larger state keep of its result. *)
Lemma state_bind_run {S A B} (c : State S A) (k : A -> State S B) s :
  (x ← c; k x) s = k (c s).1 (c s).2.
Proof. unfold mbind, state_bind. by destruct (c s). Qed.

Lemma let_pair_proj {A B C} (p : A * (B * C)) :
  (let '(x, (b, _)) := p in (x, b)) = (p.1, p.2.1).
Proof. by destruct p as [x [b c]]. Qed.

Lemma let_pair_proj_tt {A B C} (p : A * (B * C)) :
  (let '(_, (b, _)) := p in (tt, b)) = (tt, p.2.1).
Proof. by destruct p as [x [b c]]. Qed.

(** Unfold the monad operations and reduce: the goal then shows the
    state passing explicitly. *)
Ltac unfold_state :=
  unfold mbind, mret, state_bind, state_ret, sget, sput, sgets, smodify; simpl.

(** The same without [simpl]: the operations the monad sequences stay
    folded, ready to be rewritten with their lemmas. *)
Ltac unfold_state_lazy :=
  unfold mbind, mret, state_bind, state_ret, sget, sput, sgets, smodify;
  cbv beta iota zeta.

(** ** Tactics for boolean tests on [Z] *)

(** [lia] with the Euclidean equations of every [/] and [mod] posed
    first, which this [lia] does not do by itself. *)
Ltac zlia := Z.to_euclidean_division_equations; lia.


(** Turn the boolean comparisons of the hypotheses into propositions. *)
Ltac zbool_hyps :=
  repeat match goal with
  | H : _ && _ = true |- _ => apply andb_prop in H as [? ?]
  | H : _ || _ = false |- _ => apply orb_false_elim in H as [? ?]
  | H : negb _ = true |- _ => apply negb_true_iff in H
  | H : negb _ = false |- _ => apply negb_false_iff in H
  | H : (_ <=? _) = true |- _ => apply Z.leb_le in H
  | H : (_ <=? _) = false |- _ => apply Z.leb_gt in H
  | H : (_ <? _) = true |- _ => apply Z.ltb_lt in H
  | H : (_ <? _) = false |- _ => apply Z.ltb_ge in H
  | H : (_ =? _) = true |- _ => apply Z.eqb_eq in H
  | H : (_ =? _) = false |- _ => apply Z.eqb_neq in H
  end.

(** Decide every comparison of the goal, dropping the cases that the
    arithmetic of the context rules out. *)
Ltac zcase :=
  repeat (match goal with
  | |- context [Z.ltb ?a ?b] => destruct (Z.ltb_spec a b)
  | |- context [Z.leb ?a ?b] => destruct (Z.leb_spec a b)
  | |- context [Z.eqb ?a ?b] => destruct (Z.eqb_spec a b)
  end; try (exfalso; zlia); cbv beta iota delta [andb orb negb]).

(** ** Bit operations on [Z] *)

(** Replace each closed power [2 ^ k] by its value, so that [lia] sees a
    constant. *)
Ltac pow_consts :=
  repeat match goal with
  | |- context [2 ^ ?k] =>
    let v := eval vm_compute in (2 ^ k) in
    lazymatch v with Zpos _ => change (2 ^ k) with v end
  end.

(** Side conditions of bit-field lemmas: closed computations or
    linear arithmetic with constant powers. *)
Ltac bits_side := first [reflexivity | pow_consts; zlia].

(** Evaluate the comparisons of closed integers in the goal, then the
    tests on them. *)
Ltac zclosed :=
  repeat (match goal with
  | |- context [?t] =>
    match t with
    | Z.eqb _ _ => idtac | Z.ltb _ _ => idtac | Z.leb _ _ => idtac
    end;
    let v := eval vm_compute in t in
    lazymatch v with
    | true => change t with true
    | false => change t with false
    end
  end; cbv beta iota zeta).

(** A decidable proposition about a closed term, by evaluation. *)
Ltac decide_by_compute :=
  lazymatch goal with |- ?P => apply (bool_decide_eq_true_1 P); vm_compute; reflexivity end.

(** [Z.lor] of a multiple of [2^k] and a number below [2^k] is their sum:
    this is how UTF-8 and flag masks put disjoint bit fields together. *)
Lemma lor_shift_add k a b :
  0 <= k -> 0 <= b < 2 ^ k -> Z.lor (a * 2 ^ k) b = a * 2 ^ k + b.
Proof.
  intros Hk Hb.
  assert (Hl : Z.land (a * 2 ^ k) b = 0).
  { apply Z.bits_inj'; intros i Hi. rewrite Z.land_spec, Z.bits_0.
    rewrite <- Z.shiftl_mul_pow2 by lia.
    destruct (Z.lt_ge_cases i k).
    - rewrite Z.shiftl_spec_low by lia. reflexivity.
    - destruct (Z.eq_dec b 0) as [->|Hb0]; [rewrite Z.bits_0; apply andb_false_r|].
      assert (Z.log2 b < k) by (apply Z.log2_lt_pow2; lia).
      rewrite (Z.bits_above_log2 b) by lia. apply andb_false_r. }
  rewrite <- Z.lxor_lor by exact Hl. symmetry. apply Z.add_nocarry_lxor, Hl.
Qed.

(** The same with the high field given as a constant. *)
Lemma lor_disjoint k a b :
  0 <= k -> a mod 2 ^ k = 0 -> 0 <= b < 2 ^ k -> Z.lor a b = a + b.
Proof.
  intros Hk Ha Hb. assert (2 ^ k > 0) by (apply Z.lt_gt, Z.pow_pos_nonneg; lia).
  rewrite (Z.div_mod a (2 ^ k)), Ha, Z.add_0_r, (Z.mul_comm (2 ^ k)) by lia.
  apply lor_shift_add; lia.
Qed.

(** A mask [2^k - 1] keeps the remainder modulo [2^k]. *)
Lemma land_mask a k m : 0 <= k -> m = 2 ^ k - 1 -> Z.land a m = a mod 2 ^ k.
Proof.
  intros Hk ->. rewrite <- Z.land_ones by lia. f_equal. rewrite Z.ones_equiv. lia.
Qed.

(** A property of bytes checked by evaluation on all 256 of them. *)
Definition all_bytes (P : Z -> bool) : bool :=
  forallb P (map Z.of_nat (seq 0 256)).

Lemma all_bytes_spec P : all_bytes P = true -> forall b, 0 <= b < 256 -> P b = true.
Proof.
  unfold all_bytes. intros H b Hb. rewrite forallb_forall in H. apply H.
  apply in_map_iff. exists (Z.to_nat b). split; [lia|]. apply in_seq. lia.
Qed.

(** ** Lists *)

Lemma bytes_ok_app l1 l2 : bytes_ok (l1 ++ l2) = bytes_ok l1 && bytes_ok l2.
Proof. apply forallb_app. Qed.

Lemma bytes_ok_In l b : bytes_ok l = true -> In b l -> 0 <= b < 256.
Proof.
  unfold bytes_ok, is_byte. rewrite forallb_forall. intros H Hin.
  specialize (H b Hin). apply andb_prop in H as [H1 H2].
  apply Z.leb_le in H1. apply Z.ltb_lt in H2. lia.
Qed.

Lemma bytes_ok_Forall l : bytes_ok l = true <-> Forall (fun b => is_byte b = true) l.
Proof. unfold bytes_ok. rewrite forallb_forall, List.Forall_forall. reflexivity. Qed.

#[export] Hint Rewrite bytes_ok_app : jnc_rw.
