(* ===== verification/Utf8.v ===== *)
(** * UTF-8, the text encoding between [QString] and files

    Qt converts a [QString] to bytes with [QString::toUtf8] and with the
    [QTextStream] encoder, and back with [QString::fromUtf8] and the
    [QTextStream] decoder.  [encode] is the encoder of one Unicode scalar
    value at a time; [decode] follows Qt's [QUtf8Functions::fromUtf8]: it
    checks the lead byte, the continuation bytes, overlong forms,
    surrogates and the upper bound U+10FFFF, and replaces each byte that
    does not start a valid sequence by U+FFFD before going on with the
    next byte.  [decode_stream] is the [QTextStream] decoder, which also
    drops a byte-order mark at the start of what it reads.

    The main theorem is the round trip [decode (encode s) = s] for every
    string of scalar values. *)

From S2P Require Import Prelude.
From stdpp Require Import base list.
From Stdlib Require Import ZArith Lia.
Open Scope Z_scope.
Open Scope jnc_scope.

Module Utf8.

(** [QChar::ReplacementCharacter] and the byte-order mark. *)
Definition replacement_char : Z := 0xFFFD.
Definition bom : Z := 0xFEFF.

Definition is_surrogate (c : Z) : bool := (0xD800 <=? c) && (c <=? 0xDFFF).

(** A Unicode scalar value: a code point that is not a surrogate. *)
Definition is_scalar (c : Z) : bool :=
  (0 <=? c) && (c <=? 0x10FFFF) && negb (is_surrogate c).

Definition scalars (s : list Z) : bool := forallb is_scalar s.

(** The encoder of one code point. *)
Definition encode_cp (c : Z) : Bytes :=
  if c <? 0x80 then [c]
  else if c <? 0x800 then
    [Z.lor 0xC0 (Z.shiftr c 6); Z.lor 0x80 (Z.land c 0x3F)]
  else if c <? 0x10000 then
    [Z.lor 0xE0 (Z.shiftr c 12); Z.lor 0x80 (Z.land (Z.shiftr c 6) 0x3F);
     Z.lor 0x80 (Z.land c 0x3F)]
  else
    [Z.lor 0xF0 (Z.shiftr c 18); Z.lor 0x80 (Z.land (Z.shiftr c 12) 0x3F);
     Z.lor 0x80 (Z.land (Z.shiftr c 6) 0x3F); Z.lor 0x80 (Z.land c 0x3F)].

(** [QString::toUtf8]. *)
Definition encode (s : list Z) : Bytes := flat_map encode_cp s.

Definition is_continuation (b : Z) : bool := Z.land b 0xC0 =? 0x80.

(** One continuation byte appended to the code point decoded so far:
    [uc <<= 6; uc |= b & 0x3f]. *)
Definition acc (uc b : Z) : Z := Z.lor (Z.shiftl uc 6) (Z.land b 0x3F).

(** The checks made once a sequence has been decoded. *)
Definition uc_ok (min_uc uc : Z) : bool :=
  (min_uc <=? uc) && negb (is_surrogate uc) && (uc <=? 0x10FFFF).

(** [QUtf8Functions::fromUtf8]: the lead byte [b] has been read; decode
    the rest of its sequence from [r].  [None] is Qt's [Error] (and
    [EndOfString], which its callers treat the same way); [Some (uc, r')]
    is the code point and the bytes after the sequence. *)
Definition from_utf8 (b : Z) (r : Bytes) : option (Z * Bytes) :=
  if b <? 0x80 then Some (b, r)
  else if (b <=? 0xC1) || (0xF5 <=? b) then None
  else if b <? 0xE0 then
    match r with
    | b2 :: r2 =>
      let uc := acc (Z.land b 0x1F) b2 in
      if is_continuation b2 && uc_ok 0x80 uc then Some (uc, r2) else None
    | [] => None
    end
  else if b <? 0xF0 then
    match r with
    | b2 :: b3 :: r3 =>
      let uc := acc (acc (Z.land b 0x0F) b2) b3 in
      if is_continuation b2 && is_continuation b3 && uc_ok 0x800 uc
      then Some (uc, r3) else None
    | _ => None
    end
  else
    match r with
    | b2 :: b3 :: b4 :: r4 =>
      let uc := acc (acc (acc (Z.land b 0x07) b2) b3) b4 in
      if is_continuation b2 && is_continuation b3 && is_continuation b4
         && uc_ok 0x10000 uc
      then Some (uc, r4) else None
    | _ => None
    end.

(** The decoding loop of [QUtf8::convertToUnicode]: read a lead byte,
    decode its sequence, and on an error emit U+FFFD and go on with the
    byte after the lead byte.  Each round consumes at least one byte, so
    [length bs] rounds suffice ([decode_fuel_enough]). *)
Fixpoint decode_fuel (fuel : nat) (bs : Bytes) : list Z :=
  match fuel, bs with
  | O, _ | _, [] => []
  | S fuel, b :: r =>
    match from_utf8 b r with
    | Some (uc, r') => uc :: decode_fuel fuel r'
    | None => replacement_char :: decode_fuel fuel r
    end
  end.

(** [QString::fromUtf8]. *)
Definition decode (bs : Bytes) : list Z := decode_fuel (length bs) bs.

(** The [QTextStream] decoder: a byte-order mark at the start is skipped. *)
Definition skip_bom (s : list Z) : list Z :=
  match s with
  | c :: r => if c =? bom then r else s
  | [] => []
  end.

Definition decode_stream (bs : Bytes) : list Z := skip_bom (decode bs).

(** ** Lemmas *)

Lemma encode_app s1 s2 : encode (s1 ++ s2) = encode s1 ++ encode s2.
Proof. apply flat_map_app. Qed.

Lemma encode_cons c s : encode (c :: s) = encode_cp c ++ encode s.
Proof. reflexivity. Qed.

Lemma acc_arith uc b : acc uc b = uc * 64 + b mod 64.
Proof.
  unfold acc. rewrite Z.shiftl_mul_pow2, (land_mask b 6) by lia.
  change 64 with (2 ^ 6). apply lor_shift_add; [lia | apply Z.mod_pos_bound; lia].
Qed.

Lemma is_continuation_spec b :
  0 <= b < 256 -> is_continuation b = (128 <=? b) && (b <? 192).
Proof.
  intros Hb. apply Bool.eqb_prop.
  refine (all_bytes_spec (fun b => Bool.eqb (is_continuation b) ((128 <=? b) && (b <? 192))) _ b Hb).
  vm_compute. reflexivity.
Qed.

(** Each case of [encode_cp] in arithmetic form. *)
Lemma encode_cp_arith c :
  0 <= c <= 0x10FFFF ->
  encode_cp c =
  if c <? 0x80 then [c]
  else if c <? 0x800 then [192 + c / 64; 128 + c mod 64]
  else if c <? 0x10000 then [224 + c / 4096; 128 + c / 64 mod 64; 128 + c mod 64]
  else [240 + c / 262144; 128 + c / 4096 mod 64; 128 + c / 64 mod 64; 128 + c mod 64].
Proof.
  intros Hc. unfold encode_cp.
  rewrite !Z.shiftr_div_pow2, !(land_mask _ 6) by lia.
  change (2 ^ 6) with 64; change (2 ^ 12) with 4096; change (2 ^ 18) with 262144.
  repeat rewrite (lor_disjoint 6 128) by bits_side.
  destruct (Z.ltb_spec c 0x80); [reflexivity|].
  destruct (Z.ltb_spec c 0x800); [|destruct (Z.ltb_spec c 0x10000)].
  - rewrite (lor_disjoint 5 0xC0) by bits_side. reflexivity.
  - rewrite (lor_disjoint 4 0xE0) by bits_side. reflexivity.
  - rewrite (lor_disjoint 3 0xF0) by bits_side. reflexivity.
Qed.

Lemma scalar_bounds c :
  is_scalar c = true -> 0 <= c <= 0x10FFFF /\ ~ (0xD800 <= c <= 0xDFFF).
Proof. unfold is_scalar, is_surrogate. intros H. zbool_hyps. lia. Qed.

Lemma from_utf8_length b r uc r' :
  from_utf8 b r = Some (uc, r') -> (length r' <= length r)%nat.
Proof.
  unfold from_utf8. intros H.
  repeat (case_match; simplify_eq/=; try lia).
Qed.

Lemma decode_fuel_enough n bs :
  (length bs <= n)%nat -> decode_fuel n bs = decode bs.
Proof.
  unfold decode. revert n. induction bs as [bs IH] using (induction_ltof1 _ (@length Z)).
  intros n Hn. destruct bs as [|b r]; [destruct n; reflexivity|].
  destruct n as [|n]; [simpl in Hn; lia|]. simpl in Hn |- *.
  destruct (from_utf8 b r) as [[uc r']|] eqn:E.
  - apply from_utf8_length in E. f_equal.
    rewrite (IH r') by (unfold ltof; simpl; lia). symmetry. apply IH; unfold ltof; simpl; lia.
  - f_equal. rewrite (IH r) by (unfold ltof; simpl; lia). symmetry. apply IH; unfold ltof; simpl; lia.
Qed.

Lemma decode_cons b r :
  decode (b :: r) =
  match from_utf8 b r with
  | Some (uc, r') => uc :: decode r'
  | None => replacement_char :: decode r
  end.
Proof.
  unfold decode at 1. simpl. destruct (from_utf8 b r) as [[uc r']|] eqn:E.
  - apply from_utf8_length in E. rewrite decode_fuel_enough by lia. reflexivity.
  - rewrite decode_fuel_enough by lia. reflexivity.
Qed.

(** The lead byte of the encoding of a scalar value decodes to it and
    consumes exactly its sequence. *)
Lemma from_utf8_encode_cp c r :
  is_scalar c = true ->
  exists b rest, encode_cp c ++ r = b :: rest /\ from_utf8 b rest = Some (c, r).
Proof.
  intros [Hc Hs]%scalar_bounds. rewrite encode_cp_arith by lia.
  zcase; eexists _, _; (split; [reflexivity|]); unfold from_utf8, uc_ok, is_surrogate.
  all: rewrite ?is_continuation_spec by zlia.
  all: rewrite ?acc_arith, ?(land_mask _ 5), ?(land_mask _ 4), ?(land_mask _ 3) by bits_side.
  all: pow_consts; zcase; do 2 f_equal; zlia.
Qed.

(** The bytes of an encoded scalar value are bytes, and only the
    one-byte form of a code point below 0x80 contains a byte below 0x80. *)
Lemma encode_cp_bytes c b :
  is_scalar c = true -> In b (encode_cp c) -> 0 <= b < 256 /\ (b < 0x80 -> b = c).
Proof.
  intros [Hc Hs]%scalar_bounds. rewrite encode_cp_arith by lia.
  zcase; simpl; intros Hin; repeat destruct Hin as [<-|Hin]; try contradiction; zlia.
Qed.

(** ** The round trip *)

(** Decoding the UTF-8 encoding of a string of scalar values gives the
    string back ([QString::fromUtf8] after [QString::toUtf8]). *)
Lemma decode_encode s : scalars s = true -> decode (encode s) = s.
Proof.
  induction s as [|c s IH]; [reflexivity|]. cbn [scalars forallb].
  intros [Hc Hs]%andb_prop. rewrite encode_cons.
  destruct (from_utf8_encode_cp c (encode s) Hc) as (b & rest & -> & F).
  rewrite decode_cons, F, IH by exact Hs. reflexivity.
Qed.

(** [QString::fromUtf8] decodes the encoding of a string of scalar
    values back to that string, whatever bytes follow it (valid or not):
    the decoder never reads past the end of an encoded character, so
    [fromUtf8(toUtf8(s) + rest)] is [s + fromUtf8(rest)]. *)
Theorem decode_encode_app s rest :
  scalars s = true -> decode (encode s ++ rest) = s ++ decode rest.
Proof.
  induction s as [|c s IH]; [reflexivity|]. cbn [scalars forallb].
  intros [Hc Hs]%andb_prop. rewrite encode_cons, <- app_assoc.
  destruct (from_utf8_encode_cp c (encode s ++ rest) Hc) as (b & r & -> & F).
  rewrite decode_cons, F, IH by exact Hs. reflexivity.
Qed.

(** An instance: "é€" followed by a stray continuation byte. *)
Lemma decode_encode_app_witness :
  scalars [0xE9; 0x20AC] = true /\
  decode (encode [0xE9; 0x20AC] ++ [0x80; 0x41]) = [0xE9; 0x20AC; replacement_char; 0x41].
Proof.
  split; [reflexivity|].
  rewrite (decode_encode_app [0xE9; 0x20AC] [0x80; 0x41]) by reflexivity.
  vm_compute. reflexivity.
Defined.

Lemma encode_cp_ascii c : 0 <= c < 0x80 -> encode_cp c = [c].
Proof. intros Hc. unfold encode_cp. zcase. reflexivity. Qed.

(** ASCII text is its own encoding, and its own decoding. *)
Lemma encode_ascii l : Forall (fun c => 0 <= c < 0x80) l -> encode l = l.
Proof.
  induction 1 as [|c l Hc _ IH]; [reflexivity|].
  rewrite encode_cons, encode_cp_ascii by exact Hc. simpl. by rewrite IH.
Qed.

Lemma decode_ascii l : Forall (fun c => 0 <= c < 0x80) l -> decode l = l.
Proof.
  intros Hl. rewrite <- (encode_ascii l Hl) at 1. apply decode_encode.
  apply forallb_forall. intros c Hc. rewrite List.Forall_forall in Hl. specialize (Hl c Hc).
  unfold is_scalar, is_surrogate. zcase; reflexivity.
Qed.

Lemma encode_bytes_ok s : scalars s = true -> bytes_ok (encode s) = true.
Proof.
  induction s as [|c s IH]; [reflexivity|]. cbn [scalars forallb].
  intros [Hc Hs]%andb_prop. rewrite encode_cons, bytes_ok_app, IH by exact Hs.
  rewrite andb_true_r. apply forallb_forall. intros b Hb.
  destruct (encode_cp_bytes c b Hc Hb). unfold is_byte. zcase; reflexivity.
Qed.

(** An ASCII byte occurs in an encoding only where the string has that
    character: in particular no carriage return (13) appears unless the
    string has one. *)
Lemma encode_ascii_In s b :
  scalars s = true -> b < 0x80 -> In b (encode s) -> In b s.
Proof.
  induction s as [|c s IH]; [easy|]. cbn [scalars forallb].
  intros [Hc Hs]%andb_prop Hb. rewrite encode_cons, in_app_iff.
  intros [Hin|Hin].
  - left. symmetry. apply (proj2 (encode_cp_bytes c b Hc Hin) Hb).
  - right. apply IH; assumption.
Qed.

Lemma encode_nil s : encode s = [] <-> s = [].
Proof.
  split; [|intros ->; reflexivity].
  destruct s as [|c s]; [reflexivity|]. rewrite encode_cons.
  unfold encode_cp. zcase; discriminate.
Qed.

End Utf8.
