(* ===== verification/FileSystem.v ===== *)
(** * The file system that [jnc::File] runs against

    A POSIX file system without symbolic links: a set of directories, a
    map from file paths to their contents (bytes), a set of paths the
    process is not allowed to open, and the working directory.  A path is
    the list of its components from the root, so [[]] is [/].

    Two ways of reading a path string matter to the program:
    - Qt's lexical cleaning ([qt_cleanPath], used by [QDir::cd] and so by
      [QDir::cdUp]), which removes [.], empty components and [x/..] pairs
      without looking at the disk, and fails on an absolute path that
      climbs above [/];
    - the kernel's resolution in [open(2)], which walks the components
      from the root or the working directory, requires every component but
      the last to be a directory, and stays at [/] on [..]. *)

From S2P Require Import Prelude.
From stdpp Require Import base list gmap strings.
From Stdlib Require Import ZArith Lia String Ascii.
Open Scope Z_scope.
Open Scope jnc_scope.

Module Path.
Local Open Scope string_scope.

(** A path from the root: its components in order. *)
Abbreviation abspath := (list string).

(** Splitting a path string at each ['/']: ["/a//b"] gives
    [[""; "a"; ""; "b"]]. *)
Fixpoint split_aux (cur : string) (s : string) : list string :=
  match s with
  | EmptyString => [cur]
  | String c s' =>
    if Ascii.eqb c "/"%char then cur :: split_aux "" s'
    else split_aux (cur ++ String c EmptyString) s'
  end.

Definition split (p : string) : list string := split_aux "" p.

Definition is_absolute (p : string) : bool :=
  match p with
  | String c _ => Ascii.eqb c "/"%char
  | EmptyString => false
  end.

(** [qt_cleanPath(path, &ok)] on the components: the result is [None]
    when [ok] would be [false], that is when an absolute path climbs above
    the root; a relative path keeps its leading [..] components.  The
    components are kept on a stack, most recent first. *)
Fixpoint clean_aux (absolute : bool) (stack : list string) (segs : list string)
  : option (list string) :=
  match segs with
  | [] => Some (rev stack)
  | s :: rest =>
    if String.eqb s "" || String.eqb s "." then clean_aux absolute stack rest
    else if String.eqb s ".." then
      match stack with
      | top :: stack' =>
        if String.eqb top ".." then clean_aux absolute (s :: stack) rest
        else clean_aux absolute stack' rest
      | [] => if absolute then None else clean_aux absolute [s] rest
      end
    else clean_aux absolute (s :: stack) rest
  end.

Definition clean (absolute : bool) (segs : list string) : option (list string) :=
  clean_aux absolute [] segs.

(** A cleaned relative path taken from the working directory: its leading
    [..] components go up, staying at the root. *)
Fixpoint rel_to_abs_aux (stack : list string) (segs : list string) : list string :=
  match segs with
  | [] => rev stack
  | s :: rest =>
    if String.eqb s ".." then rel_to_abs_aux (tail stack) rest
    else rel_to_abs_aux (s :: stack) rest
  end.

Definition rel_to_abs (cwd : abspath) (segs : list string) : abspath :=
  rel_to_abs_aux (rev cwd) segs.

End Path.

Module FS.
Import Path.
Local Open Scope string_scope.

Record t := mk {
  cwd : abspath;
  dirs : gset abspath;
  files : gmap abspath Bytes;
  denied : gset abspath;
}.

(** What a path string names for the kernel: a directory (the path ends in
    [/], [.] or [..], or is empty), or an entry [name] of directory [dir]
    that may or may not exist.  [None] is [ENOENT] or [ENOTDIR]: a
    component before the last is not a directory. *)
Inductive target :=
| TDir (d : abspath)
| TEntry (dir : abspath) (name : string).

Fixpoint walk (fs : t) (stack : list string) (segs : list string) : option target :=
  match segs with
  | [] => Some (TDir (rev stack))
  | [s] =>
    if String.eqb s "" || String.eqb s "." then Some (TDir (rev stack))
    else if String.eqb s ".." then Some (TDir (rev (tail stack)))
    else Some (TEntry (rev stack) s)
  | s :: rest =>
    if String.eqb s "" || String.eqb s "." then walk fs stack rest
    else if String.eqb s ".." then walk fs (tail stack) rest
    else if bool_decide (rev (s :: stack) ∈ dirs fs) then walk fs (s :: stack) rest
    else None
  end.

Definition resolve (fs : t) (p : string) : option target :=
  walk fs (if is_absolute p then [] else rev (cwd fs)) (split p).

(** [QDir(fileName).cdUp()]: [QDir]'s constructor takes an empty path as
    ["."]; [cd("..")] cleans [path + "/.."] lexically, fails when the
    cleaning fails, and then checks that the directory exists (a relative
    result is taken from the working directory). *)
Definition cdUp (fs : t) (fileName : string) : bool :=
  let p := if String.eqb fileName "" then "." else fileName in
  match clean (is_absolute p) (split p ++ [".."]) with
  | None => false
  | Some segs =>
    let d := if is_absolute p then segs else rel_to_abs (cwd fs) segs in
    bool_decide (d ∈ dirs fs)
  end.

(** The parent of a path. *)
Definition parent (p : abspath) : abspath := removelast p.

(** Well-formedness of the file system: the root and the working
    directory exist, the parent of every directory and of every file is a
    directory, no path is both, and file contents are bytes. *)
Record wf (fs : t) : Prop := {
  wf_root : [] ∈ dirs fs;
  wf_cwd : cwd fs ∈ dirs fs;
  wf_dir_parent : forall d, d ∈ dirs fs -> d <> [] -> parent d ∈ dirs fs;
  wf_file_parent : forall p c, files fs !! p = Some c -> parent p ∈ dirs fs;
  wf_file_not_dir : forall p c, files fs !! p = Some c -> p ∉ dirs fs;
  wf_file_bytes : forall p c, files fs !! p = Some c -> bytes_ok c = true;
}.

(** The same check as a boolean, to be evaluated on a concrete file
    system. *)
Definition wfb (fs : t) : bool :=
  bool_decide ([] ∈ dirs fs) && bool_decide (cwd fs ∈ dirs fs) &&
  forallb (fun d => bool_decide (d = [] \/ parent d ∈ dirs fs)) (elements (dirs fs)) &&
  forallb (fun '(p, c) => bool_decide (parent p ∈ dirs fs) && negb (bool_decide (p ∈ dirs fs))
                          && bytes_ok c)
    (map_to_list (files fs)).

(** A small file system: the working directory [/home] holds [a.txt]
    (with a CRLF line end), the empty [e.txt], [blank.json] (a space and
    a line feed), [latin1.json] (a JSON array of one string in Latin-1,
    not UTF-8), the directory [docs] and [secret.txt], which the process
    may not open. *)
Definition sample : t :=
  mk ["home"] {[ []; ["home"]; ["home"; "docs"] ]}
     (<[["home"; "a.txt"] := [97; 13; 10; 98]]>
      (<[["home"; "e.txt"] := []]>
       (<[["home"; "blank.json"] := [32; 10]]>
        (<[["home"; "latin1.json"] := [91; 34; 0xE9; 34; 93]]>
         (<[["home"; "secret.txt"] := [120]]> ∅)))))
     {[ ["home"; "secret.txt"] ]}.

(** ** Lemmas *)

Lemma wfb_wf fs : wfb fs = true -> wf fs.
Proof.
  unfold wfb. intros H.
  apply andb_prop in H as [H Hfiles]. apply andb_prop in H as [H Hdirs].
  apply andb_prop in H as [Hroot Hcwd].
  rewrite forallb_forall in Hdirs, Hfiles.
  apply bool_decide_eq_true in Hroot, Hcwd.
  assert (Hf : forall p c, files fs !! p = Some c ->
            (parent p ∈ dirs fs) /\ (p ∉ dirs fs) /\ bytes_ok c = true).
  { intros p c Hp.
    assert (Hin : In (p, c) (map_to_list (files fs)))
      by (apply list_elem_of_In, elem_of_map_to_list; exact Hp).
    specialize (Hfiles _ Hin). simpl in Hfiles.
    apply andb_prop in Hfiles as [Hfiles Hb]. apply andb_prop in Hfiles as [Hpar Hnd].
    apply bool_decide_eq_true in Hpar. apply negb_true_iff, bool_decide_eq_false in Hnd.
    done. }
  constructor; [done|done| |intros p c Hp; apply (Hf p c Hp)..].
  intros d Hd Hne.
  assert (Hin : In d (elements (dirs fs))) by (apply list_elem_of_In, elem_of_elements; exact Hd).
  apply Hdirs, bool_decide_eq_true in Hin. tauto.
Qed.

Lemma parent_rev stack : parent (rev stack) = rev (tail stack).
Proof.
  unfold parent. destruct stack as [|s stack]; [reflexivity|].
  simpl. apply removelast_last.
Qed.

Lemma parent_snoc dir n : parent (dir ++ [n]) = dir.
Proof. apply removelast_last. Qed.

(** Going up from an existing directory stays in an existing directory. *)
Lemma wf_dir_up fs stack :
  wf fs -> rev stack ∈ dirs fs -> rev (tail stack) ∈ dirs fs.
Proof.
  intros Hwf Hd. destruct stack as [|s stack]; [exact Hd|].
  rewrite <- parent_rev. apply (wf_dir_parent fs Hwf); [exact Hd|].
  simpl. intros E. apply app_eq_nil in E as [_ E]. discriminate.
Qed.

(** The kernel's walk only passes through existing directories, so the
    directory of the entry it reaches exists. *)
Lemma walk_entry_dir fs stack segs dir n :
  wf fs -> rev stack ∈ dirs fs ->
  walk fs stack segs = Some (TEntry dir n) -> dir ∈ dirs fs.
Proof.
  intros Hwf. revert stack. induction segs as [|s [|s' rest] IH]; intros stack Hd Hw.
  - discriminate.
  - simpl in Hw. repeat case_match; simplify_eq; done.
  - cbn [walk] in Hw. destruct (String.eqb s "" || String.eqb s ".").
    + eapply IH; eauto.
    + destruct (String.eqb s ".."); [eapply IH; [apply wf_dir_up|]; eauto|].
      case_bool_decide; [|discriminate]. eapply IH; eauto.
Qed.

Lemma resolve_entry_dir fs name dir n :
  wf fs -> resolve fs name = Some (TEntry dir n) -> dir ∈ dirs fs.
Proof.
  intros Hwf Hr. unfold resolve in Hr.
  refine (walk_entry_dir fs _ _ _ n Hwf _ Hr).
  destruct (is_absolute name); simpl; [apply (wf_root fs Hwf)|].
  rewrite rev_involutive. apply (wf_cwd fs Hwf).
Qed.

(** One step of the walk over a component that is not the last. *)
Lemma walk_step fs stack s s' rest :
  walk fs stack (s :: s' :: rest) =
  if String.eqb s "" || String.eqb s "." then walk fs stack (s' :: rest)
  else if String.eqb s ".." then walk fs (tail stack) (s' :: rest)
  else if bool_decide (rev (s :: stack) ∈ dirs fs) then walk fs (s :: stack) (s' :: rest)
  else None.
Proof. reflexivity. Qed.

(** The kernel's resolution and [cdUp] only look at the working directory
    and the directories, not at the files. *)
Lemma walk_ext fs1 fs2 stack segs :
  dirs fs1 = dirs fs2 -> walk fs1 stack segs = walk fs2 stack segs.
Proof.
  intros Hd. revert stack. induction segs as [|s [|s' rest] IH]; intros stack; [done|done|].
  rewrite !walk_step, Hd. repeat case_match; auto.
Qed.

Lemma resolve_ext fs1 fs2 name :
  cwd fs1 = cwd fs2 -> dirs fs1 = dirs fs2 -> resolve fs1 name = resolve fs2 name.
Proof. intros Hc Hd. unfold resolve. rewrite Hc. by apply walk_ext. Qed.

Lemma cdUp_ext fs1 fs2 name :
  cwd fs1 = cwd fs2 -> dirs fs1 = dirs fs2 -> cdUp fs1 name = cdUp fs2 name.
Proof. intros Hc Hd. unfold cdUp. by rewrite Hc, Hd. Qed.

Lemma sample_wf : wf sample.
Proof. apply wfb_wf. vm_compute. reflexivity. Qed.

(** [QDir("")] is the working directory, whose parent exists (the root
    being its own parent): [cdUp] of the empty name succeeds. *)
Lemma cdUp_empty fs : wf fs -> cdUp fs "" = true.
Proof.
  intros Hwf. unfold cdUp. cbn -[rel_to_abs]. apply bool_decide_eq_true.
  unfold rel_to_abs. cbn. rewrite <- parent_rev, rev_involutive.
  destruct (decide (cwd fs = [])) as [->|Hne]; [apply (wf_root fs Hwf)|].
  apply (wf_dir_parent fs Hwf); [apply (wf_cwd fs Hwf)|exact Hne].
Qed.

(** [cdUp] of the root fails: the cleaning of ["/.."] climbs above it. *)
Lemma cdUp_root fs : cdUp fs "/" = false.
Proof. reflexivity. Qed.

End FS.
