(* ===== verification/QFile.v ===== *)
(** * [QFile], as the program uses it

    [QIODeviceBase::OpenMode] is a bit mask; the flags are the bits of a
    [Z] with Qt's values.  A [QFile] object is its file name, its open mode
    ([NotOpen] when closed), its position, and the file its descriptor
    refers to.  The operations act on the pair (file system, object), in
    the state monad of [Prelude]:

    - [open] follows [QFile::open]: a second open fails; [Append] implies
      [WriteOnly]; a mode with neither [ReadOnly] nor [WriteOnly] fails;
      the file engine then refuses an empty name, a directory, a path the
      kernel cannot resolve, and a path the process may not open; it
      truncates when asked to, or when [WriteOnly] comes without [ReadOnly]
      or [Append]; it creates a missing file when writing; and an
      [Append] open starts at the end of the file;
    - [close] resets the mode and the position ([QIODevice::close]);
    - [setFileName] on an open file warns and closes it first, then takes
      the new name;
    - [read_all] is [QIODevice::readAll] as [QTextStream] uses it, with
      the device's [Text] mode turned off: nothing unless the device is
      readable, otherwise the raw bytes from the position to the end;
    - [write] is [QIODevice::write] with an unbuffered result: nothing
      unless the device is writable; in [Append] mode the bytes go to the
      end of the file ([O_APPEND]), otherwise at the position, the gap past
      the end being filled with zero bytes; the position advances by the
      number of bytes written in both cases;
    - [seek] fails on a closed device and on a negative offset, and
      otherwise moves the position, also past the end.

    [QTextStream] adds the UTF-8 codec of [Utf8] on top: [ts_read_all]
    decodes the bytes and then, if the device was in [Text] mode, removes
    every carriage return from the decoded text; [ts_write] encodes. *)

From S2P Require Import Prelude Utf8 FileSystem.
From stdpp Require Import base list gmap strings.
From Stdlib Require Import ZArith Lia.
Open Scope Z_scope.
Open Scope jnc_scope.

Module QIODevice.

Definition NotOpen : Z := 0x0000.
Definition ReadOnly : Z := 0x0001.
Definition WriteOnly : Z := 0x0002.
Definition ReadWrite : Z := Z.lor ReadOnly WriteOnly.
Definition Append : Z := 0x0004.
Definition Truncate : Z := 0x0008.
Definition Text : Z := 0x0010.

(** [mode & flag] is not zero. *)
Definition has (mode flag : Z) : bool := negb (Z.land mode flag =? 0).

End QIODevice.

Module QFile.
Import QIODevice Path.

Record t := mk {
  fileName : string;
  openMode : Z;
  pos : Z;
  path : abspath;
}.

Abbreviation world := (FS.t * t)%type.

(** [new QFile]: no name, not open. *)
Definition new : t := mk "" NotOpen 0 [].

Definition isOpen (f : t) : bool := negb (openMode f =? NotOpen).

Definition contents (fs : FS.t) (p : abspath) : Bytes :=
  default [] (FS.files fs !! p).

Definition set_contents (fs : FS.t) (p : abspath) (c : Bytes) : FS.t :=
  FS.mk (FS.cwd fs) (FS.dirs fs) (<[p := c]> (FS.files fs)) (FS.denied fs).

(** [QFile::setFileName]: on an open file, a warning and [close()]
    (mode and position reset), then the new name. *)
Definition setFileName (name : string) (f : t) : t :=
  if isOpen f then mk name NotOpen 0 (path f) else mk name (openMode f) (pos f) (path f).

(** Whether opening with [mode] truncates an existing file
    ([processOpenModeFlags]). *)
Definition truncates (mode : Z) : bool :=
  has mode Truncate || (has mode WriteOnly && negb (has mode (Z.lor ReadOnly Append))).

(** The file engine's [open]: the file the descriptor refers to and the
    file system after the call, or [None] when it fails. *)
Definition engine_open (fs : FS.t) (name : string) (mode : Z) : option (FS.t * abspath) :=
  if String.eqb name "" then None else
  match FS.resolve fs name with
  | None | Some (FS.TDir _) => None
  | Some (FS.TEntry dir n) =>
    let p := dir ++ [n] in
    if bool_decide (p ∈ FS.dirs fs) then None
    else if bool_decide (p ∈ FS.denied fs) then None
    else match FS.files fs !! p with
    | Some _ => Some (if truncates mode then set_contents fs p [] else fs, p)
    | None =>
      if has mode WriteOnly && negb (bool_decide (dir ∈ FS.denied fs))
      then Some (set_contents fs p [], p)
      else None
    end
  end.

(** [QFile::open] first makes [Append] imply [WriteOnly]. *)
Definition adjust (mode : Z) : Z :=
  if has mode Append then Z.lor mode WriteOnly else mode.

(** [QFile::open]. *)
Definition open (mode : Z) : State world bool := fun '(fs, f) =>
  if isOpen f then (false, (fs, f)) else
  let mode := adjust mode in
  if Z.land mode ReadWrite =? 0 then (false, (fs, f)) else
  match engine_open fs (fileName f) mode with
  | None => (false, (fs, f))
  | Some (fs', p) =>
    let start := if has mode Append then Z.of_nat (length (contents fs' p)) else 0 in
    (true, (fs', mk (fileName f) mode start p))
  end.

(** [QFileDevice::close]. *)
Definition close : State world unit := fun '(fs, f) =>
  if isOpen f then (tt, (fs, mk (fileName f) NotOpen 0 (path f))) else (tt, (fs, f)).

(** Every carriage return ['\r'] removed from a text. *)
Definition drop_cr (s : list Z) : list Z := List.filter (fun c => negb (c =? 13)) s.

(** [QIODevice::readAll] with [Text] mode off, as [QTextStream] calls it. *)
Definition read_all : State world Bytes := fun '(fs, f) =>
  if negb (has (openMode f) ReadOnly) then ([], (fs, f)) else
  let data := drop (Z.to_nat (pos f)) (contents fs (path f)) in
  (data, (fs, mk (fileName f) (openMode f) (pos f + Z.of_nat (length data)) (path f))).

(** The contents after [data] is written at offset [n]: the gap past the
    end (if any) is filled with zero bytes. *)
Definition write_at (n : nat) (data c : Bytes) : Bytes :=
  take n c ++ replicate (n - length c) 0 ++ data ++ drop (n + length data) c.

(** [QIODevice::write] of a non-empty block. *)
Definition write (data : Bytes) : State world unit := fun '(fs, f) =>
  if negb (has (openMode f) WriteOnly) then (tt, (fs, f)) else
  let c := contents fs (path f) in
  let c' := if has (openMode f) Append then c ++ data
            else write_at (Z.to_nat (pos f)) data c in
  (tt, (set_contents fs (path f) c',
        mk (fileName f) (openMode f) (pos f + Z.of_nat (length data)) (path f))).

(** [QFileDevice::seek]. *)
Definition seek (off : Z) : State world bool := fun '(fs, f) =>
  if negb (isOpen f) then (false, (fs, f))
  else if off <? 0 then (false, (fs, f))
  else (true, (fs, mk (fileName f) (openMode f) off (path f))).

(** [QTextStream::readAll] on the device. *)
Definition ts_read_all : State world (list Z) := fun w =>
  let '(bs, w') := read_all w in
  let s := Utf8.decode_stream bs in
  (if has (openMode w.2) Text then drop_cr s else s, w').

(** [QTextStream << text], flushed when the stream is destroyed; an empty
    text leaves the write buffer empty and nothing is written. *)
Definition ts_write (text : list Z) : State world unit :=
  match text with
  | [] => mret tt
  | _ => write (Utf8.encode text)
  end.

(** Well-formedness of a [QFile] against the file system: a closed file is
    at position 0; an open one has an access mode, a non-negative
    position, and refers to an existing file. *)
Definition wf (fs : FS.t) (f : t) : Prop :=
  if isOpen f
  then Z.land (openMode f) ReadWrite <> 0 /\ 0 <= pos f /\ is_Some (FS.files fs !! path f)
  else pos f = 0.

(** ** Lemmas *)

Lemma lookup_set_contents fs p c q :
  FS.files (set_contents fs p c) !! q = if decide (p = q) then Some c else FS.files fs !! q.
Proof. apply lookup_insert. Qed.

Lemma set_contents_id fs p c :
  FS.files fs !! p = Some c -> set_contents fs p c = fs.
Proof. intros H. destruct fs. unfold set_contents. simpl in *. by rewrite insert_id. Qed.

Lemma set_contents_twice fs p c1 c2 :
  set_contents (set_contents fs p c1) p c2 = set_contents fs p c2.
Proof. unfold set_contents. simpl. by rewrite insert_insert_eq. Qed.

Lemma lookup_set_contents_eq fs p c : FS.files (set_contents fs p c) !! p = Some c.
Proof. rewrite lookup_set_contents. by case_decide. Qed.

Lemma contents_set_contents_eq fs p c : contents (set_contents fs p c) p = c.
Proof. unfold contents. by rewrite lookup_set_contents_eq. Qed.

#[local] Hint Rewrite lookup_set_contents_eq contents_set_contents_eq set_contents_twice : jnc_rw.

(** When the file engine opens a file: the name is not empty, the kernel
    resolves it to an entry that is not a directory and may be opened, and
    the file exists or is to be written ([writes]) in a directory that may
    be written. *)
Definition can_open (fs : FS.t) (name : string) (writes : bool) (p : abspath) : Prop :=
  name <> "" /\
  (exists dir n, FS.resolve fs name = Some (FS.TEntry dir n) /\ p = dir ++ [n] /\
   (p ∉ FS.dirs fs) /\ (p ∉ FS.denied fs) /\
   (is_Some (FS.files fs !! p) \/ (writes = true /\ dir ∉ FS.denied fs))).

(** [can_open] on a concrete file system and name: the kernel's
    resolution is evaluated, then each condition is decided. *)
Ltac solve_can_open :=
  split; [discriminate|];
  lazymatch goal with
  | |- exists dir n, FS.resolve ?fs ?nm = _ /\ _ =>
    let r := eval vm_compute in (FS.resolve fs nm) in
    lazymatch r with Some (FS.TEntry ?d ?n) => exists d, n end
  end;
  split; [vm_compute; reflexivity|]; split; [reflexivity|];
  split; [decide_by_compute|]; split; [decide_by_compute|];
  first [left; decide_by_compute | right; split; [reflexivity|decide_by_compute]].

(** The engine then empties the file if it was missing or the mode
    truncates, and keeps it otherwise. *)
Lemma engine_open_ok fs name mode p :
  can_open fs name (has mode WriteOnly) p ->
  engine_open fs name mode =
  Some (set_contents fs p (if truncates mode then [] else contents fs p), p).
Proof.
  intros (Hn & dir & n & Hr & -> & Hd & Hden & Hex). unfold engine_open.
  rewrite (proj2 (String.eqb_neq _ _) Hn), Hr, !bool_decide_eq_false_2 by assumption.
  destruct (FS.files fs !! (dir ++ [n])) as [c|] eqn:E.
  - unfold contents. rewrite E. simpl. destruct (truncates mode); [reflexivity|].
    by rewrite set_contents_id.
  - destruct Hex as [[c Hc]|[Hw Hdd]]; [congruence|].
    rewrite Hw, bool_decide_eq_false_2 by assumption.
    unfold contents. rewrite E. by destruct (truncates mode).
Qed.

(** Otherwise it fails. *)
Lemma engine_open_fail fs name mode :
  (forall p, ~ can_open fs name (has mode WriteOnly) p) -> engine_open fs name mode = None.
Proof.
  intros Hno. unfold engine_open.
  destruct (String.eqb_spec name "") as [|Hn]; [reflexivity|].
  destruct (FS.resolve fs name) as [[d|dir n]|] eqn:Hr; try reflexivity.
  case_bool_decide as Hd; [reflexivity|]. case_bool_decide as Hden; [reflexivity|].
  destruct (FS.files fs !! (dir ++ [n])) as [c|] eqn:E.
  - exfalso. apply (Hno (dir ++ [n])). split; [done|]. exists dir, n. eauto 10.
  - destruct (has mode WriteOnly) eqn:Hw; [|reflexivity].
    case_bool_decide as Hdd; [reflexivity|].
    exfalso. apply (Hno (dir ++ [n])). split; [done|]. exists dir, n. eauto 10.
Qed.

(** [QFile::open] on a closed file that the engine can open. *)
Lemma qopen_ok mode fs f p :
  isOpen f = false -> Z.land (adjust mode) ReadWrite <> 0 ->
  can_open fs (fileName f) (has (adjust mode) WriteOnly) p ->
  let c := if truncates (adjust mode) then [] else contents fs p in
  open mode (fs, f) =
  (true, (set_contents fs p c,
          mk (fileName f) (adjust mode)
             (if has (adjust mode) Append then Z.of_nat (length c) else 0) p)).
Proof.
  intros Hc Hm Ho. simpl. rewrite Hc. simpl.
  rewrite (proj2 (Z.eqb_neq _ _) Hm), (engine_open_ok _ _ _ _ Ho).
  by autorewrite with jnc_rw.
Qed.

(** What a successful [QFile::open] leaves: the file the engine opened
    under the object's name, with the completed mask. *)
Lemma qopen_true mode fs f fs' f' :
  open mode (fs, f) = (true, (fs', f')) ->
  engine_open fs (fileName f) (adjust mode) = Some (fs', path f') /\
  fileName f' = fileName f /\ openMode f' = adjust mode.
Proof.
  simpl. destruct (isOpen f); [discriminate|]. destruct (_ =? 0); [discriminate|].
  destruct (engine_open _ _ _) as [[g p]|]; [|discriminate]. intros [= <- <-]. auto.
Qed.

(** [QFile::open] that the engine refuses fails and changes nothing. *)
Lemma qopen_fail mode fs f :
  (forall p, ~ can_open fs (fileName f) (has (adjust mode) WriteOnly) p) ->
  open mode (fs, f) = (false, (fs, f)).
Proof.
  intros Hno. simpl. destruct (isOpen f); [reflexivity|]. simpl.
  destruct (Z.land (adjust mode) ReadWrite =? 0); [reflexivity|].
  by rewrite engine_open_fail.
Qed.

(** [QFile::open] on an open file fails and changes nothing. *)
Lemma qopen_already_open mode fs f :
  isOpen f = true -> open mode (fs, f) = (false, (fs, f)).
Proof. intros H. simpl. by rewrite H. Qed.

(** [write] on a writable device, unfolded. *)
Lemma qwrite_ok data fs f :
  has (openMode f) WriteOnly = true ->
  write data (fs, f) =
  (tt, (set_contents fs (path f)
          (if has (openMode f) Append then contents fs (path f) ++ data
           else write_at (Z.to_nat (pos f)) data (contents fs (path f))),
        mk (fileName f) (openMode f) (pos f + Z.of_nat (length data)) (path f))).
Proof. intros H. simpl. by rewrite H. Qed.

(** [read_all] on a readable device, unfolded. *)
Lemma qread_all_ok fs f :
  has (openMode f) ReadOnly = true ->
  let data := drop (Z.to_nat (pos f)) (contents fs (path f)) in
  read_all (fs, f) =
  (data, (fs, mk (fileName f) (openMode f) (pos f + Z.of_nat (length data)) (path f))).
Proof. intros H. simpl. by rewrite H. Qed.

(** Writing at offset 0 of an empty file gives the data. *)
Lemma write_at_nil data : write_at 0 data [] = data.
Proof. unfold write_at. simpl. by rewrite drop_nil, app_nil_r. Qed.

(** A failed [open] changes nothing. *)
Lemma qopen_false mode w w' : open mode w = (false, w') -> w' = w.
Proof.
  destruct w as [fs f]. simpl. destruct (isOpen f); [congruence|].
  destruct (_ =? 0); [congruence|]. destruct (engine_open _ _ _) as [[]|]; congruence.
Qed.

(** Setting the contents of the file an entry names keeps that entry
    openable, now as an existing file. *)
Lemma can_open_set_contents fs name w w' p c :
  can_open fs name w p -> can_open (set_contents fs p c) name w' p.
Proof.
  intros (Hn & dir & n & Hr & -> & Hd & Hden & _). split; [done|].
  exists dir, n. rewrite (FS.resolve_ext _ fs) by reflexivity. split_and!; try done.
  left. autorewrite with jnc_rw. eauto.
Qed.

Lemma cdUp_set_contents fs p c name : FS.cdUp (set_contents fs p c) name = FS.cdUp fs name.
Proof. by apply FS.cdUp_ext. Qed.

(** What the [QTextStream] decoder and [Text] mode make of the encoding
    of a text with no carriage return and no leading byte-order mark: the
    text itself. *)
Lemma text_read_back s :
  Utf8.scalars s = true -> ~ In 13 s -> head s <> Some Utf8.bom ->
  drop_cr (Utf8.decode_stream (Utf8.encode s)) = s.
Proof.
  intros Hs Hcr Hbom. unfold Utf8.decode_stream. rewrite Utf8.decode_encode by exact Hs.
  assert (Hsk : Utf8.skip_bom s = s).
  { destruct s as [|c s']; [done|]. simpl in Hbom |- *. destruct (Z.eqb_spec c Utf8.bom); congruence. }
  rewrite Hsk. apply forallb_filter_id, forallb_forall. intros b Hb.
  destruct (Z.eqb_spec b 13); [subst; contradiction|done].
Qed.

(** ** Well-formedness *)

Lemma bytes_ok_write_at n data c :
  bytes_ok data = true -> bytes_ok c = true -> bytes_ok (write_at n data c) = true.
Proof.
  rewrite !bytes_ok_Forall. intros Hd Hc. unfold write_at.
  repeat apply Forall_app_2; auto using Forall_take, Forall_drop.
  apply Forall_replicate. reflexivity.
Qed.

(** Setting the contents of an existing file, or of a new entry of an
    existing directory, keeps the file system well formed. *)
Lemma fs_wf_set_contents fs p c :
  FS.wf fs -> bytes_ok c = true ->
  is_Some (FS.files fs !! p) \/ (FS.parent p ∈ FS.dirs fs /\ p ∉ FS.dirs fs) ->
  FS.wf (set_contents fs p c).
Proof.
  intros Hwf Hc Hp. destruct Hwf as [Hr Hcwd Hdp Hfp Hfd Hfb].
  constructor; simpl; try assumption; intros q c'; rewrite lookup_insert;
    (case_decide as E; [subst q; intros [= <-] | eauto]).
  - destruct Hp as [[c0 H0]|[Hpp _]]; eauto.
  - destruct Hp as [[c0 H0]|[_ Hpd]]; eauto.
  - exact Hc.
Qed.

Lemma qfile_wf_set_contents fs p c f : wf fs f -> wf (set_contents fs p c) f.
Proof.
  unfold wf. destruct (isOpen f); [|done]. intros (H1 & H2 & H3). split_and!; [done..|].
  rewrite lookup_set_contents. case_decide; [done|exact H3].
Qed.

(** What the engine opens is an existing file of a well-formed file
    system. *)
Lemma engine_open_wf fs name mode fs' p :
  FS.wf fs -> engine_open fs name mode = Some (fs', p) ->
  FS.wf fs' /\ is_Some (FS.files fs' !! p).
Proof.
  intros Hwf. unfold engine_open.
  destruct (String.eqb name ""); [discriminate|].
  destruct (FS.resolve fs name) as [[d|dir n]|] eqn:Hr; try discriminate.
  pose proof (FS.resolve_entry_dir _ _ _ _ Hwf Hr) as Hdir.
  case_bool_decide as Hd; [discriminate|]. case_bool_decide; [discriminate|].
  assert (Hnew : forall c, bytes_ok c = true ->
            FS.wf (set_contents fs (dir ++ [n]) c) /\
            is_Some (FS.files (set_contents fs (dir ++ [n]) c) !! (dir ++ [n]))).
  { intros c Hc. split.
    - apply fs_wf_set_contents; [done|done|]. right. by rewrite FS.parent_snoc.
    - autorewrite with jnc_rw. eauto. }
  destruct (FS.files fs !! (dir ++ [n])) eqn:E.
  - intros [= <- <-]. destruct (truncates mode); [by apply Hnew|]. eauto.
  - destruct (_ && _); [|discriminate]. intros [= <- <-]. by apply Hnew.
Qed.

Lemma qopen_wf mode fs f :
  FS.wf fs -> wf fs f ->
  let '(_, (fs', f')) := open mode (fs, f) in FS.wf fs' /\ wf fs' f'.
Proof.
  intros Hfs Hf. simpl. destruct (isOpen f); [done|].
  destruct (Z.eqb_spec (Z.land (adjust mode) ReadWrite) 0) as [|Hm]; [done|].
  destruct (engine_open fs (fileName f) (adjust mode)) as [[fs' p]|] eqn:E; [|done].
  destruct (engine_open_wf _ _ _ _ _ Hfs E) as [Hfs' Hp]. split; [done|].
  unfold wf, isOpen. simpl. destruct (Z.eqb_spec (adjust mode) NotOpen) as [Hz|].
  - exfalso. apply Hm. rewrite Hz. reflexivity.
  - simpl. split_and!; [done| |done]. case_match; lia.
Qed.

Lemma qclose_wf fs f :
  wf fs f -> let '(_, (fs', f')) := close (fs, f) in fs' = fs /\ wf fs' f'.
Proof.
  unfold wf. simpl. destruct (isOpen f) eqn:Ho; [|rewrite Ho; auto].
  intros _. split; [done|]. unfold isOpen. simpl. reflexivity.
Qed.

(** A device with any access flag is open. *)
Lemma has_isOpen f flag : has (openMode f) flag = true -> isOpen f = true.
Proof.
  unfold has, isOpen. destruct (Z.eqb_spec (openMode f) NotOpen) as [E|]; [|done].
  rewrite E. discriminate.
Qed.

Lemma qread_all_wf fs f :
  wf fs f -> let '(_, (fs', f')) := read_all (fs, f) in fs' = fs /\ wf fs' f'.
Proof.
  simpl. destruct (has (openMode f) ReadOnly) eqn:Hr; simpl; [|auto].
  unfold wf. pose proof (has_isOpen _ _ Hr) as Ho. rewrite Ho.
  unfold isOpen in *. simpl. rewrite Ho. intros (? & ? & ?). split_and!; auto; lia.
Qed.

Lemma qseek_wf n fs f :
  wf fs f -> let '(_, (fs', f')) := seek n (fs, f) in fs' = fs /\ wf fs' f'.
Proof.
  unfold wf. simpl. destruct (isOpen f) eqn:Ho; simpl; [|rewrite Ho; auto].
  destruct (Z.ltb_spec n 0); simpl; [rewrite Ho; auto|].
  unfold isOpen in *. simpl. rewrite Ho. intros (? & ? & ?). split_and!; done.
Qed.

Lemma qwrite_wf data fs f :
  FS.wf fs -> wf fs f -> bytes_ok data = true ->
  let '(_, (fs', f')) := write data (fs, f) in FS.wf fs' /\ wf fs' f'.
Proof.
  intros Hfs Hf Hd. simpl. destruct (has (openMode f) WriteOnly) eqn:Hw; simpl; [|done].
  pose proof (has_isOpen _ _ Hw) as Hopen.
  unfold wf in Hf. rewrite Hopen in Hf. destruct Hf as (Hm & Hp & Hex).
  assert (Hc : bytes_ok (contents fs (path f)) = true).
  { destruct Hex as [c Hc]. unfold contents. rewrite Hc. simpl.
    eapply FS.wf_file_bytes; eauto. }
  split.
  - apply fs_wf_set_contents; [done| |by left].
    destruct (has (openMode f) Append).
    + rewrite bytes_ok_app, Hc, Hd. reflexivity.
    + by apply bytes_ok_write_at.
  - unfold wf, isOpen in *. cbn [openMode pos path]. rewrite Hopen. split_and!; [done|lia|].
    autorewrite with jnc_rw. by eexists.
Qed.

(** ** What an operation may change *)

(** [fs'] differs from [fs] at most in the contents of the file [p],
    which is not removed if it existed. *)
Definition touches_only (fs fs' : FS.t) (p : abspath) : Prop :=
  FS.cwd fs' = FS.cwd fs /\ FS.dirs fs' = FS.dirs fs /\ FS.denied fs' = FS.denied fs /\
  (forall q, q <> p -> FS.files fs' !! q = FS.files fs !! q) /\
  (is_Some (FS.files fs !! p) -> is_Some (FS.files fs' !! p)).

Lemma touches_only_refl fs p : touches_only fs fs p.
Proof. by split_and!. Qed.

Lemma touches_only_set fs p c : touches_only fs (set_contents fs p c) p.
Proof.
  split_and!; try reflexivity.
  - intros q Hq. rewrite lookup_set_contents. by case_decide.
  - intros _. autorewrite with jnc_rw. eauto.
Qed.

(** [fs'] has the directories and the permissions of [fs], and every file
    of [fs], perhaps with other contents: what any sequence of operations
    on files leaves, whoever makes them. *)
Definition grows (fs fs' : FS.t) : Prop :=
  FS.cwd fs' = FS.cwd fs /\ FS.dirs fs' = FS.dirs fs /\ FS.denied fs' = FS.denied fs /\
  forall q, is_Some (FS.files fs !! q) -> is_Some (FS.files fs' !! q).

#[global] Instance grows_preorder : PreOrder grows.
Proof.
  split; [by intros fs; split_and!|].
  intros x y z (? & ? & ? & Hxy) (? & ? & ? & Hyz). split_and!; [congruence..|auto].
Qed.

Lemma touches_only_grows fs fs' p : touches_only fs fs' p -> grows fs fs'.
Proof.
  intros (? & ? & ? & Hq & Hp). split_and!; [done..|]. intros q Hs.
  destruct (decide (q = p)) as [->|Hne]; [auto|by rewrite Hq].
Qed.

(** A [QFile] well formed before stays well formed: the file it refers to
    is still there. *)
Lemma wf_grows fs fs' f : grows fs fs' -> wf fs f -> wf fs' f.
Proof.
  intros (_ & _ & _ & Hq). unfold wf. destruct (isOpen f); [|done].
  intros (? & ? & ?). auto.
Qed.

(** A mode that neither writes nor truncates leaves the file system as it
    was. *)
Lemma engine_open_readonly fs name mode fs' p :
  has mode WriteOnly = false -> has mode Truncate = false ->
  engine_open fs name mode = Some (fs', p) -> fs' = fs.
Proof.
  intros Hw Ht. unfold engine_open, truncates. rewrite Hw, Ht.
  destruct (String.eqb name ""); [discriminate|].
  destruct (FS.resolve fs name) as [[d|dir n]|]; try discriminate.
  case_bool_decide; [discriminate|]. case_bool_decide; [discriminate|].
  destruct (FS.files fs !! (dir ++ [n])); [by intros [= <- _]|discriminate].
Qed.

(** The engine opens only what [can_open] allows. *)
Lemma engine_open_can_open fs name mode fs' p :
  engine_open fs name mode = Some (fs', p) -> can_open fs name (has mode WriteOnly) p.
Proof.
  unfold engine_open. destruct (String.eqb_spec name "") as [|Hn]; [discriminate|].
  destruct (FS.resolve fs name) as [[d|dir n]|] eqn:Hr; try discriminate.
  case_bool_decide; [discriminate|]. case_bool_decide; [discriminate|].
  destruct (FS.files fs !! (dir ++ [n])) eqn:E.
  - intros [= _ <-]. split; [done|]. exists dir, n. eauto 10.
  - destruct (has mode WriteOnly) eqn:Hw; [|discriminate].
    case_bool_decide; [discriminate|]. intros [= _ <-]. split; [done|]. exists dir, n. eauto 10.
Qed.

#[local] Hint Resolve touches_only_refl touches_only_set : jnc.

Lemma engine_open_touches fs name mode fs' p :
  engine_open fs name mode = Some (fs', p) -> touches_only fs fs' p.
Proof.
  unfold engine_open. destruct (String.eqb name ""); [discriminate|].
  destruct (FS.resolve fs name) as [[d|dir n]|]; try discriminate.
  case_bool_decide; [discriminate|]. case_bool_decide; [discriminate|].
  destruct (FS.files fs !! (dir ++ [n])).
  - intros [= <- <-]. destruct (truncates mode); auto with jnc.
  - destruct (_ && _); [|discriminate]. intros [= <- <-]. auto with jnc.
Qed.

Lemma qopen_touches mode fs f :
  let '(_, (fs', f')) := open mode (fs, f) in touches_only fs fs' (path f').
Proof.
  simpl. destruct (isOpen f); [auto with jnc|]. simpl.
  destruct (_ =? 0); [auto with jnc|].
  destruct (engine_open fs (fileName f) (adjust mode)) as [[fs' p]|] eqn:E; [|auto with jnc].
  exact (engine_open_touches _ _ _ _ _ E).
Qed.

Lemma qwrite_touches data fs f :
  let '(_, (fs', f')) := write data (fs, f) in touches_only fs fs' (path f').
Proof. simpl. destruct (has (openMode f) WriteOnly); simpl; auto with jnc. Qed.

End QFile.

#[export] Hint Rewrite QFile.lookup_set_contents_eq QFile.contents_set_contents_eq
  QFile.set_contents_twice : jnc_rw.
