(* ===== verification/File.v ===== *)
(** * [jnc::File] (src/Qt/File.h, src/Qt/File.cpp)

    A [File] owns one [QFile]; its methods are operations of the state
    monad on the pair (file system, that [QFile]).  [OpenMode] and
    [ErrorCode] are the two [enum class]es of File.h.  [open] takes the
    mode as the [int] underlying the [enum class], so that the [default:]
    branch of its [switch], reached by a value cast from outside the
    enumeration, is part of the model. *)

From S2P Require Import Prelude Utf8 FileSystem QFile.
From stdpp Require Import base list gmap strings.
From Stdlib Require Import ZArith Lia.
Open Scope Z_scope.

(** [enum class OpenMode]: its enumerators have the values 0 to 5. *)
Module OpenMode.
Inductive t := read | write | append | readplus | writeplus | appendplus.

Definition value (m : t) : Z :=
  match m with
  | read => 0 | write => 1 | append => 2
  | readplus => 3 | writeplus => 4 | appendplus => 5
  end.

(** The enumerator with a given value, if any. *)
Definition of_value (v : Z) : option t :=
  match v with
  | 0 => Some read | 1 => Some write | 2 => Some append
  | 3 => Some readplus | 4 => Some writeplus | 5 => Some appendplus
  | _ => None
  end.

#[export] Instance eq_dec : EqDecision t.
Proof. solve_decision. Defined.


End OpenMode.

(** [enum class ErrorCode]. *)
Module ErrorCode.
Inductive t := NoError | InvalidMode | FilePathNotExist | FailOpenFile.

#[export] Instance eq_dec : EqDecision t.
Proof. solve_decision. Defined.
End ErrorCode.

Module File.
Import QIODevice OpenMode ErrorCode.

(** The bits each [case] of the [switch] adds to [QIODeviceBase::Text]. *)
Definition mode_bits (m : OpenMode.t) : Z :=
  match m with
  | read => ReadOnly
  | write => WriteOnly
  | append => Append
  | readplus => ReadWrite
  | writeplus => Z.lor ReadWrite Truncate
  | appendplus => Z.lor ReadOnly Append
  end.

Definition ioMode (m : OpenMode.t) : Z := Z.lor Text (mode_bits m).

Abbreviation world := QFile.world.

(** [File::File()]: [m_file = new QFile]. *)
Definition construct : QFile.t := QFile.new.

(** [File::~File()]: [delete m_file], whose destructor closes the file. *)
Definition destruct : State world unit := QFile.close.

(** [File::open(fileName, mode)]. *)
Definition open (fileName : string) (mode : Z) : State world ErrorCode.t :=
  fs ← sgets fst;
  if negb (FS.cdUp fs fileName) then mret FilePathNotExist else
  match OpenMode.of_value mode with
  | None => mret InvalidMode
  | Some m =>
    smodify (fun w => (w.1, QFile.setFileName fileName w.2));;
    ok ← QFile.open (ioMode m);
    mret (if ok : bool then NoError else FailOpenFile)
  end.

(** [File::close()]. *)
Definition close : State world unit := QFile.close.

(** [File::read()]: a [QTextStream] on the file, [readAll]. *)
Definition read : State world (list Z) := QFile.ts_read_all.

(** [File::write(text)]: a [QTextStream] on the file, [<< text]. *)
Definition write (text : list Z) : State world unit := QFile.ts_write text.

(** [File::seek(pos)]: the result of [QFile::seek] is dropped. *)
Definition seek (pos : Z) : State world unit := _ ← QFile.seek pos; mret tt.

(** [File::tell()]: [m_file->pos()]. *)
Definition tell : State world Z := sgets (fun w => QFile.pos w.2).

(** ** The flags Qt acts on

    [QFile::open] adds [WriteOnly] to [Append], and the file engine adds
    [Truncate] to a [WriteOnly] without [ReadOnly] or [Append]: what a mask
    does is described by four flags. *)
Record flags := mkflags { readable : bool; writable : bool; appends : bool; truncates : bool }.

Definition effective (mask : Z) : flags :=
  let m := if has mask Append then Z.lor mask WriteOnly else mask in
  mkflags (has m ReadOnly) (has m WriteOnly) (has m Append) (QFile.truncates m).

(** The flags of each mode as Qt applies them. *)
Definition qt_flags (m : OpenMode.t) : flags :=
  match m with
  | OpenMode.read => mkflags true false false false
  | OpenMode.write => mkflags false true false true
  | OpenMode.append => mkflags false true true false
  | OpenMode.readplus => mkflags true true false false
  | OpenMode.writeplus => mkflags true true false true
  | OpenMode.appendplus => mkflags true true true false
  end.

(** ** [open] *)

(** C3: [open] checks the parent directory first: when [QDir::cdUp]
    fails it returns [FilePathNotExist] and changes nothing, whatever the
    mode, even one outside the enumeration. *)
Theorem open_parent_missing name v fs f :
  FS.cdUp fs name = false ->
  open name v (fs, f) = (FilePathNotExist, (fs, f)).
Proof. intros H. unfold open; unfold_state. rewrite H. reflexivity. Qed.

(** C4: With the parent directory present, a mode value outside the
    enumeration gives [InvalidMode] before any attempt to open, and
    changes nothing. *)
Theorem open_invalid_mode name v fs f :
  FS.cdUp fs name = true -> OpenMode.of_value v = None ->
  open name v (fs, f) = (InvalidMode, (fs, f)).
Proof. intros H Hv. unfold open; unfold_state. rewrite H, Hv. reflexivity. Qed.

(** [open] as the three outcomes of its checks. *)
Lemma open_eq name v fs f :
  open name v (fs, f) =
  if negb (FS.cdUp fs name) then (FilePathNotExist, (fs, f)) else
  match OpenMode.of_value v with
  | None => (InvalidMode, (fs, f))
  | Some m =>
    let '(ok, w) := QFile.open (ioMode m) (fs, QFile.setFileName name f) in
    (if ok then NoError else FailOpenFile, w)
  end.
Proof.
  unfold open; unfold_state. destruct (FS.cdUp fs name); [|reflexivity].
  destruct (OpenMode.of_value v) as [m|]; [|reflexivity]. simpl.
  destruct (QFile.open (ioMode m) (fs, QFile.setFileName name f)) as [[] w]; reflexivity.
Qed.

(** [open] past its two checks is [QFile::open] of the mask, after
    [setFileName]. *)
Lemma open_unfold name v m fs f :
  FS.cdUp fs name = true -> OpenMode.of_value v = Some m ->
  open name v (fs, f) =
  let '(ok, w) := QFile.open (ioMode m) (fs, QFile.setFileName name f) in
  (if ok then NoError else FailOpenFile, w).
Proof. intros H Hv. rewrite open_eq, H, Hv. reflexivity. Qed.

(** A failed [open] of a closed handle leaves the file system as it was
    and the handle closed. *)
Lemma open_error_state name v fs f :
  QFile.isOpen f = false -> (open name v (fs, f)).1 <> NoError ->
  exists f', (open name v (fs, f)).2 = (fs, f') /\ QFile.isOpen f' = false.
Proof.
  intros Hc Herr.
  destruct (FS.cdUp fs name) eqn:Hp; [|rewrite open_eq, Hp; simpl; eauto].
  destruct (OpenMode.of_value v) as [m|] eqn:Hv; [|rewrite open_eq, Hp, Hv; simpl; eauto].
  rewrite (open_unfold _ _ m) in Herr |- * by done.
  destruct (QFile.open _ _) as [[] w] eqn:E; [done|].
  apply QFile.qopen_false in E as ->. exists (QFile.setFileName name f).
  split; [done|]. unfold QFile.setFileName. by rewrite Hc.
Qed.

(** C5: The mask built by the [switch] of [open], once Qt has completed
    it, reads, writes, appends and truncates as [qt_flags] says. *)
Theorem ioMode_effective m : effective (ioMode m) = qt_flags m.
Proof. destruct m; reflexivity. Qed.

(** [open] of a closed file in a valid mode, when the parent directory
    exists and the kernel lets the file be opened: the file is emptied if
    the mode truncates or the file was missing (it is then created), the
    [QFile] is open on it with the completed mask, and it starts at the
    end in an appending mode and at 0 otherwise. *)
Lemma open_success name v m fs f p :
  FS.cdUp fs name = true -> OpenMode.of_value v = Some m -> QFile.isOpen f = false ->
  QFile.can_open fs name (writable (qt_flags m)) p ->
  let c := if truncates (qt_flags m) then [] else QFile.contents fs p in
  open name v (fs, f) =
  (NoError, (QFile.set_contents fs p c,
             QFile.mk name (QFile.adjust (ioMode m))
               (if appends (qt_flags m) then Z.of_nat (length c) else 0) p)).
Proof.
  intros H Hv Hc Ho. rewrite (open_unfold _ _ m) by assumption.
  assert (Hf : QFile.fileName (QFile.setFileName name f) = name)
    by (unfold QFile.setFileName; by rewrite Hc).
  assert (Hc' : QFile.isOpen (QFile.setFileName name f) = false)
    by (unfold QFile.setFileName; by rewrite Hc).
  rewrite (QFile.qopen_ok _ _ _ p); [| done | destruct m; discriminate | rewrite Hf; destruct m; exact Ho].
  rewrite Hf. destruct m; reflexivity.
Qed.

(** [open] of a closed file in a valid mode that the kernel refuses. *)
Lemma open_failure name v m fs f :
  FS.cdUp fs name = true -> OpenMode.of_value v = Some m -> QFile.isOpen f = false ->
  (forall p, ~ QFile.can_open fs name (writable (qt_flags m)) p) ->
  open name v (fs, f) = (FailOpenFile, (fs, QFile.setFileName name f)).
Proof.
  intros H Hv Hc Hno. rewrite (open_unfold _ _ m) by assumption.
  rewrite QFile.qopen_fail; [reflexivity|].
  unfold QFile.setFileName. rewrite Hc. simpl. destruct m; exact Hno.
Qed.


(** With the value 42, which is no [OpenMode], under a missing directory:
    the result is [FilePathNotExist], not [InvalidMode]. *)
Lemma open_parent_missing_witness :
  FS.cdUp FS.sample "missing/x.json" = false /\
  open "missing/x.json" 42 (FS.sample, construct) = (FilePathNotExist, (FS.sample, construct)).
Proof.
  split; [vm_compute; reflexivity|].
  apply open_parent_missing. vm_compute. reflexivity.
Defined.


Lemma open_invalid_mode_witness :
  FS.cdUp FS.sample "a.txt" = true /\ OpenMode.of_value 42 = None /\
  open "a.txt" 42 (FS.sample, construct) = (InvalidMode, (FS.sample, construct)).
Proof.
  split_and!; [vm_compute; reflexivity|reflexivity|].
  apply open_invalid_mode; [vm_compute|]; reflexivity.
Defined.

(** C6: [open] of a closed file in a valid mode, when the parent directory
    exists and the kernel lets the file be opened, succeeds: the file is
    emptied if the mode truncates or the file was missing (it is then
    created), the [QFile] is open on it with the completed mask, and it
    starts at the end in an appending mode and at 0 otherwise. *)
Theorem open_ok name v m fs f p :
  FS.cdUp fs name = true -> OpenMode.of_value v = Some m -> QFile.isOpen f = false ->
  QFile.can_open fs name (writable (qt_flags m)) p ->
  let c := if truncates (qt_flags m) then [] else QFile.contents fs p in
  open name v (fs, f) =
  (NoError, (QFile.set_contents fs p c,
             QFile.mk name (QFile.adjust (ioMode m))
               (if appends (qt_flags m) then Z.of_nat (length c) else 0) p)).
Proof. apply open_success. Qed.

(** [append] (2) on the existing [a.txt] starts at its end, 4. *)
Lemma open_ok_witness :
  FS.cdUp FS.sample "a.txt" = true /\ OpenMode.of_value 2 = Some OpenMode.append /\
  QFile.isOpen construct = false /\ QFile.can_open FS.sample "a.txt" true ["home"; "a.txt"] /\
  open "a.txt" 2 (FS.sample, construct) =
  (NoError, (FS.sample, QFile.mk "a.txt" (Z.lor Text (Z.lor Append WriteOnly)) 4 ["home"; "a.txt"])).
Proof.
  assert (Ho : QFile.can_open FS.sample "a.txt" true ["home"; "a.txt"]) by QFile.solve_can_open.
  split_and!; [vm_compute; reflexivity|reflexivity|reflexivity|exact Ho|].
  refine (eq_trans (open_ok "a.txt" 2 OpenMode.append FS.sample construct _ _ _ _ Ho) _);
    [vm_compute; reflexivity..].
Defined.

(** C8: [open] of a closed file in a valid mode fails with [FailOpenFile]
    when the kernel refuses the file (a missing file in a read-only mode,
    a directory, a denied path, an unresolvable path); only the [QFile]'s
    name changes. *)
Theorem open_fail name v m fs f :
  FS.cdUp fs name = true -> OpenMode.of_value v = Some m -> QFile.isOpen f = false ->
  (forall p, ~ QFile.can_open fs name (writable (qt_flags m)) p) ->
  open name v (fs, f) = (FailOpenFile, (fs, QFile.setFileName name f)).
Proof. apply open_failure. Qed.

Lemma open_fail_witness :
  FS.cdUp FS.sample "secret.txt" = true /\ OpenMode.of_value 0 = Some OpenMode.read /\
  QFile.isOpen construct = false /\
  (forall p, ~ QFile.can_open FS.sample "secret.txt" false p) /\
  open "secret.txt" 0 (FS.sample, construct) =
  (FailOpenFile, (FS.sample, QFile.setFileName "secret.txt" construct)).
Proof.
  assert (Hno : forall p, ~ QFile.can_open FS.sample "secret.txt" false p).
  { intros p (_ & dir & n & Hr & -> & _ & Hden & _). vm_compute in Hr.
    injection Hr as <- <-. apply Hden. decide_by_compute. }
  split_and!; [vm_compute; reflexivity|reflexivity|reflexivity|exact Hno|].
  apply (open_fail _ _ OpenMode.read); [vm_compute; reflexivity|reflexivity|reflexivity|exact Hno].
Defined.


Lemma of_value_value m : OpenMode.of_value (OpenMode.value m) = Some m.
Proof. by destruct m. Qed.

(** C7: an [open] that succeeds on an existing file empties it exactly in
    the modes [write] and [writeplus]; the other four keep its contents.
    The table of the specification gives [truncate-on-open] to
    [writeplus] only. *)
Theorem open_truncates name m fs f p :
  FS.cdUp fs name = true -> QFile.isOpen f = false ->
  QFile.can_open fs name (writable (qt_flags m)) p ->
  QFile.contents (open name (OpenMode.value m) (fs, f)).2.1 p =
  if bool_decide (m = OpenMode.write \/ m = OpenMode.writeplus) then [] else QFile.contents fs p.
Proof.
  intros Hc Hf Ho. rewrite (open_success name _ m fs f p Hc (of_value_value m) Hf Ho). simpl.
  autorewrite with jnc_rw.
  destruct m; reflexivity.
Qed.

(** [a.txt] opened in [write] mode (1) is emptied. *)
Lemma open_truncates_witness :
  FS.cdUp FS.sample "a.txt" = true /\ QFile.isOpen construct = false /\
  QFile.can_open FS.sample "a.txt" true ["home"; "a.txt"] /\
  QFile.contents (open "a.txt" 1 (FS.sample, construct)).2.1 ["home"; "a.txt"] = [].
Proof.
  assert (Ho : QFile.can_open FS.sample "a.txt" true ["home"; "a.txt"]) by QFile.solve_can_open.
  split_and!; [vm_compute; reflexivity|reflexivity|exact Ho|].
  exact (open_truncates "a.txt" OpenMode.write FS.sample construct ["home"; "a.txt"]
           ltac:(vm_compute; reflexivity) eq_refl Ho).
Defined.

(** An [open] in a valid mode under an existing directory first releases
    an open [QFile]: [setFileName] closes it. *)
Lemma open_release name v m fs f :
  FS.cdUp fs name = true -> OpenMode.of_value v = Some m -> QFile.isOpen f = true ->
  open name v (fs, f) = open name v (fs, QFile.mk (QFile.fileName f) NotOpen 0 (QFile.path f)).
Proof.
  intros H Hv Ho. rewrite !(open_unfold _ _ m) by assumption.
  unfold QFile.setFileName. rewrite Ho. reflexivity.
Qed.

(** C15: A second [open] without [close], in a valid mode and under an
    existing directory, first closes the file the handle is open on:
    [setFileName] on an open [QFile] closes it.  The call is then the
    [open] of the closed handle, so it returns [NoError] on the new file
    when that one opens, and otherwise leaves the handle closed, the
    first file released. *)
Theorem open_twice name v m fs f :
  FS.cdUp fs name = true -> OpenMode.of_value v = Some m ->
  open name v (fs, f) = open name v (close (fs, f)).2.
Proof.
  intros H Hv. unfold close, QFile.close. cbn. destruct (QFile.isOpen f) eqn:Ho; [|reflexivity].
  by apply (open_release _ _ m).
Qed.

(** [a.txt] open for reading: [open] of [e.txt] releases it and opens
    [e.txt]; [open] of the denied [secret.txt] releases it and fails. *)
Lemma open_twice_witness :
  let f := QFile.mk "a.txt" (ioMode OpenMode.read) 0 ["home"; "a.txt"] in
  FS.cdUp FS.sample "e.txt" = true /\ OpenMode.of_value 0 = Some OpenMode.read /\
  open "e.txt" 0 (FS.sample, f) = open "e.txt" 0 (close (FS.sample, f)).2 /\
  (open "e.txt" 0 (FS.sample, f)).1 = NoError /\
  QFile.path (open "e.txt" 0 (FS.sample, f)).2.2 = ["home"; "e.txt"] /\
  (open "secret.txt" 0 (FS.sample, f)).1 = FailOpenFile /\
  QFile.isOpen (open "secret.txt" 0 (FS.sample, f)).2.2 = false.
Proof.
  intros f. assert (Hc : FS.cdUp FS.sample "e.txt" = true) by (vm_compute; reflexivity).
  split_and!; [exact Hc|reflexivity| |vm_compute; reflexivity..].
  exact (open_twice "e.txt" 0 OpenMode.read FS.sample f Hc eq_refl).
Defined.


(** ** [close], [seek], [tell] *)

(** C16: [close] of a well-formed handle leaves it closed at position 0,
    does not touch the file system, and a second [close] changes nothing. *)
Theorem close_spec fs f :
  QFile.wf fs f ->
  exists f', close (fs, f) = (tt, (fs, f')) /\ QFile.isOpen f' = false /\
             QFile.pos f' = 0 /\ close (fs, f') = (tt, (fs, f')).
Proof.
  unfold QFile.wf, close, QFile.close. intros Hwf. destruct (QFile.isOpen f) eqn:Ho.
  - eexists. split; [reflexivity|]. unfold QFile.isOpen. simpl. auto.
  - exists f. simpl. rewrite Ho. auto.
Qed.

Lemma close_spec_witness :
  QFile.wf FS.sample (QFile.mk "a.txt" (ioMode OpenMode.read) 3 ["home"; "a.txt"]) /\
  exists f', close (FS.sample, QFile.mk "a.txt" (ioMode OpenMode.read) 3 ["home"; "a.txt"]) =
               (tt, (FS.sample, f')) /\ QFile.isOpen f' = false /\
             QFile.pos f' = 0 /\ close (FS.sample, f') = (tt, (FS.sample, f')).
Proof.
  assert (Hwf : QFile.wf FS.sample (QFile.mk "a.txt" (ioMode OpenMode.read) 3 ["home"; "a.txt"])).
  { split_and!; [discriminate|cbn; lia|decide_by_compute]. }
  split; [exact Hwf|]. exact (close_spec _ _ Hwf).
Defined.


(** C11: [tell] after [seek n] is [n] when the file is open and [n] is not
    negative; otherwise [seek] does nothing and [tell] is the old
    position.  [seek] never touches the file system. *)
Theorem seek_tell n fs f :
  (seek n;; tell) (fs, f) =
  (if QFile.isOpen f && (0 <=? n) then n else QFile.pos f,
   (fs, if QFile.isOpen f && (0 <=? n)
        then QFile.mk (QFile.fileName f) (QFile.openMode f) n (QFile.path f) else f)).
Proof.
  unfold seek, tell; unfold_state. destruct (QFile.isOpen f); [|reflexivity]. simpl.
  destruct (Z.ltb_spec n 0); destruct (Z.leb_spec 0 n); try lia; reflexivity.
Qed.

(** ** [write] *)

(** C10: On a handle opened with [Append] (modes [append] and [appendplus]),
    [write] adds the UTF-8 encoding of the text at the end of the file,
    whatever [seek] did before. *)
Theorem write_appends n text fs f :
  QFile.isOpen f = true -> has (QFile.openMode f) Append = true ->
  has (QFile.openMode f) WriteOnly = true ->
  let '(_, (fs', _)) := (seek n;; write text) (fs, f) in
  QFile.contents fs' (QFile.path f) = QFile.contents fs (QFile.path f) ++ Utf8.encode text.
Proof.
  intros Ho Ha Hw. unfold seek, write, QFile.ts_write; unfold_state. rewrite Ho.
  destruct text as [|c text]; [simpl; rewrite app_nil_r; by destruct (n <? 0)|].
  destruct (n <? 0); simpl; rewrite Hw, Ha; simpl;
    autorewrite with jnc_rw; reflexivity.
Qed.

(** [a.txt] open in [append] mode at its start: ["x"] goes to the end. *)
Lemma write_appends_witness :
  let f := QFile.mk "a.txt" (QFile.adjust (ioMode OpenMode.append)) 0 ["home"; "a.txt"] in
  QFile.isOpen f = true /\ has (QFile.openMode f) Append = true /\
  has (QFile.openMode f) WriteOnly = true /\
  let '(_, (fs', _)) := (seek 0;; write [120]) (FS.sample, f) in
  QFile.contents fs' ["home"; "a.txt"] = [97; 13; 10; 98; 120].
Proof.
  intros f. split_and!; [reflexivity..|].
  exact (write_appends 0 [120] FS.sample f eq_refl eq_refl eq_refl).
Defined.


(** C18: in an appending mode, [tell] after [seek n] and [write] of a
    non-empty text is [n] plus the length of the text's encoding, although
    the text went to the end of the file: the position no longer says
    where the next byte goes. *)
Theorem append_tell n text fs f :
  QFile.isOpen f = true -> has (QFile.openMode f) Append = true ->
  has (QFile.openMode f) WriteOnly = true -> 0 <= n -> text <> [] ->
  fst ((seek n;; write text;; tell) (fs, f)) = n + Z.of_nat (length (Utf8.encode text)).
Proof.
  intros Ho Ha Hw Hn Hne. unfold seek, write, tell, QFile.ts_write; unfold_state. rewrite Ho.
  destruct (Z.ltb_spec n 0); [lia|]. destruct text as [|c text]; [done|].
  simpl. rewrite Hw. reflexivity.
Qed.

(** [a.txt] (4 bytes) open for appending: after [seek 0] and [write "x"],
    [tell] is 1 while the file has 5 bytes. *)
Lemma append_tell_witness :
  let f := QFile.mk "a.txt" (QFile.adjust (ioMode OpenMode.append)) 4 ["home"; "a.txt"] in
  QFile.isOpen f = true /\ has (QFile.openMode f) Append = true /\
  has (QFile.openMode f) WriteOnly = true /\ 0 <= 0 /\ [120] <> [] /\
  fst ((seek 0;; write [120];; tell) (FS.sample, f)) = 1 /\
  length (QFile.contents ((seek 0;; write [120];; tell) (FS.sample, f)).2.1 ["home"; "a.txt"]) = 5%nat.
Proof.
  intros f. split_and!; [reflexivity|reflexivity|reflexivity|lia|discriminate| |vm_compute; reflexivity].
  exact (append_tell 0 [120] FS.sample f eq_refl eq_refl eq_refl ltac:(lia) ltac:(discriminate)).
Defined.

(** C19: On a handle opened without [Append], [write] of a non-empty text puts
    its encoding at the position, over what was there, filling any gap
    past the end with zero bytes, and advances the position. *)
Theorem write_overwrites text fs f :
  has (QFile.openMode f) WriteOnly = true -> has (QFile.openMode f) Append = false ->
  text <> [] ->
  let data := Utf8.encode text in
  let '(_, (fs', f')) := write text (fs, f) in
  QFile.contents fs' (QFile.path f) =
    QFile.write_at (Z.to_nat (QFile.pos f)) data (QFile.contents fs (QFile.path f)) /\
  QFile.pos f' = QFile.pos f + Z.of_nat (length data).
Proof.
  intros Hw Ha Hne. unfold write, QFile.ts_write.
  destruct text as [|c text]; [done|].
  rewrite QFile.qwrite_ok by exact Hw. rewrite Ha. simpl.
  autorewrite with jnc_rw; auto.
Qed.

(** [a.txt] open in [readplus] mode at offset 1: ["x"] replaces the
    carriage return. *)
Lemma write_overwrites_witness :
  let f := QFile.mk "a.txt" (QFile.adjust (ioMode OpenMode.readplus)) 1 ["home"; "a.txt"] in
  has (QFile.openMode f) WriteOnly = true /\ has (QFile.openMode f) Append = false /\
  [120] <> [] /\
  let '(_, (fs', f')) := write [120] (FS.sample, f) in
  QFile.contents fs' ["home"; "a.txt"] = [97; 120; 10; 98] /\ QFile.pos f' = 2.
Proof.
  intros f. split_and!; [reflexivity|reflexivity|discriminate|].
  exact (write_overwrites [120] FS.sample f eq_refl eq_refl ltac:(discriminate)).
Defined.


(** ** [read] *)

(** [read] on a readable handle: the text decoded from the bytes between
    the position and the end, from which [Text] mode then removes the
    carriage returns; the position moves past the bytes. *)
Lemma read_ok fs f :
  has (QFile.openMode f) ReadOnly = true ->
  let data := drop (Z.to_nat (QFile.pos f)) (QFile.contents fs (QFile.path f)) in
  read (fs, f) =
  (let s := Utf8.decode_stream data in if has (QFile.openMode f) Text then QFile.drop_cr s else s,
   (fs, QFile.mk (QFile.fileName f) (QFile.openMode f)
          (QFile.pos f + Z.of_nat (length data)) (QFile.path f))).
Proof.
  intros Hr. unfold read, QFile.ts_read_all. rewrite QFile.qread_all_ok by exact Hr. reflexivity.
Qed.

(** C9: What is written through a handle opened in [writeplus] mode is
    read back after [seek(0)], for a text of scalar values without a
    carriage return and not starting with a byte-order mark. *)
Theorem write_seek_read name v fs f p s :
  FS.cdUp fs name = true -> OpenMode.of_value v = Some OpenMode.writeplus ->
  QFile.isOpen f = false -> QFile.can_open fs name true p ->
  Utf8.scalars s = true -> ~ In 13 s -> head s <> Some Utf8.bom ->
  fst ((_ ← open name v; write s;; seek 0;; read) (fs, f)) = s.
Proof.
  intros H Hv Hc Ho Hs Hcr Hbom. unfold mbind at 1, state_bind at 1.
  rewrite (open_success _ _ OpenMode.writeplus _ _ p) by assumption. simpl.
  unfold mbind, state_bind, write, seek, QFile.ts_write.
  destruct s as [|c s'].
  { unfold mret, state_ret. simpl. by autorewrite with jnc_rw. }
  rewrite QFile.qwrite_ok by reflexivity. simpl.
  autorewrite with jnc_rw.
  change (Z.to_nat 0) with 0%nat.
  rewrite QFile.write_at_nil, drop_0, <- Utf8.encode_cons. by apply QFile.text_read_back.
Qed.

Lemma write_seek_read_witness :
  FS.cdUp FS.sample "new.txt" = true /\ OpenMode.of_value 4 = Some OpenMode.writeplus /\
  QFile.isOpen construct = false /\ QFile.can_open FS.sample "new.txt" true ["home"; "new.txt"] /\
  Utf8.scalars [104; 0xE9] = true /\ ~ In 13 [104; 0xE9] /\ head [104; 0xE9] <> Some Utf8.bom /\
  fst ((_ ← open "new.txt" 4; write [104; 0xE9];; seek 0;; read) (FS.sample, construct)) =
  [104; 0xE9].
Proof.
  assert (Ho : QFile.can_open FS.sample "new.txt" true ["home"; "new.txt"]) by QFile.solve_can_open.
  assert (Hcr : ~ In 13 [104; 0xE9]) by (simpl; lia).
  split_and!; [vm_compute; reflexivity|reflexivity|reflexivity|exact Ho|reflexivity|exact Hcr
              |discriminate|].
  apply (write_seek_read "new.txt" 4 FS.sample construct ["home"; "new.txt"] [104; 0xE9]
           ltac:(vm_compute; reflexivity) eq_refl eq_refl Ho eq_refl Hcr).
  discriminate.
Defined.


(** C17: [read] right after a successful [open] in [read] mode returns the
    whole file decoded from UTF-8, a leading byte-order mark skipped, and
    then every carriage return removed because of [Text] mode: a file
    written with CRLF line ends reads back with LF ones. *)
Theorem open_read name v fs f p :
  FS.cdUp fs name = true -> OpenMode.of_value v = Some OpenMode.read ->
  QFile.isOpen f = false -> QFile.can_open fs name false p ->
  fst ((_ ← open name v; read) (fs, f)) =
  QFile.drop_cr (Utf8.decode_stream (QFile.contents fs p)).
Proof.
  intros H Hv Hc Ho. unfold mbind at 1, state_bind at 1.
  rewrite (open_success _ _ OpenMode.read _ _ p) by assumption. simpl.
  by autorewrite with jnc_rw.
Qed.

(** [a.txt] holds ["a\r\nb"]; [read] returns ["a\nb"]. *)
Lemma open_read_witness :
  FS.cdUp FS.sample "a.txt" = true /\ OpenMode.of_value 0 = Some OpenMode.read /\
  QFile.isOpen construct = false /\ QFile.can_open FS.sample "a.txt" false ["home"; "a.txt"] /\
  fst ((_ ← open "a.txt" 0; read) (FS.sample, construct)) = [97; 10; 98].
Proof.
  assert (Ho : QFile.can_open FS.sample "a.txt" false ["home"; "a.txt"]) by QFile.solve_can_open.
  split_and!; [vm_compute; reflexivity|reflexivity|reflexivity|exact Ho|].
  rewrite (open_read "a.txt" 0 FS.sample construct ["home"; "a.txt"] ltac:(vm_compute; reflexivity) eq_refl eq_refl Ho).
  vm_compute. reflexivity.
Defined.


(** ** The invariant and the reachable states *)

(** The file system and the handle are well formed. *)
Definition inv (w : world) : Prop := FS.wf w.1 /\ QFile.wf w.1 w.2.

Lemma setFileName_wf fs name f : QFile.wf fs f -> QFile.wf fs (QFile.setFileName name f).
Proof.
  intros Hf. unfold QFile.setFileName. destruct (QFile.isOpen f) eqn:E; [reflexivity|].
  unfold QFile.wf, QFile.isOpen in *. simpl. rewrite E in *. exact Hf.
Qed.

Lemma open_inv name v w : inv w -> inv (open name v w).2.
Proof.
  destruct w as [fs f]. intros [Hfs Hf].
  destruct (FS.cdUp fs name) eqn:Hc; [|rewrite open_eq, Hc; by split].
  destruct (OpenMode.of_value v) as [m|] eqn:Hv; [|rewrite open_eq, Hc, Hv; by split].
  rewrite (open_unfold _ _ m) by done.
  pose proof (QFile.qopen_wf (ioMode m) fs _ Hfs (setFileName_wf fs name f Hf)) as H.
  destruct (QFile.open _ _) as [ok [fs' f']]. exact H.
Qed.

Lemma close_inv w : inv w -> inv (close w).2.
Proof.
  destruct w as [fs f]. intros [Hfs Hf]. pose proof (QFile.qclose_wf fs f Hf) as H.
  unfold close. destruct (QFile.close _) as [u [fs' f']]. destruct H as [-> ?]. by split.
Qed.

Lemma read_inv w : inv w -> inv (read w).2.
Proof.
  destruct w as [fs f]. intros [Hfs Hf]. pose proof (QFile.qread_all_wf fs f Hf) as H.
  unfold read, QFile.ts_read_all; unfold_state_lazy.
  destruct (QFile.read_all _) as [bs [fs' f']]. destruct H as [-> ?]. by split.
Qed.

Lemma write_inv text w : Utf8.scalars text = true -> inv w -> inv (write text w).2.
Proof.
  destruct w as [fs f]. intros Hs [Hfs Hf]. unfold write, QFile.ts_write.
  destruct text as [|c text]; [by split|].
  pose proof (QFile.qwrite_wf (Utf8.encode (c :: text)) fs f Hfs Hf
                (Utf8.encode_bytes_ok _ Hs)) as H.
  destruct (QFile.write _ _) as [u [fs' f']]. exact H.
Qed.

Lemma seek_inv n w : inv w -> inv (seek n w).2.
Proof.
  destruct w as [fs f]. intros [Hfs Hf]. pose proof (QFile.qseek_wf n fs f Hf) as H.
  unfold seek; unfold_state_lazy.
  destruct (QFile.seek _ _) as [b [fs' f']]. destruct H as [-> ?]. by split.
Qed.

(** One call of a [File] method on the handle ([destruct], the
    destructor, is [close]).  [write] takes a [QString], a sequence of
    scalar values. *)
Inductive step : world -> world -> Prop :=
| step_open name v w : step w (open name v w).2
| step_close w : step w (close w).2
| step_read w : step w (read w).2
| step_write text w : Utf8.scalars text = true -> step w (write text w).2
| step_seek n w : step w (seek n w).2
| step_tell w : step w (tell w).2.

#[export] Hint Resolve open_inv close_inv read_inv write_inv seek_inv : jnc.

Lemma step_inv w w' : inv w -> step w w' -> inv w'.
Proof. intros Hw Hs. destruct Hs; eauto with jnc. Qed.

Lemma rtc_step_inv w w' : inv w -> rtc step w w' -> inv w'.
Proof. intros Hw Hr. induction Hr; eauto using step_inv. Qed.



(** ** What one call may change *)

Lemma open_touches name v w :
  QFile.touches_only w.1 (open name v w).2.1 (QFile.path (open name v w).2.2).
Proof.
  destruct w as [fs f]. rewrite open_eq.
  destruct (FS.cdUp fs name); cbn [negb]; [|apply QFile.touches_only_refl].
  destruct (OpenMode.of_value v) as [m|]; [|apply QFile.touches_only_refl].
  pose proof (QFile.qopen_touches (ioMode m) fs (QFile.setFileName name f)) as H.
  destruct (QFile.open _ _) as [ok [fs' f']]. exact H.
Qed.

Lemma close_touches w : QFile.touches_only w.1 (close w).2.1 (QFile.path (close w).2.2).
Proof.
  destruct w as [fs f]. unfold close, QFile.close. simpl.
  destruct (QFile.isOpen f); apply QFile.touches_only_refl.
Qed.

Lemma read_touches w : QFile.touches_only w.1 (read w).2.1 (QFile.path (read w).2.2).
Proof.
  destruct w as [fs f]. unfold read, QFile.ts_read_all; unfold_state_lazy. simpl.
  destruct (has (QFile.openMode f) ReadOnly); apply QFile.touches_only_refl.
Qed.

Lemma write_touches text w : QFile.touches_only w.1 (write text w).2.1 (QFile.path (write text w).2.2).
Proof.
  destruct w as [fs f]. unfold write, QFile.ts_write.
  destruct text as [|c t]; [apply QFile.touches_only_refl|].
  pose proof (QFile.qwrite_touches (Utf8.encode (c :: t)) fs f) as H.
  destruct (QFile.write _ _) as [u [fs' f']]. exact H.
Qed.

Lemma seek_touches n w : QFile.touches_only w.1 (seek n w).2.1 (QFile.path (seek n w).2.2).
Proof.
  destruct w as [fs f]. unfold seek; unfold_state_lazy. simpl.
  destruct (QFile.isOpen f); [destruct (n <? 0)|]; apply QFile.touches_only_refl.
Qed.

Lemma tell_touches w : QFile.touches_only w.1 (tell w).2.1 (QFile.path (tell w).2.2).
Proof. apply QFile.touches_only_refl. Qed.

#[export] Hint Resolve open_touches close_touches read_touches write_touches seek_touches
  tell_touches : jnc.



(** Every call, hence every sequence of calls, keeps the files there
    were and the directories. *)
Lemma step_grows w w' : step w w' -> QFile.grows w.1 w'.1.
Proof. intros Hs. destruct Hs; eapply QFile.touches_only_grows; eauto with jnc. Qed.

Lemma rtc_step_grows w w' : rtc step w w' -> QFile.grows w.1 w'.1.
Proof. intros Hr. induction Hr; [reflexivity|]. etrans; eauto using step_grows. Qed.

(** ** Open handles come from a successful [open]

    An open handle is one that [File::open] left after all its checks:
    its name passed [QDir::cdUp] (line 20), its mask carries [Text]
    (line 25), and it refers to the file the kernel resolves its name to
    (lines 50 and 51).  No other method changes the name, the mask or
    the file, and no call removes a directory, so this stays true. *)
Definition opened (w : world) : Prop :=
  QFile.isOpen w.2 = true ->
  FS.cdUp w.1 (QFile.fileName w.2) = true /\ has (QFile.openMode w.2) Text = true /\
  exists dir n, FS.resolve w.1 (QFile.fileName w.2) = Some (FS.TEntry dir n) /\
                QFile.path w.2 = dir ++ [n].

(** The name, the mask and the file of a handle. *)
Definition attrs (f : QFile.t) : string * Z * Path.abspath :=
  (QFile.fileName f, QFile.openMode f, QFile.path f).

Lemma opened_keep w w' : opened w -> QFile.grows w.1 w'.1 -> attrs w'.2 = attrs w.2 -> opened w'.
Proof.
  destruct w as [fs f], w' as [fs' f']. intros Ho (Hcwd & Hdirs & _) E Hopen. injection E as En Em Ep. cbn in *.
  unfold QFile.isOpen in Hopen. rewrite Em in Hopen.
  destruct (Ho Hopen) as (Hc & Ht & dir & n & Hr & Hp).
  rewrite En, Em, Ep, (FS.cdUp_ext _ fs), (FS.resolve_ext _ fs) by done. eauto 10.
Qed.

Lemma closed_opened w : QFile.isOpen w.2 = false -> opened w.
Proof. intros Hc Ho. congruence. Qed.

Lemma open_opened name v w : opened w -> opened (open name v w).2.
Proof.
  destruct w as [fs f]. intros Hw. rewrite open_eq.
  destruct (FS.cdUp fs name) eqn:Hc; cbv beta iota delta [negb]; [|exact Hw].
  destruct (OpenMode.of_value v) as [m|]; [|exact Hw].
  destruct (QFile.open (ioMode m) (fs, QFile.setFileName name f)) as [[] [fs' f']] eqn:E.
  - apply QFile.qopen_true in E as (Ee & Ef & Em). intros _. cbn [fst snd].
    assert (Hn : QFile.fileName (QFile.setFileName name f) = name)
      by (unfold QFile.setFileName; by destruct (QFile.isOpen f)).
    rewrite Ef, Hn. rewrite Hn in Ee.
    destruct (QFile.engine_open_can_open _ _ _ _ _ Ee) as (_ & dir & n & Hr & Hp & _).
    destruct (QFile.touches_only_grows _ _ _ (QFile.engine_open_touches _ _ _ _ _ Ee))
      as (Hcwd & Hdirs & _).
    rewrite (FS.cdUp_ext _ fs), (FS.resolve_ext _ fs) by done.
    split_and!; [exact Hc|rewrite Em; by destruct m|exists dir, n; auto].
  - apply QFile.qopen_false in E. injection E as -> ->. apply closed_opened.
    unfold QFile.setFileName. destruct (QFile.isOpen f) eqn:Ho; [reflexivity|exact Ho].
Qed.
Lemma close_opened w : opened w -> opened (close w).2.
Proof.
  destruct w as [fs f]. intros Hw. unfold close, QFile.close. cbn.
  destruct (QFile.isOpen f) eqn:Ho; cbn [snd]; [by apply closed_opened|exact Hw].
Qed.

(** [read], [write], [seek] and [tell] keep the name, the mask and the
    file. *)
Lemma read_attrs w : attrs (read w).2.2 = attrs w.2.
Proof.
  destruct w as [fs f]. unfold read, QFile.ts_read_all, QFile.read_all. cbn.
  by destruct (has _ ReadOnly).
Qed.

Lemma write_attrs text w : attrs (write text w).2.2 = attrs w.2.
Proof.
  destruct w as [fs f]. unfold write, QFile.ts_write. destruct text; [reflexivity|]. cbn.
  by destruct (has _ WriteOnly).
Qed.

Lemma seek_attrs n w : attrs (seek n w).2.2 = attrs w.2.
Proof.
  destruct w as [fs f]. unfold seek; unfold_state_lazy. cbn.
  destruct (QFile.isOpen f); [destruct (n <? 0)|]; reflexivity.
Qed.

Lemma step_opened w w' : opened w -> step w w' -> opened w'.
Proof.
  intros Hw Hs. pose proof (step_grows _ _ Hs) as Hg.
  destruct Hs; [by apply open_opened|by apply close_opened|..];
    eapply opened_keep; eauto using read_attrs, write_attrs, seek_attrs.
Qed.

Lemma rtc_step_opened w w' : opened w -> rtc step w w' -> opened w'.
Proof. intros Hw Hr. induction Hr; eauto using step_opened. Qed.

(** C12: from a well-formed file system and a new [File], every sequence
    of method calls keeps the file system and the handle well formed
    (directories and files in place, contents made of bytes; the handle
    closed at position 0, or open with an access mode at a position that
    is not negative on an existing file), and an open handle is always
    one a successful [open] left: its name passed the [cdUp] check, its
    mask has [Text], and it is open on the file its name resolves to. *)
Theorem reachable_inv fs w :
  FS.wf fs -> rtc step (fs, construct) w -> inv w /\ opened w.
Proof.
  intros Hfs Hr. split.
  - apply (rtc_step_inv (fs, construct)); [by split|exact Hr].
  - apply (rtc_step_opened (fs, construct)); [by apply closed_opened|exact Hr].
Qed.

(** [a.txt] opened for appending by way of [docs/..]. *)
Lemma reachable_inv_witness :
  let w := (open "docs/../a.txt" 2 (FS.sample, construct)).2 in
  FS.wf FS.sample /\ rtc step (FS.sample, construct) w /\ inv w /\ opened w /\
  QFile.isOpen w.2 = true.
Proof.
  intros w. assert (Hr : rtc step (FS.sample, construct) w) by (apply rtc_once; constructor).
  destruct (reachable_inv _ _ FS.sample_wf Hr) as [Hi Ho].
  split_and!; [exact FS.sample_wf|exact Hr|exact Hi|exact Ho|vm_compute; reflexivity].
Defined.

Lemma close_closed w : (close w).2.1 = w.1 /\ QFile.isOpen (close w).2.2 = false.
Proof.
  destruct w as [fs f]. unfold close, QFile.close. simpl.
  destruct (QFile.isOpen f) eqn:Ho; simpl; [|by rewrite Ho]. by split.
Qed.

(** ** Methods in sequence

    A computation on a [File] [reaches] its final world by method calls,
    and [keeps_fs] when it leaves the file system as it was; both pass
    through [;;] and [←], so they hold of the bodies of [Json::dump] and
    [Json::load] once they hold of each method. *)
Definition reaches {A} (c : State world A) : Prop := forall w, rtc step w (c w).2.
Definition keeps_fs {A} (c : State world A) : Prop := forall w, (c w).2.1 = w.1.

Lemma reaches_ret {A} (x : A) : reaches (mret x).
Proof. intros w. apply rtc_refl. Qed.

Lemma reaches_bind {A B} (c : State world A) (k : A -> State world B) :
  reaches c -> (forall x, reaches (k x)) -> reaches (x ← c; k x).
Proof. intros Hc Hk w. rewrite state_bind_run. etrans; [apply Hc|apply Hk]. Qed.

Lemma reaches_open name v : reaches (open name v).
Proof. intros w. apply rtc_once. constructor. Qed.
Lemma reaches_close : reaches close.
Proof. intros w. apply rtc_once. constructor. Qed.
Lemma reaches_read : reaches read.
Proof. intros w. apply rtc_once. constructor. Qed.
Lemma reaches_write text : Utf8.scalars text = true -> reaches (write text).
Proof. intros Hs w. apply rtc_once. by constructor. Qed.

Lemma keeps_fs_ret {A} (x : A) : keeps_fs (mret x).
Proof. done. Qed.

Lemma keeps_fs_bind {A B} (c : State world A) (k : A -> State world B) :
  keeps_fs c -> (forall x, keeps_fs (k x)) -> keeps_fs (x ← c; k x).
Proof. intros Hc Hk w. rewrite state_bind_run, Hk. apply Hc. Qed.

Lemma keeps_fs_close : keeps_fs close.
Proof.
  intros [fs f]. unfold close, QFile.close. simpl. by destruct (QFile.isOpen f).
Qed.

Lemma keeps_fs_read : keeps_fs read.
Proof.
  intros [fs f]. unfold read, QFile.ts_read_all; unfold_state_lazy. simpl.
  destruct (has (QFile.openMode f) ReadOnly); reflexivity.
Qed.

(** [open] in [read] mode: Qt's mask neither writes nor truncates, so
    the file system is left as it was, opened or not. *)
Lemma keeps_fs_open_read name : keeps_fs (open name (OpenMode.value OpenMode.read)).
Proof.
  intros [fs f]. rewrite open_eq. destruct (FS.cdUp fs name); [|reflexivity]. cbn -[QFile.open].
  unfold QFile.open. destruct (QFile.isOpen _); [reflexivity|]. cbv zeta.
  destruct (_ =? 0); [reflexivity|].
  destruct (QFile.engine_open _ _ _) as [[fs' p]|] eqn:E; [|reflexivity].
  by apply QFile.engine_open_readonly in E.
Qed.

#[global] Hint Resolve reaches_ret reaches_bind reaches_open reaches_close reaches_read
  keeps_fs_ret keeps_fs_bind keeps_fs_close keeps_fs_read keeps_fs_open_read : jnc.

(** Split a sequence of methods at its binds and its tests, and discharge
    each method by the lemmas above; what is left (the text given to
    [write] being scalar values) goes back to the caller. *)
Ltac seq_step :=
  match goal with
  | |- reaches (mbind _ _) => apply reaches_bind; [|intros ?]
  | |- keeps_fs (mbind _ _) => apply keeps_fs_bind; [|intros ?]
  | |- _ (if decide _ then _ else _) => case_decide
  end.
Ltac seq_solve := repeat first [seq_step | solve [eauto with jnc]].

(** ** Liveness: the handle can always be opened again *)

(** [P] holds now or after some calls. *)
Inductive eventually (P : world -> Prop) : world -> Prop :=
| ev_now w : P w -> eventually P w
| ev_step w w' : step w w' -> eventually P w' -> eventually P w.

#[export] Hint Constructors eventually : jnc.

(** C22: from any state of a [File], open or closed, calls reach a
    handle open on a file the kernel lets the process open: [close], then
    [open] in a valid mode.  A [File] is never stuck open on one file. *)
Theorem reopen_eventually name v m w p :
  FS.cdUp w.1 name = true -> OpenMode.of_value v = Some m ->
  QFile.can_open w.1 name (writable (qt_flags m)) p ->
  eventually (fun w' => QFile.isOpen w'.2 = true /\ QFile.path w'.2 = p /\ QFile.fileName w'.2 = name) w.
Proof.
  intros Hc Hv Ho. destruct (close_closed w) as [Efs Hcl].
  apply (ev_step _ _ (close w).2); [constructor|].
  apply (ev_step _ _ (open name v (close w).2).2); [constructor|]. apply ev_now.
  destruct (close w).2 as [fs f] eqn:E. simpl in Efs, Hcl. subst fs.
  rewrite (open_success name v m w.1 f p Hc Hv Hcl Ho). simpl. by destruct m.
Qed.

(** [a.txt] is open for reading; [e.txt] can be opened for writing after it. *)
Lemma reopen_eventually_witness :
  let w := (FS.sample, QFile.mk "a.txt" (ioMode OpenMode.read) 0 ["home"; "a.txt"]) in
  FS.cdUp w.1 "e.txt" = true /\ OpenMode.of_value 1 = Some OpenMode.write /\
  QFile.can_open w.1 "e.txt" true ["home"; "e.txt"] /\
  eventually (fun w' => QFile.isOpen w'.2 = true /\ QFile.path w'.2 = ["home"; "e.txt"] /\
                        QFile.fileName w'.2 = "e.txt") w.
Proof.
  intros w.
  assert (Hc : FS.cdUp w.1 "e.txt" = true) by (vm_compute; reflexivity).
  assert (Ho : QFile.can_open w.1 "e.txt" true ["home"; "e.txt"]) by QFile.solve_can_open.
  split_and!; [exact Hc|reflexivity|exact Ho|].
  exact (reopen_eventually "e.txt" 1 OpenMode.write w ["home"; "e.txt"] Hc eq_refl Ho).
Defined.

(** ** Bounds of the position *)



(** ** Names at the boundary *)

(** C30: the root and the empty name.  [open("/")] fails with
    [FilePathNotExist] whatever the mode and the file system, since
    [cdUp] of the root fails.  [open("")] passes [cdUp], [QDir] taking the
    empty name as the working directory, and [QFile::open] refuses it:
    [FailOpenFile] in a valid mode, [InvalidMode] otherwise, and the file
    system is unchanged. *)
Theorem open_boundary_names v fs f :
  FS.wf fs ->
  open "/" v (fs, f) = (FilePathNotExist, (fs, f)) /\
  (open "" v (fs, f)).1 =
    match OpenMode.of_value v with Some _ => FailOpenFile | None => InvalidMode end /\
  (open "" v (fs, f)).2.1 = fs.
Proof.
  intros Hwf. split; [by rewrite open_eq, FS.cdUp_root|].
  rewrite open_eq, (FS.cdUp_empty fs Hwf). cbn [negb].
  destruct (OpenMode.of_value v) as [m|]; [|done].
  unfold QFile.open, QFile.setFileName. destruct (QFile.isOpen f) eqn:Ho.
  - cbn. by destruct (_ =? 0).
  - change (QFile.isOpen (QFile.mk "" (QFile.openMode f) (QFile.pos f) (QFile.path f))) with (QFile.isOpen f).
    rewrite Ho. cbv zeta. by destruct (_ =? 0).
Qed.

Lemma open_boundary_names_witness :
  FS.wf FS.sample /\
  open "/" 0 (FS.sample, construct) = (FilePathNotExist, (FS.sample, construct)) /\
  (open "" 0 (FS.sample, construct)).1 = FailOpenFile /\
  (open "" 0 (FS.sample, construct)).2.1 = FS.sample.
Proof.
  destruct (open_boundary_names 0 FS.sample construct FS.sample_wf) as (H1 & H2 & H3).
  split_and!; [exact FS.sample_wf|exact H1|exact H2|exact H3].
Defined.

(** C31: [cdUp] cleans the name lexically, the kernel walks it: a name
    whose directory part does not resolve (a missing directory before a
    [..], as in [nodir/../a.txt]) passes the check of line 20 and fails
    with [FailOpenFile] in every valid mode, only the [QFile]'s name
    changing. *)
Theorem open_unresolved name v m fs f :
  FS.cdUp fs name = true -> OpenMode.of_value v = Some m -> QFile.isOpen f = false ->
  FS.resolve fs name = None ->
  open name v (fs, f) = (FailOpenFile, (fs, QFile.setFileName name f)).
Proof.
  intros Hc Hv Hf Hr. apply (open_failure _ _ m); [done..|].
  intros p (_ & dir & n & Hr' & _). congruence.
Qed.

(** [nodir/../a.txt] names [a.txt] for [QDir] but not for the kernel,
    while [docs/../a.txt] opens. *)
Lemma open_unresolved_witness :
  FS.cdUp FS.sample "nodir/../a.txt" = true /\ OpenMode.of_value 0 = Some OpenMode.read /\
  QFile.isOpen construct = false /\ FS.resolve FS.sample "nodir/../a.txt" = None /\
  open "nodir/../a.txt" 0 (FS.sample, construct) =
    (FailOpenFile, (FS.sample, QFile.setFileName "nodir/../a.txt" construct)) /\
  (open "docs/../a.txt" 0 (FS.sample, construct)).1 = NoError.
Proof.
  assert (Hc : FS.cdUp FS.sample "nodir/../a.txt" = true) by (vm_compute; reflexivity).
  assert (Hr : FS.resolve FS.sample "nodir/../a.txt" = None) by (vm_compute; reflexivity).
  split_and!; [exact Hc|reflexivity|reflexivity|exact Hr| |vm_compute; reflexivity].
  exact (open_unresolved "nodir/../a.txt" 0 OpenMode.read FS.sample construct Hc eq_refl eq_refl Hr).
Defined.

End File.
