(* ===== verification/FileSpec.v ===== *)
(** * The [FileHandle] contract and its refinement by [jnc::File]

    The [FileHandle] of the specification (its section 4.1) as an abstract
    machine: a file system and, when open, a handle made of the file it is
    open on, the four flags its mode stands for (readable, writable,
    append-on-write, truncate-on-open) and a cursor.  Its operations only
    look at the flags; the table from modes to flags is a parameter
    ([Section Table]).  The kernel's side of [open] is [open_target]: the
    file an open resolves to, or none when the kernel refuses.  As in
    Qt, whose [setFileName] closes an open file, an [open] that passes the
    directory and mode checks first releases the file the handle holds.

    [refines] relates a [File] (its [QFile] with Qt's bit masks) to an
    abstract state; every [File] method simulates the abstract operation
    of the same name under the table [File.qt_flags], and simulations
    compose through the monad's bind ([sim_bind]). *)

From S2P Require Import Prelude Utf8 FileSystem QFile File.
From stdpp Require Import base list gmap strings.
From Stdlib Require Import ZArith Lia.
Open Scope Z_scope.

Module FileHandle.
Import QIODevice OpenMode ErrorCode File.

Record handle := mkh { h_path : Path.abspath; h_flags : flags; h_pos : Z }.

Abbreviation state := (FS.t * option handle)%type.

(** The file an [open] reaches, when the kernel lets it be opened
    ([writes]: for writing, which may create it). *)
Definition open_target (fs : FS.t) (name : string) (writes : bool) : option Path.abspath :=
  if String.eqb name "" then None else
  match FS.resolve fs name with
  | Some (FS.TEntry dir n) =>
    let p := dir ++ [n] in
    if bool_decide (p ∈ FS.dirs fs) || bool_decide (p ∈ FS.denied fs) then None
    else if bool_decide (is_Some (FS.files fs !! p))
            || (writes && negb (bool_decide (dir ∈ FS.denied fs)))
    then Some p else None
  | _ => None
  end.


Section Table.
Variable table : OpenMode.t -> flags.

(** [open(path, mode)]: the parent directory, then the mode, then the
    kernel; past the two checks, a file the handle holds is released
    first, whether or not the new one opens. *)
Definition aopen (name : string) (v : Z) : State state ErrorCode.t := fun '(fs, h) =>
  if negb (FS.cdUp fs name) then (FilePathNotExist, (fs, h)) else
  match OpenMode.of_value v with
  | None => (InvalidMode, (fs, h))
  | Some m =>
    let fl := table m in
    match open_target fs name (writable fl) with
    | None => (FailOpenFile, (fs, None))
    | Some p =>
      let c := if truncates fl then [] else QFile.contents fs p in
      (NoError, (QFile.set_contents fs p c,
                 Some (mkh p fl (if appends fl then Z.of_nat (length c) else 0))))
    end
  end.

End Table.

Definition aclose : State state unit := fun '(fs, _) => (tt, (fs, None)).

(** [read()]: the text from the cursor to the end, line ends read in text
    mode; nothing when not open for reading. *)
Definition aread : State state (list Z) := fun '(fs, h) =>
  match h with
  | Some (mkh p fl n) =>
    if readable fl then
      let data := drop (Z.to_nat n) (QFile.contents fs p) in
      (QFile.drop_cr (Utf8.decode_stream data),
       (fs, Some (mkh p fl (n + Z.of_nat (length data)))))
    else ([], (fs, h))
  | None => ([], (fs, h))
  end.

(** [write(text)]: at the cursor, or at the end with append-on-write. *)
Definition awrite (text : list Z) : State state unit := fun '(fs, h) =>
  match h, text with
  | Some (mkh p fl n), _ :: _ =>
    if writable fl then
      let data := Utf8.encode text in
      let c := QFile.contents fs p in
      let c' := if appends fl then c ++ data else QFile.write_at (Z.to_nat n) data c in
      (tt, (QFile.set_contents fs p c', Some (mkh p fl (n + Z.of_nat (length data)))))
    else (tt, (fs, h))
  | _, _ => (tt, (fs, h))
  end.

(** [seek(offset)]: a negative offset is ignored. *)
Definition aseek (off : Z) : State state unit := fun '(fs, h) =>
  match h with
  | Some (mkh p fl _) => if off <? 0 then (tt, (fs, h)) else (tt, (fs, Some (mkh p fl off)))
  | None => (tt, (fs, h))
  end.

Definition atell : State state Z := fun '(fs, h) =>
  (match h with Some hd => h_pos hd | None => 0 end, (fs, h)).

(** ** The relation between a [File] and the abstract handle *)

(** What a completed Qt mask stands for. *)
Definition flags_of (mask : Z) : flags :=
  mkflags (has mask ReadOnly) (has mask WriteOnly) (has mask Append) (QFile.truncates mask).

Definition refines (w : File.world) (a : state) : Prop :=
  w.1 = a.1 /\
  match a.2 with
  | None => QFile.isOpen w.2 = false /\ QFile.pos w.2 = 0
  | Some (mkh p fl n) =>
    QFile.isOpen w.2 = true /\ QFile.path w.2 = p /\ QFile.pos w.2 = n /\
    flags_of (QFile.openMode w.2) = fl /\ has (QFile.openMode w.2) Text = true
  end.

(** A computation on [File]s simulates an abstract one: from related
    states, same result and related states. *)
Definition sim {A} (c : State File.world A) (s : State state A) : Prop :=
  forall w a, refines w a -> (c w).1 = (s a).1 /\ refines (c w).2 (s a).2.

(** ** Calls

    A call of a [File] method and what it returns; [run_file] is the
    method on a [File], [run_spec] the operation of the contract. *)
Inductive call :=
| Open (name : string) (mode : Z)
| Close
| Read
| Write (text : list Z)
| Seek (pos : Z)
| Tell.

Inductive result := RError (e : ErrorCode.t) | RNone | RText (s : list Z) | RPos (n : Z).

Definition run_file (c : call) : State File.world result :=
  match c with
  | Open name v => e ← File.open name v; mret (RError e)
  | Close => File.close;; mret RNone
  | Read => s ← File.read; mret (RText s)
  | Write text => File.write text;; mret RNone
  | Seek n => File.seek n;; mret RNone
  | Tell => n ← File.tell; mret (RPos n)
  end.

Definition run_spec (table : OpenMode.t -> flags) (c : call) : State state result :=
  match c with
  | Open name v => e ← aopen table name v; mret (RError e)
  | Close => aclose;; mret RNone
  | Read => s ← aread; mret (RText s)
  | Write text => awrite text;; mret RNone
  | Seek n => aseek n;; mret RNone
  | Tell => n ← atell; mret (RPos n)
  end.

(** A sequence of calls and the list of their results. *)
Fixpoint run_calls {S} (run : call -> State S result) (cs : list call) : State S (list result) :=
  match cs with
  | [] => mret []
  | c :: cs' => r ← run c; rs ← run_calls run cs'; mret (r :: rs)
  end.

(** ** The kernel's decision *)

Lemma open_target_some fs name w p :
  open_target fs name w = Some p -> QFile.can_open fs name w p.
Proof.
  unfold open_target. destruct (String.eqb_spec name "") as [|Hn]; [discriminate|].
  destruct (FS.resolve fs name) as [[d|dir n]|] eqn:Hr; try discriminate.
  case_bool_decide as Hd; [discriminate|]. case_bool_decide as Hden; [discriminate|]. simpl.
  case_bool_decide as He.
  - intros [= <-]. split; [done|]. exists dir, n. split_and!; [done..|by left].
  - destruct w; [|discriminate]. case_bool_decide as Hdd; [discriminate|]. intros [= <-].
    split; [done|]. exists dir, n. split_and!; [done..|by right].
Qed.

Lemma open_target_none fs name w :
  open_target fs name w = None -> forall p, ~ QFile.can_open fs name w p.
Proof.
  intros Hn p (Hne & dir & n & Hr & -> & Hd & Hden & Hex). revert Hn. unfold open_target.
  rewrite (proj2 (String.eqb_neq _ _) Hne), Hr, (bool_decide_eq_false_2 _ Hd),
    (bool_decide_eq_false_2 _ Hden). simpl.
  destruct Hex as [Hs|[-> Hdd]].
  - by rewrite (bool_decide_eq_true_2 _ Hs).
  - rewrite (bool_decide_eq_false_2 _ Hdd), orb_true_r. discriminate.
Qed.

(** ** Simulation *)

Lemma sim_ret {A} (x : A) : sim (mret x) (mret x).
Proof. intros w a Hr. by split. Qed.

Lemma sim_bind {A B} (c : State File.world A) (s : State state A)
      (k : A -> State File.world B) (k' : A -> State state B) :
  sim c s -> (forall x, sim (k x) (k' x)) -> sim (c ≫= k) (s ≫= k').
Proof.
  intros Hc Hk w a Hr. unfold mbind, state_bind.
  destruct (Hc w a Hr) as [E R1]. destruct (c w) as [x w'], (s a) as [y a']. simpl in *.
  subst y. by apply Hk.
Qed.

(** The start of every simulation proof: a [File] world [(fs, f)] and
    the abstract state [(fs, h)] it refines. *)
Ltac sim_intros :=
  let fs' := fresh "fs'" in let Efs := fresh "Efs" in
  intros [fs f] [fs' h] [Efs Hh]; simpl in Efs, Hh; subst fs'.

Lemma closed_mode f : QFile.isOpen f = false -> QFile.openMode f = NotOpen.
Proof. unfold QFile.isOpen. destruct (Z.eqb_spec (QFile.openMode f) NotOpen); done. Qed.

(** [open] on the two sides: same checks in the same order, and the
    kernel decides the same. *)
Lemma sim_open name v : sim (File.open name v) (aopen qt_flags name v).
Proof.
  sim_intros. unfold aopen. cbv beta iota.
  destruct (FS.cdUp fs name) eqn:Hc; [|rewrite File.open_eq, Hc; by split].
  destruct (OpenMode.of_value v) as [m|] eqn:Hv; [|rewrite File.open_eq, Hc, Hv; by split].
  cbn -[File.open].
  assert (Hf0 : exists f0, File.open name v (fs, f) = File.open name v (fs, f0) /\
                           QFile.isOpen f0 = false /\ QFile.pos f0 = 0).
  { destruct h as [[p fl n]|]; destruct Hh as [Ho Hh].
    - exists (QFile.mk (QFile.fileName f) NotOpen 0 (QFile.path f)).
      split_and!; [by apply (File.open_release _ _ m)|reflexivity|reflexivity].
    - by exists f. }
  destruct Hf0 as (f0 & -> & Hcl & Hpos).
  destruct (open_target fs name (writable (qt_flags m))) as [p|] eqn:Ht.
  - rewrite (File.open_success name v m fs f0 p Hc Hv Hcl (open_target_some _ _ _ _ Ht)).
    split; [done|]. unfold refines; cbn [fst snd].
    split_and!; first [reflexivity | destruct m; reflexivity].
  - rewrite (File.open_failure name v m fs f0 Hc Hv Hcl (open_target_none _ _ _ Ht)).
    simpl. unfold QFile.setFileName. rewrite Hcl. by split.
Qed.

Lemma sim_close : sim File.close aclose.
Proof.
  sim_intros. unfold File.close, QFile.close, aclose. cbv beta iota.
  destruct h as [[p fl n]|]; destruct Hh as [Ho Hh]; rewrite Ho; by split.
Qed.

Lemma sim_read : sim File.read aread.
Proof.
  sim_intros. unfold File.read, QFile.ts_read_all.
  destruct h as [[p fl n]|].
  - pose proof Hh as (Ho & <- & <- & <- & Ht). unfold aread. cbv beta iota. cbn [flags_of readable].
    destruct (has (QFile.openMode f) ReadOnly) eqn:Hr.
    + rewrite QFile.qread_all_ok by exact Hr. cbn [snd]. rewrite Ht. by split.
    + cbn. rewrite Hr. cbn. repeat case_match; by split.
  - destruct Hh as [Hc Hp]. simpl. rewrite (closed_mode f Hc). by split.
Qed.

Lemma sim_write text : sim (File.write text) (awrite text).
Proof.
  sim_intros. unfold File.write, QFile.ts_write, awrite.
  destruct text as [|c t]; [destruct h as [[]|]; by split|].
  destruct h as [[p fl n]|].
  - pose proof Hh as (Ho & <- & <- & <- & Ht). cbv beta iota. cbn [flags_of writable appends].
    destruct (has (QFile.openMode f) WriteOnly) eqn:Hw.
    + rewrite QFile.qwrite_ok by exact Hw. by split.
    + simpl. rewrite Hw. by split.
  - destruct Hh as [Hc Hp]. simpl. rewrite (closed_mode f Hc). by split.
Qed.

Lemma sim_seek n : sim (File.seek n) (aseek n).
Proof.
  sim_intros. unfold File.seek, aseek, mbind, state_bind, mret, state_ret. simpl.
  destruct h as [[p fl k]|].
  - pose proof Hh as (Ho & <- & <- & <- & Ht). rewrite Ho. simpl.
    destruct (n <? 0); by split.
  - destruct Hh as [Hc Hp]. rewrite Hc. by split.
Qed.

Lemma sim_tell : sim File.tell atell.
Proof.
  sim_intros. unfold File.tell, sgets, atell. split; [|by split].
  destruct h as [[p fl k]|]; simpl; [apply Hh|apply Hh].
Qed.

#[export] Hint Resolve sim_ret sim_open sim_close sim_read sim_write sim_seek sim_tell : jnc.

Lemma sim_call c : sim (run_file c) (run_spec qt_flags c).
Proof. destruct c; simpl; (apply sim_bind; [eauto with jnc|intros; apply sim_ret]). Qed.

Lemma sim_calls cs : sim (run_calls run_file cs) (run_calls (run_spec qt_flags) cs).
Proof.
  induction cs as [|c cs IH]; simpl; [apply sim_ret|].
  apply sim_bind; [apply sim_call|intros r]. apply sim_bind; [exact IH|intros rs]. apply sim_ret.
Qed.

(** From a new [File] and the closed abstract handle on the same file
    system, a simulation gives the same result and the same file system. *)
Lemma sim_run {A} (c : State File.world A) (s : State state A) fs :
  sim c s ->
  (c (fs, File.construct)).1 = (s (fs, None)).1 /\ (c (fs, File.construct)).2.1 = (s (fs, None)).2.1.
Proof.
  intros Hs. assert (H0 : refines (fs, File.construct) (fs, None)) by by split.
  destruct (Hs _ _ H0) as [E [Efs _]]. by split.
Qed.

Lemma sim_if {A} P (dec : {P} + {~ P}) (c1 c2 : State File.world A) (s1 s2 : State state A) :
  sim c1 s1 -> sim c2 s2 -> sim (if dec then c1 else c2) (if dec then s1 else s2).
Proof. by destruct dec. Qed.



End FileHandle.
