(* ===== verification/JsonDocument.v ===== *)
(** * [QJsonDocument], the interface [jnc::Json] relies on

    [jnc::Json] uses three things of [QJsonDocument]: the default (null)
    document [QJsonDocument{}], [toJson()] (the document as UTF-8 bytes)
    and [fromJson(bytes)] (the parsed document, the null document on a
    parse error).  [JsonDocument] names them; [JsonDocumentLaws] states
    what Qt guarantees of them and what [jnc::Json]'s round trip needs:

    - only the null document serializes to nothing;
    - the serialization of a document the type can hold ([valid]) is UTF-8
      text: the encoding of scalar values, with no carriage return (Qt
      escapes control characters inside strings) and not starting with a
      byte-order mark (it starts with [{] or [[]);
    - a document that the parser accepts back ([loadable]: valid, and for
      Qt's parser not nested deeper than its limit) is parsed back from its
      serialization. *)

From S2P Require Import Prelude Utf8.
From stdpp Require Import base list.
From Stdlib Require Import ZArith.
Open Scope Z_scope.

Class JsonDocument (D : Type) := {
  null_document : D;
  toJson : D -> list Z;
  fromJson : list Z -> D;
  valid : D -> Prop;
  loadable : D -> Prop;
}.

Class JsonDocumentLaws (D : Type) `{JsonDocument D} := {
  toJson_nil : forall d, toJson d = [] <-> d = null_document;
  toJson_text : forall d, valid d -> exists s,
    toJson d = Utf8.encode s /\ Utf8.scalars s = true /\ ~ In 13 s /\ head s <> Some Utf8.bom;
  loadable_valid : forall d, loadable d -> valid d;
  fromJson_toJson : forall d, loadable d -> d <> null_document -> fromJson (toJson d) = d;
}.
