(* ===== verification/QJsonWriter.v ===== *)
(** * JSON values and [QJsonDocument::toJson]

    The values a [QJsonDocument] holds, and Qt's writer in its default
    [Indented] format ([QJsonPrivate::Writer] in qjsonwriter.cpp).  A
    [QString] is a list of UTF-16 code units; a document is null, an array
    or an object (Qt has no scalar documents); an object is the list of its
    members in the order Qt keeps them (sorted by key, no duplicate).
    Numbers are integers ([qint64]); Qt's doubles are not modelled.

    The writer produces the text of the document as a list of code points;
    [toJson] is its UTF-8 encoding, which is what Qt writes byte by byte. *)

From S2P Require Import Prelude Utf8.
From stdpp Require Import base list.
From Stdlib Require Import ZArith Lia.
Open Scope Z_scope.

Module QJson.

(** The induction principle is [value_ind'] below. *)
Local Unset Elimination Schemes.
Inductive value :=
| Null
| Bool (b : bool)
| Integer (n : Z)
| String (s : list Z)
| Array (l : list value)
| Object (m : list (list Z * value)).
Local Set Elimination Schemes.

(** [QJsonDocument]: [NullDoc] is [QJsonDocument()]. *)
Inductive document :=
| NullDoc
| DArray (l : list value)
| DObject (m : list (list Z * value)).

(** Induction on values, with a hypothesis for every element of an array
    and every member of an object. *)
Section value_ind'.
Variable P : value -> Prop.
Hypothesis HNull : P Null.
Hypothesis HBool : forall b, P (Bool b).
Hypothesis HInteger : forall n, P (Integer n).
Hypothesis HString : forall s, P (String s).
Hypothesis HArray : forall l, Forall P l -> P (Array l).
Hypothesis HObject : forall m, Forall (fun kv => P kv.2) m -> P (Object m).

Fixpoint value_ind' (v : value) : P v :=
  match v with
  | Null => HNull
  | Bool b => HBool b
  | Integer n => HInteger n
  | String s => HString s
  | Array l =>
    HArray l ((fix go (l : list value) : Forall P l :=
                 match l with
                 | [] => List.Forall_nil _
                 | e :: l' => List.Forall_cons _ e l' (value_ind' e) (go l')
                 end) l)
  | Object m =>
    HObject m ((fix go (m : list (list Z * value)) : Forall (fun kv => P kv.2) m :=
                  match m with
                  | [] => List.Forall_nil _
                  | (k, e) :: m' => List.Forall_cons (fun kv => P kv.2) (k, e) m' (value_ind' e) (go m')
                  end) m)
  end.
End value_ind'.

(** ** Strings: [escapedString] *)

(** [hexdig]: a lower-case hexadecimal digit. *)
Definition hexdig (u : Z) : Z := if u <? 10 then 48 + u else 97 + (u - 10).

(** A UTF-16 unit that [toUtf8] cannot encode (a lone surrogate) as
    [\uXXXX]. *)
Definition escape_u (u : Z) : list Z :=
  [92; 117; hexdig (Z.land (Z.shiftr u 12) 15); hexdig (Z.land (Z.shiftr u 8) 15);
   hexdig (Z.land (Z.shiftr u 4) 15); hexdig (Z.land u 15)].

(** A unit below 0x80: the quote, the backslash and the control characters
    are escaped, everything else is written as it is. *)
Definition escape_ascii (u : Z) : list Z :=
  if u =? 0x22 then [92; 34]
  else if u =? 0x5c then [92; 92]
  else if u =? 0x08 then [92; 98]
  else if u =? 0x0c then [92; 102]
  else if u =? 0x0a then [92; 110]
  else if u =? 0x0d then [92; 114]
  else if u =? 0x09 then [92; 116]
  else if u <? 0x20 then [92; 117; 48; 48; hexdig (Z.shiftr u 4); hexdig (Z.land u 15)]
  else [u].

Definition is_high (u : Z) : bool := (0xD800 <=? u) && (u <=? 0xDBFF).
Definition is_low (u : Z) : bool := (0xDC00 <=? u) && (u <=? 0xDFFF).

(** [QChar::surrogateToUcs4]. *)
Definition surrogate_to_ucs4 (hi lo : Z) : Z := Z.shiftl hi 10 + lo - 0x35fdc00.

(** [escapedString] on the units of a [QString], as code points: a
    surrogate pair becomes its code point, a lone surrogate [\uXXXX]. *)
Fixpoint escaped (us : list Z) : list Z :=
  match us with
  | [] => []
  | u :: r =>
    if u <? 0x80 then escape_ascii u ++ escaped r
    else if is_high u then
      match r with
      | lo :: r' => if is_low lo then surrogate_to_ucs4 u lo :: escaped r'
                    else escape_u u ++ escaped r
      | [] => escape_u u
      end
    else if is_low u then escape_u u ++ escaped r
    else u :: escaped r
  end.

(** ** Numbers: [QByteArray::number(qint64)] *)

(** The decimal digits of [n], in front of [acc]; 19 digits are enough
    for every [qint64]. *)
Fixpoint digits_aux (fuel : nat) (n : Z) (acc : list Z) : list Z :=
  match fuel with
  | O => acc
  | S f => if n <? 10 then (48 + n) :: acc else digits_aux f (n / 10) (48 + n mod 10 :: acc)
  end.

Definition number (n : Z) : list Z :=
  if n <? 0 then 45 :: digits_aux 19 (- n) [] else digits_aux 19 n [].

(** ** Values and documents *)

Definition indent_string (indent : nat) : list Z := repeat 32 (4 * indent).

(** The lines of an array or object: separated by [",\n"], the last one
    ended by ["\n"]. *)
Fixpoint sep_lines (items : list (list Z)) : list Z :=
  match items with
  | [] => []
  | [x] => x ++ [10]
  | x :: xs => x ++ [44; 10] ++ sep_lines xs
  end.

(** [valueToJson] with [compact = false]. *)
Fixpoint write_value (indent : nat) (v : value) : list Z :=
  match v with
  | Null => [110; 117; 108; 108]
  | Bool true => [116; 114; 117; 101]
  | Bool false => [102; 97; 108; 115; 101]
  | Integer n => number n
  | String s => 34 :: escaped s ++ [34]
  | Array l =>
    [91; 10] ++ sep_lines (map (fun e => indent_string (S indent) ++ write_value (S indent) e) l)
    ++ indent_string indent ++ [93]
  | Object m =>
    [123; 10] ++ sep_lines (map (fun '(k, e) => indent_string (S indent) ++ 34 :: escaped k
                                                ++ [34; 58; 32] ++ write_value (S indent) e) m)
    ++ indent_string indent ++ [125]
  end.

(** [QJsonDocument::toJson()]: nothing for the null document; an array or
    object followed by a line end. *)
Definition toJson_text (d : document) : list Z :=
  match d with
  | NullDoc => []
  | DArray l => write_value 0 (Array l) ++ [10]
  | DObject m => write_value 0 (Object m) ++ [10]
  end.

Definition toJson (d : document) : list Z := Utf8.encode (toJson_text d).

(** ** The documents Qt builds and reads back *)

Definition is_unit (u : Z) : bool := (0 <=? u) && (u <=? 0xFFFF).

(** The order of [QJsonObject] keys: [QString] comparison, unit by unit. *)
Fixpoint key_lt (a b : list Z) : bool :=
  match a, b with
  | [], [] => false
  | [], _ :: _ => true
  | _ :: _, [] => false
  | x :: a', y :: b' => (x <? y) || ((x =? y) && key_lt a' b')
  end.

Fixpoint keys_sorted (ks : list (list Z)) : bool :=
  match ks with
  | k1 :: ((k2 :: _) as ks') => key_lt k1 k2 && keys_sorted ks'
  | _ => true
  end.

(** Integers are [qint64], strings are units, object keys are strictly
    increasing. *)
Fixpoint wf_value (v : value) : bool :=
  match v with
  | Null | Bool _ => true
  | Integer n => in_qint64 n
  | String s => forallb is_unit s
  | Array l => forallb wf_value l
  | Object m =>
    keys_sorted (map fst m) && forallb (fun '(k, e) => forallb is_unit k && wf_value e) m
  end.

(** Containers nested in a value, itself included. *)
Fixpoint depth (v : value) : nat :=
  match v with
  | Array l => S (foldr Nat.max 0%nat (map depth l))
  | Object m => S (foldr Nat.max 0%nat (map (fun '(_, e) => depth e) m))
  | _ => 0
  end.

(** [QJsonPrivate::Parser]'s [nestingLimit]. *)
Definition nesting_limit : nat := 1024.

Definition value_of (d : document) : option value :=
  match d with
  | NullDoc => None
  | DArray l => Some (Array l)
  | DObject m => Some (Object m)
  end.

(** A document Qt can hold: its value is well formed. *)
Definition valid (d : document) : Prop :=
  match value_of d with
  | None => True
  | Some v => wf_value v = true
  end.

(** A document that Qt's parser reads back: well formed, and not nested
    deeper than the parser's limit. *)
Definition loadable (d : document) : Prop :=
  match value_of d with
  | None => True
  | Some v => wf_value v = true /\ (depth v <= nesting_limit)%nat
  end.

End QJson.
