(* ===== verification/QJsonParser.v ===== *)
(** * [QJsonDocument::fromJson]

    Qt's parser ([QJsonPrivate::Parser] in qjsonparser.cpp) on UTF-8
    bytes: it skips a byte-order mark, reads one array or object between
    optional whitespace (space, tab, line feed, carriage return) and
    refuses anything after it; containers nest at most [nestingLimit]
    deep; strings are read through [QUtf8Functions::fromUtf8] and escapes
    (an unknown escape stands for the escaped byte itself); an object's
    members are kept sorted by key, a repeated key keeping its last value.
    A number with a fraction or an exponent, or an integer outside
    [qint64], is a double for Qt: it is not modelled, and the parse fails.

    Every function of the parser is given fuel, decreased by each call;
    [fromJson] gives three units per byte of its input and one more: a
    bracket costs three calls ([parse_value], [parse_array],
    [parse_elements]) for one byte, and [QJsonFuel] shows that no input
    needs more. *)

From S2P Require Import Prelude Utf8 QJsonWriter.
From stdpp Require Import base list.
From Stdlib Require Import ZArith Lia.
Open Scope Z_scope.

Module QJsonParser.
Import QJson.

(** [Parser::eatSpace]. *)
Definition is_space (b : Z) : bool := (b =? 32) || (b =? 9) || (b =? 10) || (b =? 13).

Fixpoint eat_space (bs : list Z) : list Z :=
  match bs with
  | b :: r => if is_space b then eat_space r else bs
  | [] => []
  end.

(** [Parser::nextToken]: the structural character after the whitespace,
    0 for any other byte and at the end. *)
Definition is_token (b : Z) : bool :=
  (b =? 91) || (b =? 123) || (b =? 58) || (b =? 44) || (b =? 93) || (b =? 125) || (b =? 34).

Definition next_token (bs : list Z) : Z * list Z :=
  match eat_space bs with
  | [] => (0, [])
  | b :: r => (if is_token b then b else 0, r)
  end.

(** [Parser::eatBOM]: only when more than the mark is left. *)
Definition eat_bom (bs : list Z) : list Z :=
  match bs with
  | 0xEF :: 0xBB :: 0xBF :: ((_ :: _) as r) => r
  | _ => bs
  end.

(** ** Strings *)

(** [addHexDigit]. *)
Definition hex_value (b : Z) : option Z :=
  if (48 <=? b) && (b <=? 57) then Some (b - 48)
  else if (97 <=? b) && (b <=? 102) then Some (b - 87)
  else if (65 <=? b) && (b <=? 70) then Some (b - 55)
  else None.

(** [scanEscapeSequence], after the backslash. *)
Definition scan_escape (bs : list Z) : option (Z * list Z) :=
  match bs with
  | [] => None
  | e :: r =>
    if e =? 34 then Some (34, r)
    else if e =? 92 then Some (92, r)
    else if e =? 47 then Some (47, r)
    else if e =? 98 then Some (8, r)
    else if e =? 102 then Some (12, r)
    else if e =? 110 then Some (10, r)
    else if e =? 114 then Some (13, r)
    else if e =? 116 then Some (9, r)
    else if e =? 117 then
      match r with
      | h1 :: h2 :: h3 :: h4 :: r' =>
        d1 ← hex_value h1; d2 ← hex_value h2; d3 ← hex_value h3; d4 ← hex_value h4;
        Some (((d1 * 16 + d2) * 16 + d3) * 16 + d4, r')
      | _ => None
      end
    else Some (e, r)
  end.

(** [QChar::highSurrogate], [QChar::lowSurrogate]. *)
Definition high_surrogate (c : Z) : Z := Z.shiftr c 10 + 0xd7c0.
Definition low_surrogate (c : Z) : Z := c mod 0x400 + 0xdc00.

(** The UTF-16 units of a code point. *)
Definition units_of (c : Z) : list Z :=
  if 0x10000 <=? c then [high_surrogate c; low_surrogate c] else [c].

(** [Parser::parseString], after the opening quote: the units of the
    string and what follows the closing quote. *)
Fixpoint scan_string (fuel : nat) (bs : list Z) : option (list Z * list Z) :=
  match fuel with
  | O => None
  | S fuel' =>
    match bs with
    | [] => None
    | b :: r =>
      if b =? 34 then Some ([], r)
      else
        '(c, r') ← (if b =? 92 then scan_escape r else Utf8.from_utf8 b r);
        '(s, r'') ← scan_string fuel' r';
        Some (units_of c ++ s, r'')
    end
  end.

Definition parse_string (bs : list Z) : option (list Z * list Z) :=
  scan_string (S (length bs)) bs.

(** ** Numbers *)

Definition is_digit (b : Z) : bool := (48 <=? b) && (b <=? 57).

Fixpoint span_digits (bs : list Z) : list Z * list Z :=
  match bs with
  | b :: r => if is_digit b then let '(ds, r') := span_digits r in (b :: ds, r') else ([], bs)
  | [] => ([], [])
  end.

Fixpoint digits_value (acc : Z) (ds : list Z) : Z :=
  match ds with
  | [] => acc
  | d :: ds' => digits_value (acc * 10 + (d - 48)) ds'
  end.

(** [Parser::parseNumber]: an optional minus, then [0] or a run of
    digits; a fraction or an exponent makes it a double. *)
Definition parse_number (bs : list Z) : option (value * list Z) :=
  let '(neg, r) := match bs with b :: r => if b =? 45 then (true, r) else (false, bs) | [] => (false, []) end in
  let '(ds, r) := match r with b :: r' => if b =? 48 then ([48], r') else span_digits r | [] => ([], []) end in
  let is_double := match r with b :: _ => (b =? 46) || (b =? 101) || (b =? 69) | [] => false end in
  if is_double then None else
  match ds with
  | [] => None
  | _ =>
    let n := digits_value 0 ds in
    let n := if neg then - n else n in
    if in_qint64 n then Some (Integer n, r) else None
  end.

(** ** Values *)

Definition literal (word : list Z) (v : value) (bs : list Z) : option (value * list Z) :=
  if bool_decide (take (length word) bs = word) then Some (v, drop (length word) bs) else None.

(** [QJsonObject::insert]: in key order, replacing the value of an
    existing key. *)
Fixpoint insert_member (k : list Z) (v : value) (m : list (list Z * value))
  : list (list Z * value) :=
  match m with
  | [] => [(k, v)]
  | (k', v') :: m' =>
    if key_lt k k' then (k, v) :: m
    else if key_lt k' k then (k', v') :: insert_member k v m'
    else (k, v) :: m'
  end.

(** [Parser::parseValue], [parseArray] (after the [[]) with its loop over
    the elements, and [parseObject] (after the [{]) with its loop over the
    members.  [level] is the number of containers open. *)
Fixpoint parse_value (fuel level : nat) (bs : list Z) {struct fuel}
  : option (value * list Z) :=
  match fuel with
  | O => None
  | S fuel' =>
    match bs with
    | [] => None
    | b :: r =>
      if b =? 110 then literal [117; 108; 108] Null r
      else if b =? 116 then literal [114; 117; 101] (Bool true) r
      else if b =? 102 then literal [97; 108; 115; 101] (Bool false) r
      else if b =? 34 then '(s, r') ← parse_string r; Some (String s, r')
      else if b =? 91 then '(l, r') ← parse_array fuel' (S level) r; Some (Array l, r')
      else if b =? 123 then '(m, r') ← parse_object fuel' (S level) r; Some (Object m, r')
      else if (b =? 44) || (b =? 93) || (b =? 125) then None
      else parse_number bs
    end
  end
with parse_array (fuel level : nat) (bs : list Z) {struct fuel}
  : option (list value * list Z) :=
  match fuel with
  | O => None
  | S fuel' =>
    if Nat.ltb nesting_limit level then None else
    match eat_space bs with
    | [] => None
    | b :: r => if b =? 93 then Some ([], r) else parse_elements fuel' level (b :: r)
    end
  end
with parse_elements (fuel level : nat) (bs : list Z) {struct fuel}
  : option (list value * list Z) :=
  match fuel with
  | O => None
  | S fuel' =>
    '(v, r) ← parse_value fuel' level bs;
    match next_token r with
    | (93, r') => Some ([v], r')
    | (44, r') =>
      match eat_space r' with
      | [] => None
      | r'' => '(vs, r3) ← parse_elements fuel' level r''; Some (v :: vs, r3)
      end
    | _ => None
    end
  end
with parse_object (fuel level : nat) (bs : list Z) {struct fuel}
  : option (list (list Z * value) * list Z) :=
  match fuel with
  | O => None
  | S fuel' =>
    if Nat.ltb nesting_limit level then None else
    match next_token bs with
    | (34, r) => parse_members fuel' level r []
    | (125, r) => Some ([], r)
    | _ => None
    end
  end
with parse_members (fuel level : nat) (bs : list Z) (acc : list (list Z * value)) {struct fuel}
  : option (list (list Z * value) * list Z) :=
  match fuel with
  | O => None
  | S fuel' =>
    '(k, r) ← parse_string bs;
    match next_token r with
    | (58, r1) =>
      match eat_space r1 with
      | [] => None
      | r2 =>
        '(v, r3) ← parse_value fuel' level r2;
        let acc' := insert_member k v acc in
        match next_token r3 with
        | (44, r4) =>
          match next_token r4 with
          | (34, r5) => parse_members fuel' level r5 acc'
          | _ => None
          end
        | (125, r4) => Some (acc', r4)
        | _ => None
        end
      end
    | _ => None
    end
  end.

(** [Parser::parse]: an array or an object, then nothing but
    whitespace. *)
Definition parse (fuel : nat) (bs : list Z) : option document :=
  match next_token (eat_bom bs) with
  | (91, r) =>
    '(l, r') ← parse_array fuel 1 r;
    match eat_space r' with [] => Some (DArray l) | _ => None end
  | (123, r) =>
    '(m, r') ← parse_object fuel 1 r;
    match eat_space r' with [] => Some (DObject m) | _ => None end
  | _ => None
  end.

(** [QJsonDocument::fromJson]: the null document on a parse error. *)
Definition fromJson (bs : list Z) : document :=
  match parse (S (3 * length bs)) bs with
  | Some d => d
  | None => NullDoc
  end.

End QJsonParser.
