(* ===== verification/QJsonFuel.v ===== *)
(** * Enough fuel for Qt's parser

    [QJsonParser.fromJson] runs the parser with [S (3 * length bs)] units
    of fuel.  The calls that read a bracket spend three units on one byte
    ([parse_value], [parse_array], [parse_elements]); every other chain of
    calls reads more.  This file shows that this fuel is enough: each
    function of the parser, given at least three units per byte of its
    input (plus a constant), gives the same result with any more fuel.
    Running out of fuel is therefore never the reason [fromJson] fails:
    it computes what Qt's recursive parser computes. *)

From S2P Require Import Prelude Utf8 QJsonWriter QJsonParser.
From stdpp Require Import base list.
From Stdlib Require Import ZArith Lia.
Open Scope Z_scope.

Module QJsonFuel.
Import QJson QJsonParser.

(** ** What each step of the parser consumes *)

Lemma eat_space_length bs : (length (eat_space bs) <= length bs)%nat.
Proof. induction bs as [|b r IH]; simpl; [lia|]. destruct (is_space b); simpl; lia. Qed.

(** [next_token] never lengthens the input, and consumes a byte when it
    finds a token. *)
Lemma next_token_length bs t r :
  next_token bs = (t, r) -> (length r <= length bs)%nat /\ (t <> 0 -> (length r < length bs)%nat).
Proof.
  unfold next_token. pose proof (eat_space_length bs) as H.
  destruct (eat_space bs) as [|b r']; intros [= <- <-]; simpl in *; split; try lia.
Qed.

Lemma scan_escape_length r c r' : scan_escape r = Some (c, r') -> (length r' <= length r)%nat.
Proof. unfold scan_escape, mbind, option_bind. repeat case_match; intros; simplify_eq/=; lia. Qed.

Lemma scan_string_length n bs s r : scan_string n bs = Some (s, r) -> (length r < length bs)%nat.
Proof.
  revert bs s r. induction n as [|n IH]; intros bs s r; [discriminate|].
  destruct bs as [|b t]; [discriminate|]. cbn [scan_string].
  destruct (b =? 34); [intros [= _ <-]; simpl; lia|].
  destruct (if b =? 92 then scan_escape t else Utf8.from_utf8 b t) as [[c r']|] eqn:E; [|discriminate].
  cbn. destruct (scan_string n r') as [[s' r'']|] eqn:E2; [|discriminate]. intros [= _ <-].
  apply IH in E2. assert (length r' <= length t)%nat
    by (destruct (b =? 92); eauto using scan_escape_length, Utf8.from_utf8_length).
  simpl. lia.
Qed.

Lemma parse_string_length bs s r : parse_string bs = Some (s, r) -> (length r < length bs)%nat.
Proof. apply scan_string_length. Qed.

Lemma literal_length w v bs v' r : literal w v bs = Some (v', r) -> (length r <= length bs)%nat.
Proof. unfold literal. case_bool_decide; intros; simplify_eq. rewrite length_drop. lia. Qed.

Lemma span_digits_length bs ds r : span_digits bs = (ds, r) -> (length r <= length bs)%nat.
Proof.
  revert ds r. induction bs as [|b t IH]; intros ds r; simpl; [intros [= <- <-]; simpl; lia|].
  destruct (is_digit b); [|intros [= <- <-]; simpl; lia].
  specialize (IH (span_digits t).1 (span_digits t).2).
  destruct (span_digits t) as [ds' r']. intros [= <- <-]. specialize (IH eq_refl). simpl in IH. lia.
Qed.

Lemma parse_number_length bs v r : parse_number bs = Some (v, r) -> (length r <= length bs)%nat.
Proof.
  unfold parse_number. repeat case_match; intros; simplify_eq;
    repeat match goal with H : span_digits _ = _ |- _ => apply span_digits_length in H end;
    simpl in *; lia.
Qed.

(** Apply the lengths known of the pieces the parser has read. *)
Ltac lengths :=
  repeat match goal with
  | H : parse_string _ = Some _ |- _ => apply parse_string_length in H
  | H : literal _ _ _ = Some _ |- _ => apply literal_length in H
  | H : parse_number _ = Some _ |- _ => apply parse_number_length in H
  | H : next_token _ = _ |- _ =>
    let H2 := fresh in apply next_token_length in H as [H H2];
    first [specialize (H2 ltac:(discriminate)) | clear H2]
  | H : eat_space ?x = _ |- _ => let E := fresh in pose proof (eat_space_length x) as E; rewrite H in E; clear H
  end; simpl in *.

(** The five functions never lengthen their input. *)
Lemma parse_length n :
  (forall l bs v r, parse_value n l bs = Some (v, r) -> (length r <= length bs)%nat) /\
  (forall l bs vs r, parse_array n l bs = Some (vs, r) -> (length r <= length bs)%nat) /\
  (forall l bs vs r, parse_elements n l bs = Some (vs, r) -> (length r <= length bs)%nat) /\
  (forall l bs m r, parse_object n l bs = Some (m, r) -> (length r <= length bs)%nat) /\
  (forall l bs acc m r, parse_members n l bs acc = Some (m, r) -> (length r <= length bs)%nat).
Proof.
  induction n as [|n (IHv & IHa & IHe & IHo & IHm)]; [split_and!; discriminate|].
  split_and!; intros *; cbn [parse_value parse_array parse_elements parse_object parse_members];
    unfold mbind, option_bind; intros H; repeat (case_match; simplify_eq); lengths.
  all: repeat match goal with
    | H : parse_value _ _ _ = Some _ |- _ => apply IHv in H
    | H : parse_array _ _ _ = Some _ |- _ => apply IHa in H
    | H : parse_elements _ _ _ = Some _ |- _ => apply IHe in H
    | H : parse_object _ _ _ = Some _ |- _ => apply IHo in H
    | H : parse_members _ _ _ _ = Some _ |- _ => apply IHm in H
    end; simpl in *; lia.
Qed.

(** [lengths], and what the five functions return. *)
Ltac all_lengths :=
  repeat match goal with
  | H : parse_value _ _ _ = Some _ |- _ => apply (proj1 (parse_length _)) in H
  | H : parse_array _ _ _ = Some _ |- _ => apply (proj1 (proj2 (parse_length _))) in H
  | H : parse_elements _ _ _ = Some _ |- _ => apply (proj1 (proj2 (proj2 (parse_length _)))) in H
  | H : parse_object _ _ _ = Some _ |- _ =>
    apply (proj1 (proj2 (proj2 (proj2 (parse_length _))))) in H
  | H : parse_members _ _ _ _ = Some _ |- _ =>
    apply (proj2 (proj2 (proj2 (proj2 (parse_length _))))) in H
  end; lengths.

(** ** More fuel changes nothing *)

(** Each function, given three units of fuel per byte of its input and a
    constant, gives the same result with any other such fuel. *)
Lemma parse_fuel_eq n :
  (forall m l bs, (3 * length bs + 1 <= n)%nat -> (3 * length bs + 1 <= m)%nat ->
     parse_value n l bs = parse_value m l bs) /\
  (forall m l bs, (3 * length bs + 3 <= n)%nat -> (3 * length bs + 3 <= m)%nat ->
     parse_array n l bs = parse_array m l bs) /\
  (forall m l bs, (3 * length bs + 2 <= n)%nat -> (3 * length bs + 2 <= m)%nat ->
     parse_elements n l bs = parse_elements m l bs) /\
  (forall m l bs, (3 * length bs + 3 <= n)%nat -> (3 * length bs + 3 <= m)%nat ->
     parse_object n l bs = parse_object m l bs) /\
  (forall m l bs acc, (3 * length bs + 2 <= n)%nat -> (3 * length bs + 2 <= m)%nat ->
     parse_members n l bs acc = parse_members m l bs acc).
Proof.
  induction n as [|n (IHv & IHa & IHe & IHo & IHm)]; [split_and!; intros; lia|].
  split_and!; intros [|m] * Hn Hm; try lia;
    cbn [parse_value parse_array parse_elements parse_object parse_members];
    unfold mbind, option_bind;
    repeat first [ rewrite <- (IHv m) by (all_lengths; lia) | rewrite <- (IHa m) by (all_lengths; lia)
                 | rewrite <- (IHe m) by (all_lengths; lia) | rewrite <- (IHo m) by (all_lengths; lia)
                 | rewrite <- (IHm m) by (all_lengths; lia) | case_match ];
    try reflexivity.
Qed.

Lemma eat_bom_length bs : (length (eat_bom bs) <= length bs)%nat.
Proof. unfold eat_bom. repeat case_match; simpl; lia. Qed.

(** [parse] with [S (3 * length bs)] units of fuel gives what it gives
    with any more. *)
Theorem parse_fuel_enough bs n :
  (S (3 * length bs) <= n)%nat -> parse n bs = parse (S (3 * length bs)) bs.
Proof.
  intros Hn. destruct (parse_fuel_eq n) as (_ & Ha & _ & Ho & _).
  unfold parse. pose proof (eat_bom_length bs) as Hb.
  destruct (next_token (eat_bom bs)) as [t r] eqn:Et.
  repeat first [ rewrite (Ha (S (3 * length bs))) by (all_lengths; lia)
               | rewrite (Ho (S (3 * length bs))) by (all_lengths; lia) | case_match ];
    reflexivity.
Qed.

(** [fromJson] is the parser run to completion: with more fuel than it
    gives, the parse returns the same document. *)
Theorem fromJson_fuel bs n :
  (S (3 * length bs) <= n)%nat ->
  fromJson bs = match parse n bs with Some d => d | None => NullDoc end.
Proof. intros Hn. unfold fromJson. by rewrite (parse_fuel_enough bs n Hn). Qed.

(** Three nested arrays in seven bytes need nine calls, more than the
    length of the text. *)
Lemma fromJson_nested :
  fromJson [91; 91; 91; 49; 93; 93; 93] = DArray [Array [Array [Integer 1]]].
Proof. vm_compute. reflexivity. Qed.

(** ** What the parser returns is nested at most [nesting_limit] deep *)

Lemma foldr_max_le (ds : list nat) B : Forall (fun d => d <= B)%nat ds -> (foldr Nat.max 0%nat ds <= B)%nat.
Proof. induction 1; simpl; lia. Qed.

Lemma insert_member_Forall (P : list Z * value -> Prop) k v acc :
  P (k, v) -> Forall P acc -> Forall P (insert_member k v acc).
Proof.
  induction acc as [|[k' v'] acc IH]; simpl; intros Hp Ha; [by constructor|].
  inversion Ha as [|? ? Hkv Hacc]; subst. repeat case_match; constructor; auto.
Qed.

(** Children nested at most [B] deep under a container at [level]. *)
Lemma depth_array_le level l :
  Forall (fun e => S level + depth e <= nesting_limit)%nat l -> (S level <= nesting_limit)%nat ->
  (level + depth (Array l) <= nesting_limit)%nat.
Proof.
  intros Hl Hs. cbn [depth].
  enough (foldr Nat.max 0%nat (map depth l) <= nesting_limit - S level)%nat by lia.
  apply foldr_max_le, Forall_map. rewrite List.Forall_forall in *.
  intros e He. specialize (Hl e He). lia.
Qed.

Lemma depth_object_le level m :
  Forall (fun kv => S level + depth kv.2 <= nesting_limit)%nat m -> (S level <= nesting_limit)%nat ->
  (level + depth (Object m) <= nesting_limit)%nat.
Proof.
  intros Hm Hs. cbn [depth].
  enough (foldr Nat.max 0%nat (map (fun '(_, e) => depth e) m) <= nesting_limit - S level)%nat by lia.
  apply foldr_max_le, Forall_map. rewrite List.Forall_forall in *.
  intros [k e] He. specialize (Hm (k, e) He). cbn [snd] in Hm. lia.
Qed.

Lemma literal_value w v bs v' r : literal w v bs = Some (v', r) -> v' = v.
Proof. unfold literal. case_bool_decide; congruence. Qed.

Lemma parse_number_depth bs v r : parse_number bs = Some (v, r) -> depth v = 0%nat.
Proof. unfold parse_number. repeat case_match; intros; simplify_eq; reflexivity. Qed.

Lemma parse_depth n :
  (forall l bs v r, parse_value n l bs = Some (v, r) -> (l <= nesting_limit)%nat ->
     (l + depth v <= nesting_limit)%nat) /\
  (forall l bs vs r, parse_array n l bs = Some (vs, r) ->
     (l <= nesting_limit)%nat /\ Forall (fun e => l + depth e <= nesting_limit)%nat vs) /\
  (forall l bs vs r, parse_elements n l bs = Some (vs, r) -> (l <= nesting_limit)%nat ->
     Forall (fun e => l + depth e <= nesting_limit)%nat vs) /\
  (forall l bs m r, parse_object n l bs = Some (m, r) ->
     (l <= nesting_limit)%nat /\ Forall (fun kv => l + depth kv.2 <= nesting_limit)%nat m) /\
  (forall l bs acc m r, parse_members n l bs acc = Some (m, r) -> (l <= nesting_limit)%nat ->
     Forall (fun kv => l + depth kv.2 <= nesting_limit)%nat acc ->
     Forall (fun kv => l + depth kv.2 <= nesting_limit)%nat m).
Proof.
  induction n as [|n (IHv & IHa & IHe & IHo & IHm)]; [split_and!; discriminate|].
  split_and!; intros *; cbn [parse_value parse_array parse_elements parse_object parse_members];
    unfold mbind, option_bind; intros H; repeat (case_match; simplify_eq).
  all: repeat match goal with
    | H : (_ <? _)%nat = false |- _ => apply Nat.ltb_ge in H
    | H : literal _ _ _ = Some _ |- _ => apply literal_value in H; subst
    | H : parse_number _ = Some _ |- _ => apply parse_number_depth in H
    | H : parse_array _ _ _ = Some _ |- _ => apply IHa in H as [? ?]
    | H : parse_object _ _ _ = Some _ |- _ => apply IHo in H as [? ?]
    end; intros; try (simpl in *; lia).
  all: split_and?; eauto 6 using depth_array_le, depth_object_le, insert_member_Forall,
    List.Forall_cons, List.Forall_nil.
Qed.

(** Every document [fromJson] returns is nested at most [nesting_limit]
    containers deep. *)
Theorem fromJson_depth bs v : value_of (fromJson bs) = Some v -> (depth v <= nesting_limit)%nat.
Proof.
  destruct (parse_depth (S (3 * length bs))) as (_ & Ha & _ & Ho & _).
  unfold fromJson, parse, mbind, option_bind. repeat case_match; intros Hv; simplify_eq.
  all: repeat match goal with
    | H : parse_array _ _ _ = Some _ |- _ => apply Ha in H as [? ?]
    | H : parse_object _ _ _ = Some _ |- _ => apply Ho in H as [? ?]
    end.
  all: cbn [value_of] in Hv; injection Hv as <-.
  all: first [apply (depth_array_le 0) | apply (depth_object_le 0)]; assumption.
Qed.

End QJsonFuel.
