(* ===== verification/QJson.v ===== *)
(** * [QJsonDocument] reads back what it writes

    [fromJson (toJson d) = d] for every document Qt can hold and its parser
    accepts (integers of [qint64], strings of UTF-16 units, keys in
    order, at most [nestingLimit] containers deep): the writer of
    QJsonWriter.v and the parser of QJsonParser.v are inverse.  The proof
    goes from strings (escapes, surrogate pairs, UTF-8) and numbers to
    arrays and objects, by induction on the value.  The documents then
    form an instance of the [JsonDocument] interface that [jnc::Json] is
    proved against. *)

From S2P Require Import Prelude Utf8 QJsonWriter QJsonParser JsonDocument.
From stdpp Require Import base list.
From Stdlib Require Import ZArith Lia.
Open Scope Z_scope.

Module QJsonLaws.
Import QJson QJsonParser.

(** ** ASCII and UTF-8 *)

Lemma hexdig_range d : 0 <= d < 16 -> 48 <= hexdig d < 0x80.
Proof. intros Hd. unfold hexdig. zcase; lia. Qed.

Lemma hexdig_ascii d : 0 <= d < 16 -> 0 <= hexdig d < 0x80.
Proof. intros Hd. pose proof (hexdig_range d Hd). lia. Qed.

Lemma hex_value_hexdig d : 0 <= d < 16 -> hex_value (hexdig d) = Some d.
Proof. intros Hd. unfold hex_value, hexdig. zcase; f_equal; lia. Qed.

Lemma hex_value_0 : hex_value 48 = Some 0.
Proof. reflexivity. Qed.

(** ** Strings *)

(** [ch] is the text of one step of [escapedString] for the code point
    [c]: its first byte is no quote, and the parser reads [c] from it
    whatever follows. *)
Definition reads (ch : list Z) (c : Z) : Prop :=
  exists b rr, ch = b :: rr /\ b <> 34 /\
  forall t, (if b =? 92 then scan_escape (rr ++ t) else Utf8.from_utf8 b (rr ++ t)) = Some (c, t).

Lemma scan_step fuel ch c t s rest :
  reads ch c -> scan_string fuel t = Some (s, rest) ->
  scan_string (S fuel) (ch ++ t) = Some (units_of c ++ s, rest).
Proof.
  intros (b & rr & -> & Hb & Hr) Ht. cbn [app scan_string].
  rewrite (proj2 (Z.eqb_neq _ _) Hb), Hr. simpl. by rewrite Ht.
Qed.

Lemma units_of_bmp u : 0 <= u < 0x10000 -> units_of u = [u].
Proof. intros Hu. unfold units_of. zcase. reflexivity. Qed.

(** The four hexadecimal digits of [escape_u] give the unit back. *)
Lemma reads_escape_u u : 0 <= u <= 0xFFFF -> reads (escape_u u) u.
Proof.
  intros Hu. eexists _, _. split; [reflexivity|]. split; [lia|]. intros t.
  cbn -[hexdig hex_value Z.shiftr Z.land].
  rewrite !Z.shiftr_div_pow2, !(land_mask _ 4) by lia.
  rewrite !hex_value_hexdig by (apply Z.mod_pos_bound; lia).
  simpl. do 2 f_equal. pow_consts. zlia.
Qed.

Lemma from_utf8_ascii b t : 0 <= b < 0x80 -> Utf8.from_utf8 b t = Some (b, t).
Proof. intros Hb. unfold Utf8.from_utf8. zcase. reflexivity. Qed.

Lemma reads_escape_ascii u : 0 <= u < 0x80 -> reads (escape_ascii u) u.
Proof.
  intros Hu. unfold escape_ascii.
  zcase; subst; try (eexists _, _; split; [reflexivity|]; split; [lia|]; intros t; reflexivity).
  - eexists _, _. split; [reflexivity|]. split; [lia|]. intros t.
    cbn -[hexdig hex_value Z.shiftr Z.land].
    rewrite Z.shiftr_div_pow2, (land_mask _ 4) by lia.
    rewrite !hex_value_hexdig by (pow_consts; zlia).
    simpl. do 2 f_equal. pow_consts. zlia.
  - eexists _, _. split; [reflexivity|]. split; [lia|]. intros t.
    rewrite (proj2 (Z.eqb_neq _ _)) by lia. apply from_utf8_ascii. lia.
Qed.

(** A code point of two bytes or more is read from its UTF-8 encoding:
    its lead byte is no quote and no backslash. *)
Lemma reads_encode_cp c : Utf8.is_scalar c = true -> 0x80 <= c -> reads (Utf8.encode_cp c) c.
Proof.
  intros Hs Hc.
  destruct (Utf8.encode_cp c) as [|b rr] eqn:E.
  { destruct (Utf8.from_utf8_encode_cp c [] Hs) as (b & rest & Hbr & _). rewrite E in Hbr. discriminate. }
  assert (Hb : 0x80 <= b).
  { destruct (Utf8.encode_cp_bytes c b Hs) as [Hb1 Hb2]; [rewrite E; left; done|].
    destruct (Z.lt_ge_cases b 0x80) as [Hlt|]; [specialize (Hb2 Hlt); lia|done]. }
  exists b, rr. split; [done|]. split; [lia|]. intros t.
  rewrite (proj2 (Z.eqb_neq _ _)) by lia.
  destruct (Utf8.from_utf8_encode_cp c t Hs) as (b' & rest & Hbr & F).
  rewrite E in Hbr. simpl in Hbr. injection Hbr as <- <-. exact F.
Qed.

(** The surrogate pair of a code point above the BMP is the one it was
    combined from. *)
Lemma surrogates_roundtrip hi lo :
  is_high hi = true -> is_low lo = true ->
  let c := surrogate_to_ucs4 hi lo in
  Utf8.is_scalar c = true /\ 0x10000 <= c /\ units_of c = [hi; lo].
Proof.
  unfold is_high, is_low, surrogate_to_ucs4, units_of, high_surrogate, low_surrogate,
    Utf8.is_scalar, Utf8.is_surrogate.
  intros Hh Hl. zbool_hyps. rewrite Z.shiftl_mul_pow2, Z.shiftr_div_pow2 by lia. pow_consts.
  split; [zcase; reflexivity|]. split; [lia|].
  zcase. do 2 f_equal; zlia.
Qed.

Lemma encode_length_ge s : (length s <= length (Utf8.encode s))%nat.
Proof.
  induction s as [|c s IH]; [done|]. rewrite Utf8.encode_cons, length_app. simpl.
  assert (length (Utf8.encode_cp c) <> 0%nat).
  { unfold Utf8.encode_cp. zcase; discriminate. }
  lia.
Qed.

Lemma escape_u_ascii u : Forall (fun c => 0 <= c < 0x80) (escape_u u).
Proof.
  unfold escape_u. rewrite !(land_mask _ 4) by lia.
  repeat apply List.Forall_cons; try apply List.Forall_nil; try lia;
    apply hexdig_ascii; apply Z.mod_pos_bound; lia.
Qed.

Lemma escape_ascii_ascii u : 0 <= u < 0x80 -> Forall (fun c => 0 <= c < 0x80) (escape_ascii u).
Proof.
  intros Hu. unfold escape_ascii. rewrite (land_mask _ 4) by lia.
  zcase; repeat apply List.Forall_cons; try apply List.Forall_nil; try lia; apply hexdig_ascii;
    rewrite ?Z.shiftr_div_pow2 by lia; pow_consts; zlia.
Qed.

(** One step of [escapedString]: a chunk of bytes that reads as one code
    point, whose units are the first units of the string. *)
Lemma escaped_step u r :
  is_unit u = true ->
  exists chb c r', Utf8.encode (escaped (u :: r)) = chb ++ Utf8.encode (escaped r') /\
    reads chb c /\ u :: r = units_of c ++ r' /\ (length r' < length (u :: r))%nat.
Proof.
  unfold is_unit. intros Hu. zbool_hyps. cbn [escaped].
  destruct (Z.ltb_spec u 0x80).
  { exists (escape_ascii u), u, r. rewrite Utf8.encode_app, Utf8.encode_ascii by (apply escape_ascii_ascii; lia).
    split; [done|]. split; [apply reads_escape_ascii; lia|]. rewrite units_of_bmp by lia. split; [reflexivity|simpl; lia]. }
  assert (Hlone : forall r', Utf8.encode (escape_u u ++ escaped r') = escape_u u ++ Utf8.encode (escaped r'))
    by (intros r'; rewrite Utf8.encode_app, Utf8.encode_ascii by apply escape_u_ascii; done).
  destruct (is_high u) eqn:Hh.
  - destruct r as [|lo r''].
    + exists (escape_u u), u, []. rewrite <- Hlone. cbn [escaped]. rewrite app_nil_r.
      split; [done|]. split; [by apply reads_escape_u|]. rewrite units_of_bmp by lia. split; [reflexivity|simpl; lia].
    + destruct (is_low lo) eqn:Hl.
      * destruct (surrogates_roundtrip u lo Hh Hl) as (Hs & Hc & Hunits).
        exists (Utf8.encode_cp (surrogate_to_ucs4 u lo)), (surrogate_to_ucs4 u lo), r''.
        rewrite Utf8.encode_cons. split; [done|]. split; [apply reads_encode_cp; [done|lia]|].
        rewrite Hunits. split; [reflexivity|simpl; lia].
      * exists (escape_u u), u, (lo :: r''). rewrite Hlone.
        split; [done|]. split; [by apply reads_escape_u|]. rewrite units_of_bmp by lia. split; [reflexivity|simpl; lia].
  - destruct (is_low u) eqn:Hl.
    + exists (escape_u u), u, r. rewrite Hlone.
      split; [done|]. split; [by apply reads_escape_u|]. rewrite units_of_bmp by lia. split; [reflexivity|simpl; lia].
    + exists (Utf8.encode_cp u), u, r. rewrite Utf8.encode_cons. split; [done|].
      split; [|rewrite units_of_bmp by lia; split; [reflexivity|simpl; lia]].
      apply reads_encode_cp; [|lia]. revert Hh Hl. unfold is_high, is_low, Utf8.is_scalar, Utf8.is_surrogate.
      intros Hh Hl. zcase; done.
Qed.

(** [parseString] reads back what [escapedString] wrote, up to the closing
    quote, whatever follows it. *)
Lemma scan_escaped us rest fuel :
  forallb is_unit us = true -> (length (Utf8.encode (escaped us)) < fuel)%nat ->
  scan_string fuel (Utf8.encode (escaped us) ++ 34 :: rest) = Some (us, rest).
Proof.
  revert fuel. induction us as [us IH] using (induction_ltof1 _ (@length Z)).
  intros fuel Hu Hf. destruct fuel as [|fuel]; [lia|].
  destruct us as [|u r]; [reflexivity|].
  cbn [forallb] in Hu. apply andb_prop in Hu as [Hu Hr].
  destruct (escaped_step u r Hu) as (chb & c & r' & He & Hch & Heq & Hlt).
  assert (Hr' : forallb is_unit r' = true).
  { assert (Hall : forallb is_unit (u :: r) = true) by (simpl; rewrite Hu, Hr; done).
    rewrite Heq, forallb_app in Hall. by apply andb_prop in Hall as [_ ?]. }
  rewrite He, <- app_assoc, Heq. apply scan_step; [exact Hch|].
  apply IH; [exact Hlt|exact Hr'|].
  rewrite He, length_app in Hf. destruct Hch as (b & rr & -> & _). simpl in Hf. lia.
Qed.

(** ** Numbers *)

Lemma digits_aux_digits f m acc :
  0 <= m -> Forall (fun b => is_digit b = true) acc ->
  Forall (fun b => is_digit b = true) (digits_aux f m acc).
Proof.
  revert m acc. induction f as [|f IH]; intros m acc Hm Hacc; [exact Hacc|]. cbn [digits_aux].
  destruct (Z.ltb_spec m 10).
  - constructor; [unfold is_digit; zcase; reflexivity|exact Hacc].
  - apply IH; [zlia|]. constructor; [|exact Hacc]. unfold is_digit. zcase; reflexivity.
Qed.

Lemma digits_aux_value f m acc :
  0 <= m < 10 ^ Z.of_nat f -> digits_value 0 (digits_aux f m acc) = digits_value m acc.
Proof.
  revert m acc. induction f as [|f IH]; intros m acc Hm.
  - simpl in Hm. replace m with 0 by lia. reflexivity.
  - cbn [digits_aux]. rewrite Nat2Z.inj_succ, Z.pow_succ_r in Hm by lia.
    destruct (Z.ltb_spec m 10).
    + simpl. f_equal. lia.
    + rewrite IH by zlia. simpl. f_equal. zlia.
Qed.

(** The first digit is [0] only for the number 0, written alone. *)
Lemma digits_aux_head f m acc :
  0 <= m < 10 ^ Z.of_nat f -> (0 < f)%nat ->
  exists d rest, digits_aux f m acc = d :: rest /\
    (m = 0 -> d = 48 /\ rest = acc) /\ (0 < m -> 49 <= d <= 57).
Proof.
  revert m acc. induction f as [|f IH]; intros m acc Hm Hf; [lia|].
  cbn [digits_aux]. rewrite Nat2Z.inj_succ, Z.pow_succ_r in Hm by lia.
  destruct (Z.ltb_spec m 10).
  - eexists _, _. split; [reflexivity|]. split; [intros ->; done|lia].
  - destruct f as [|f]; [simpl in Hm; lia|].
    destruct (IH (m / 10) (48 + m mod 10 :: acc)) as (d & rest & E & _ & Hd); [zlia|lia|].
    exists d, rest. split; [exact E|]. split; [lia|]. intros _. apply Hd. zlia.
Qed.

Lemma span_digits_app ds rest :
  Forall (fun b => is_digit b = true) ds ->
  match rest with b :: _ => is_digit b = false | [] => True end ->
  span_digits (ds ++ rest) = (ds, rest).
Proof.
  intros Hds Hr. induction Hds as [|d ds Hd _ IH].
  - destruct rest as [|b rest]; [reflexivity|]. simpl. by rewrite Hr.
  - simpl. rewrite Hd, IH. reflexivity.
Qed.

(** What may follow a number so that [parseNumber] stops there. *)
Definition num_end (rest : list Z) : bool :=
  match rest with
  | b :: _ => negb (is_digit b || (b =? 46) || (b =? 101) || (b =? 69))
  | [] => true
  end.

Lemma qint64_digits n : in_qint64 n = true -> - n <= 2 ^ 63 /\ n < 10 ^ Z.of_nat 19.
Proof. unfold in_qint64, qint64_min, qint64_max. intros H. zbool_hyps. pow_consts. simpl. lia. Qed.

(** [parseNumber] reads back [QByteArray::number]. *)
Lemma parse_number_number n rest :
  in_qint64 n = true -> num_end rest = true ->
  parse_number (number n ++ rest) = Some (Integer n, rest).
Proof.
  intros Hn Hr. destruct (qint64_digits n Hn) as [Hlo Hhi].
  assert (Hrest : match rest with b :: _ => is_digit b = false | [] => True end /\
                  match rest with b :: _ => (b =? 46) || (b =? 101) || (b =? 69) | [] => false end = false).
  { destruct rest as [|b rest]; [done|]. simpl in Hr. apply negb_true_iff, orb_false_elim in Hr as [Hr H3].
    apply orb_false_elim in Hr as [Hr H2]. apply orb_false_elim in Hr as [H0 H1].
    rewrite H0, H1, H2, H3. done. }
  destruct Hrest as [Hnd Hnd'].
  unfold number. destruct (Z.ltb_spec n 0) as [Hneg|Hpos].
  - destruct (digits_aux_head 19 (- n) [] ltac:(pow_consts; simpl in *; lia) ltac:(lia))
      as (d & ds & E & _ & Hd).
    specialize (Hd ltac:(lia)).
    pose proof (digits_aux_digits 19 (- n) [] ltac:(lia) (List.Forall_nil _)) as Hall.
    pose proof (digits_aux_value 19 (- n) [] ltac:(pow_consts; simpl in *; lia)) as Hv.
    rewrite E in Hall, Hv |- *. unfold parse_number. cbn [app]. rewrite Z.eqb_refl.
    cbv beta iota. rewrite (proj2 (Z.eqb_neq d 48)) by lia. rewrite (span_digits_app (d :: ds) rest Hall Hnd : span_digits (d :: ds ++ rest) = _).
    rewrite Hnd'. cbv beta iota zeta. rewrite Hv. cbn [digits_value].
    rewrite Z.opp_involutive, Hn. reflexivity.
  - destruct (Z.eq_dec n 0) as [->|Hnz].
    + change (digits_aux 19 0 [] ++ rest) with (48 :: rest). unfold parse_number. zclosed.
      rewrite Hnd'. reflexivity.
    + destruct (digits_aux_head 19 n [] ltac:(lia) ltac:(lia)) as (d & ds & E & _ & Hd).
      specialize (Hd ltac:(lia)).
      pose proof (digits_aux_digits 19 n [] ltac:(lia) (List.Forall_nil _)) as Hall.
      pose proof (digits_aux_value 19 n [] ltac:(lia)) as Hv.
      rewrite E in Hall, Hv |- *. unfold parse_number. cbn [app].
      rewrite (proj2 (Z.eqb_neq d 45)) by lia. cbv beta iota.
      rewrite (proj2 (Z.eqb_neq d 48)) by lia.
      rewrite (span_digits_app (d :: ds) rest Hall Hnd : span_digits (d :: ds ++ rest) = _).
      rewrite Hnd'. cbv beta iota zeta. rewrite Hv. cbn [digits_value]. rewrite Hn. reflexivity.
Qed.

(** ** Whitespace and the first character of a value *)

Lemma eat_space_repeat k bs : eat_space (repeat 32 k ++ bs) = eat_space bs.
Proof. induction k as [|k IH]; [reflexivity|]. exact IH. Qed.

Lemma eat_space_stop b r : is_space b = false -> eat_space (b :: r) = b :: r.
Proof. intros Hb. simpl. by rewrite Hb. Qed.

Lemma indent_ascii k : Forall (fun c => 0 <= c < 0x80) (indent_string k).
Proof. apply List.Forall_forall. intros c Hc. apply repeat_spec in Hc. lia. Qed.

Lemma encode_indent k bs : Utf8.encode (indent_string k ++ bs) = indent_string k ++ Utf8.encode bs.
Proof. by rewrite Utf8.encode_app, Utf8.encode_ascii by apply indent_ascii. Qed.

Lemma eat_space_indent k bs : eat_space (indent_string k ++ bs) = eat_space bs.
Proof. apply eat_space_repeat. Qed.

(** A value starts with an ASCII character that is neither whitespace nor
    a closing bracket, brace or comma. *)
Definition value_start (c : Z) : bool :=
  (0 <=? c) && (c <? 0x80) && negb (is_space c) && negb ((c =? 93) || (c =? 125) || (c =? 44)).

Lemma digits_aux_cons f m acc :
  0 <= m -> (0 < f)%nat \/ acc <> [] -> exists c t, digits_aux f m acc = c :: t.
Proof.
  revert m acc. induction f as [|f IH]; intros m acc Hm Hf.
  - destruct acc as [|c t]; [destruct Hf; [lia|done]|]. by exists c, t.
  - cbn [digits_aux]. destruct (Z.ltb_spec m 10); [by eexists _, _|].
    apply IH; [zlia|]. right. discriminate.
Qed.

Lemma write_value_head ind v :
  exists c t, write_value ind v = c :: t /\ value_start c = true.
Proof.
  destruct v as [| [] | n | s | l | m]; try (eexists _, _; split; reflexivity).
  unfold write_value, number. destruct (Z.ltb_spec n 0).
  - eexists _, _. split; reflexivity.
  - destruct (digits_aux_cons 19 n [] ltac:(lia) ltac:(left; lia)) as (c & t & E).
    pose proof (digits_aux_digits 19 n [] ltac:(lia) (List.Forall_nil _)) as Hd.
    rewrite E in Hd |- *. exists c, t. split; [done|].
    apply Forall_cons_1 in Hd as [Hc _]. revert Hc. unfold is_digit, value_start, is_space.
    intros Hc. zbool_hyps. zcase; reflexivity.
Qed.

Lemma encode_cons_ascii c bs : 0 <= c < 0x80 -> Utf8.encode (c :: bs) = c :: Utf8.encode bs.
Proof. intros Hc. by rewrite Utf8.encode_cons, Utf8.encode_cp_ascii. Qed.

(** ** Keys *)

Lemma key_lt_irrefl k : key_lt k k = false.
Proof. induction k as [|x k IH]; [done|]. simpl. by rewrite Z.ltb_irrefl, Z.eqb_refl, IH. Qed.

Lemma key_lt_trans a b c : key_lt a b = true -> key_lt b c = true -> key_lt a c = true.
Proof.
  revert b c. induction a as [|x a IH]; intros [|y b] [|z c]; simpl; try done.
  rewrite !orb_true_iff, !andb_true_iff, !Z.ltb_lt, !Z.eqb_eq.
  intros [H1|[-> H1]] [H2|[-> H2]]; [left; lia|left; lia|left; lia|right; split; eauto].
Qed.

Lemma key_lt_asym a b : key_lt a b = true -> key_lt b a = false.
Proof.
  intros H. destruct (key_lt b a) eqn:E; [|done].
  pose proof (key_lt_trans _ _ _ H E) as Hc. by rewrite key_lt_irrefl in Hc.
Qed.

(** In a sorted list of keys, every key before [k] is below it. *)
Lemma keys_sorted_lt xs k ys :
  keys_sorted (xs ++ k :: ys) = true -> forall x, In x xs -> key_lt x k = true.
Proof.
  induction xs as [|x0 xs IH]; intros H x Hx; [done|].
  destruct xs as [|x1 xs'].
  - simpl in H. apply andb_prop in H as [H _]. destruct Hx as [<-|[]]. exact H.
  - cbn [app keys_sorted] in H. apply andb_prop in H as [H01 H].
    destruct Hx as [<-|Hx]; [|exact (IH H x Hx)].
    apply (key_lt_trans _ x1); [exact H01|]. apply (IH H x1). left. done.
Qed.

(** [QJsonObject::insert] of a key above all the others appends it. *)
Lemma insert_member_last k v acc :
  (forall k', In k' (map fst acc) -> key_lt k' k = true) ->
  insert_member k v acc = acc ++ [(k, v)].
Proof.
  induction acc as [|[k' v'] acc IH]; intros H; [done|]. simpl.
  rewrite (key_lt_asym k' k), (H k') by (apply H || idtac; left; done).
  f_equal. apply IH. intros k'' Hk. apply H. right. exact Hk.
Qed.

(** ** Cost and depth *)

(** The fuel the parser spends on a value. *)
Fixpoint cost (v : value) : nat :=
  match v with
  | Array l => 2 + sum_list_with (fun e => S (cost e)) l
  | Object m => 2 + sum_list_with (fun '(_, e) => S (cost e)) m
  | _ => 1
  end.

Lemma depth_elem e l : In e l -> (depth e <= foldr Nat.max 0%nat (map depth l))%nat.
Proof.
  induction l as [|x l IH]; [intros []|intros [<-|Hin]]; simpl; [lia|specialize (IH Hin); lia].
Qed.

Lemma depth_member (k : list Z) (e : value) (m : list (list Z * value)) :
  In (k, e) m -> (depth e <= foldr Nat.max 0%nat (map (fun '(_, e) => depth e) m))%nat.
Proof.
  induction m as [|[k' x] m IH]; [intros []|intros [Heq|Hin]]; simpl;
    [inversion Heq; subst; lia|specialize (IH Hin); lia].
Qed.

(** ** Arrays and objects *)

(** What [parseValue] does on the text of a value, whatever follows. *)
Definition value_rt (v : value) : Prop :=
  wf_value v = true -> forall ind level fuel rest,
    (level + depth v <= nesting_limit)%nat -> (cost v <= fuel)%nat -> num_end rest = true ->
    parse_value fuel level (Utf8.encode (write_value ind v) ++ rest) = Some (v, rest).

(** The separator after an element or member and the lines after it. *)
Definition sep_tail (items : list (list Z)) : list Z :=
  match items with [] => [10] | _ => [44; 10] ++ sep_lines items end.

Lemma sep_lines_cons x xs : sep_lines (x :: xs) = x ++ sep_tail xs.
Proof. by destruct xs. Qed.

(** The text of a value followed by more starts with a byte that may
    start a value. *)
Lemma encode_write_cons ind v X :
  exists c t, Utf8.encode (write_value ind v) ++ X = c :: t /\ value_start c = true.
Proof.
  destruct (write_value_head ind v) as (c & t & -> & Hc).
  exists c, (Utf8.encode t ++ X). split; [|exact Hc].
  rewrite encode_cons_ascii; [done|]. unfold value_start in Hc. zbool_hyps. lia.
Qed.

Lemma eat_space_value ind v X :
  eat_space (Utf8.encode (write_value ind v) ++ X) = Utf8.encode (write_value ind v) ++ X.
Proof.
  destruct (encode_write_cons ind v X) as (c & t & E & Hc). rewrite E.
  apply eat_space_stop. unfold value_start in Hc. zbool_hyps. done.
Qed.

Lemma eat_space_line_value k ind v X :
  eat_space (10 :: indent_string k ++ Utf8.encode (write_value ind v) ++ X) =
  Utf8.encode (write_value ind v) ++ X.
Proof.
  change (eat_space (10 :: ?x)) with (eat_space x). rewrite eat_space_indent. apply eat_space_value.
Qed.

Lemma encode_indent_only k : Utf8.encode (indent_string k) = indent_string k.
Proof. apply Utf8.encode_ascii, indent_ascii. Qed.

Lemma encode_nil_eq : Utf8.encode [] = [].
Proof. reflexivity. Qed.

(** Push [Utf8.encode] through the ASCII parts of the writer's text. *)
Ltac enc_simpl :=
  repeat first [ rewrite Utf8.encode_app | rewrite encode_indent_only
               | rewrite encode_cons_ascii by lia | rewrite encode_nil_eq
               | rewrite <- app_comm_cons | rewrite app_nil_l | rewrite <- app_assoc ].

Lemma next_token_eq bs b r :
  eat_space bs = b :: r -> next_token bs = (if is_token b then b else 0, r).
Proof. unfold next_token. by intros ->. Qed.

(** After a line end and an indentation, [nextToken] finds the token. *)
Lemma next_token_line k c rest :
  is_space c = false -> is_token c = true -> next_token (10 :: indent_string k ++ c :: rest) = (c, rest).
Proof.
  intros Hs Ht. rewrite (next_token_eq _ c rest), Ht; [done|].
  change (eat_space (10 :: indent_string k ++ c :: rest)) with (eat_space (indent_string k ++ c :: rest)).
  rewrite eat_space_indent. by apply eat_space_stop.
Qed.

Lemma next_token_here c rest :
  is_space c = false -> is_token c = true -> next_token (c :: rest) = (c, rest).
Proof. intros Hs Ht. rewrite (next_token_eq _ c rest), Ht; [done|]. by apply eat_space_stop. Qed.

(** Take a [match] on the text of a value, which is never empty, to its
    second branch. *)
Ltac value_match :=
  match goal with
  | |- context [match Utf8.encode (write_value ?i ?v) ++ ?X with _ => _ end] =>
    let c := fresh "c" in let t := fresh "t" in let Ec := fresh "Ec" in
    destruct (encode_write_cons i v X) as (c & t & Ec & _); rewrite Ec; rewrite <- Ec
  end.

Lemma parse_elements_rt ind level e l fuel rest :
  Forall value_rt (e :: l) -> forallb wf_value (e :: l) = true ->
  Forall (fun e => (level + depth e <= nesting_limit)%nat) (e :: l) ->
  (sum_list_with (fun e => S (cost e)) (e :: l) <= fuel)%nat ->
  parse_elements fuel level
    (Utf8.encode (write_value (S ind) e) ++
     Utf8.encode (sep_tail (map (fun e => indent_string (S ind) ++ write_value (S ind) e) l)) ++
     indent_string ind ++ 93 :: rest) = Some (e :: l, rest).
Proof.
  revert e fuel. induction l as [|e' l IH]; intros e fuel Hrt Hwf Hd Hf;
    apply Forall_cons_1 in Hrt as [He Hrt]; cbn [forallb] in Hwf; apply andb_prop in Hwf as [Hwe Hwf];
    apply Forall_cons_1 in Hd as [Hde Hd];
    (destruct fuel as [|fuel]; [simpl in Hf; lia|]); cbn [parse_elements sep_tail map].
  - enc_simpl. rewrite (He Hwe (S ind) level fuel); [|lia|simpl in Hf; lia|reflexivity].
    cbn [mbind option_bind]. rewrite next_token_line by reflexivity. reflexivity.
  - rewrite sep_lines_cons. enc_simpl.
    rewrite (He Hwe (S ind) level fuel); [|lia|simpl in Hf; lia|reflexivity].
    cbn [mbind option_bind]. rewrite next_token_here by reflexivity. cbv beta iota.
    rewrite eat_space_line_value.
    destruct (encode_write_cons (S ind) e' (Utf8.encode (sep_tail (map (fun e => indent_string (S ind) ++ write_value (S ind) e) l)) ++ indent_string ind ++ 93 :: rest)) as (c & t & Ec & _).
    rewrite Ec. rewrite <- Ec.
    rewrite IH; [reflexivity|exact Hrt|exact Hwf|exact Hd|simpl in Hf |- *; lia].
Qed.

Lemma parse_array_rt ind level l fuel rest :
  Forall value_rt l -> forallb wf_value l = true -> (level <= nesting_limit)%nat ->
  Forall (fun e => (level + depth e <= nesting_limit)%nat) l ->
  (S (sum_list_with (fun e => S (cost e)) l) <= fuel)%nat ->
  parse_array fuel level
    (10 :: Utf8.encode (sep_lines (map (fun e => indent_string (S ind) ++ write_value (S ind) e) l)) ++
     indent_string ind ++ 93 :: rest) = Some (l, rest).
Proof.
  intros Hrt Hwf Hl Hd Hf. destruct fuel as [|fuel]; [lia|]. cbn [parse_array].
  rewrite (proj2 (Nat.ltb_ge _ _) Hl).
  destruct l as [|e l].
  - cbn [map sep_lines]. rewrite encode_nil_eq. cbn [app].
    change (eat_space (10 :: ?x)) with (eat_space x).
    rewrite eat_space_indent, eat_space_stop by reflexivity. reflexivity.
  - cbn [map]. rewrite sep_lines_cons. enc_simpl. rewrite eat_space_line_value.
    destruct (encode_write_cons (S ind) e
      (Utf8.encode (sep_tail (map (fun e => indent_string (S ind) ++ write_value (S ind) e) l)) ++
       indent_string ind ++ 93 :: rest)) as (c & t & Ec & Hc).
    rewrite Ec. unfold value_start in Hc. zbool_hyps. rewrite (proj2 (Z.eqb_neq c 93)) by lia.
    rewrite <- Ec. apply parse_elements_rt; [done|done|done|simpl in Hf |- *; lia].
Qed.

Lemma parse_members_rt ind level k e m acc fuel rest :
  Forall (fun kv => value_rt kv.2) ((k, e) :: m) ->
  forallb (fun '(k, e) => forallb is_unit k && wf_value e) ((k, e) :: m) = true ->
  keys_sorted (map fst (acc ++ (k, e) :: m)) = true ->
  Forall (fun kv => (level + depth kv.2 <= nesting_limit)%nat) ((k, e) :: m) ->
  (sum_list_with (fun '(_, e) => S (cost e)) ((k, e) :: m) <= fuel)%nat ->
  parse_members fuel level
    (Utf8.encode (escaped k) ++ 34 :: 58 :: 32 :: Utf8.encode (write_value (S ind) e) ++
     Utf8.encode (sep_tail (map (fun '(k, e) => indent_string (S ind) ++ 34 :: escaped k
                                              ++ [34; 58; 32] ++ write_value (S ind) e) m)) ++
     indent_string ind ++ 125 :: rest) acc = Some (acc ++ (k, e) :: m, rest).
Proof.
  revert k e acc fuel. induction m as [|[k' e'] m IH]; intros k e acc fuel Hrt Hwf Hs Hd Hf;
    apply Forall_cons_1 in Hrt as [He Hrt]; cbn [forallb] in Hwf;
    apply andb_prop in Hwf as [Hke Hwf]; apply andb_prop in Hke as [Hk Hwe];
    apply Forall_cons_1 in Hd as [Hde Hd]; simpl in He, Hde;
    (destruct fuel as [|fuel]; [simpl in Hf; lia|]); cbn [parse_members sep_tail map];
    (unfold parse_string; rewrite scan_escaped; [|exact Hk|rewrite length_app; simpl; lia]);
    cbn [mbind option_bind]; rewrite next_token_here by reflexivity; cbv beta iota;
    change (eat_space (32 :: ?x)) with (eat_space x); rewrite eat_space_value;
    pose proof Hs as Hs0; rewrite map_app in Hs; simpl in Hs;
    assert (Hins : insert_member k e acc = acc ++ [(k, e)])
      by (apply insert_member_last, (keys_sorted_lt _ _ _ Hs)).
  - enc_simpl. value_match.
    rewrite (He Hwe (S ind) level fuel); [|lia|simpl in Hf; lia|reflexivity].
    cbn [mbind option_bind]. rewrite next_token_line by reflexivity. by rewrite Hins.
  - rewrite sep_lines_cons. enc_simpl. value_match.
    rewrite (He Hwe (S ind) level fuel); [|lia|simpl in Hf; lia|reflexivity].
    cbn [mbind option_bind]. rewrite next_token_here by reflexivity. cbv beta iota.
    rewrite next_token_line by reflexivity. cbv beta iota. rewrite Hins.
    rewrite IH; [by rewrite <- app_assoc|exact Hrt|exact Hwf|by rewrite <- app_assoc|exact Hd|].
    simpl in Hf |- *. lia.
Qed.

Lemma parse_object_rt ind level m fuel rest :
  Forall (fun kv => value_rt kv.2) m ->
  forallb (fun '(k, e) => forallb is_unit k && wf_value e) m = true ->
  keys_sorted (map fst m) = true -> (level <= nesting_limit)%nat ->
  Forall (fun kv => (level + depth kv.2 <= nesting_limit)%nat) m ->
  (S (sum_list_with (fun '(_, e) => S (cost e)) m) <= fuel)%nat ->
  parse_object fuel level
    (10 :: Utf8.encode (sep_lines (map (fun '(k, e) => indent_string (S ind) ++ 34 :: escaped k
                                                     ++ [34; 58; 32] ++ write_value (S ind) e) m)) ++
     indent_string ind ++ 125 :: rest) = Some (m, rest).
Proof.
  intros Hrt Hwf Hs Hl Hd Hf. destruct fuel as [|fuel]; [lia|]. cbn [parse_object].
  rewrite (proj2 (Nat.ltb_ge _ _) Hl).
  destruct m as [|[k e] m].
  - cbn [map sep_lines]. rewrite encode_nil_eq, app_nil_l.
    rewrite next_token_line by reflexivity. reflexivity.
  - cbn [map]. rewrite sep_lines_cons. enc_simpl. rewrite next_token_line by reflexivity.
    cbv beta iota. rewrite (parse_members_rt ind level k e m []); [done|done|done|done|done|].
    simpl in Hf |- *. lia.
Qed.

Lemma literal_ok word v rest : literal word v (word ++ rest) = Some (v, rest).
Proof. unfold literal. rewrite take_app_length, drop_app_length, bool_decide_true; done. Qed.

Lemma number_shape n :
  exists d t, number n = d :: t /\ (d = 45 \/ 48 <= d <= 57) /\ Forall (fun c => 45 <= c <= 57) (d :: t).
Proof.
  assert (Hdig : forall m, 0 <= m -> exists d t, digits_aux 19 m [] = d :: t /\ 48 <= d <= 57 /\
                                              Forall (fun c => 45 <= c <= 57) (d :: t)).
  { intros m Hm. destruct (digits_aux_cons 19 m [] Hm ltac:(left; lia)) as (d & t & E).
    pose proof (digits_aux_digits 19 m [] Hm (List.Forall_nil _)) as Hd. rewrite E in Hd.
    exists d, t. split; [done|]. split.
    - apply Forall_cons_1 in Hd as [Hd _]. unfold is_digit in Hd. zbool_hyps. lia.
    - eapply List.Forall_impl; [|exact Hd]. intros c Hc. unfold is_digit in Hc. zbool_hyps. lia. }
  unfold number. destruct (Z.ltb_spec n 0).
  - destruct (Hdig (- n) ltac:(lia)) as (d & t & -> & _ & Ha).
    exists 45, (d :: t). split; [done|]. split; [lia|]. constructor; [lia|exact Ha].
  - destruct (Hdig n ltac:(lia)) as (d & t & -> & Hd & Ha). exists d, t. split; [done|]. split; [lia|exact Ha].
Qed.

(** [parseValue] reads back the text of every well-formed value. *)
Lemma value_roundtrip v : value_rt v.
Proof.
  induction v as [| b | n | s | l IH | m IH] using value_ind'; unfold value_rt;
    intros Hwf ind level fuel rest Hd Hf Hr; (destruct fuel as [|fuel]; [simpl in Hf; lia|]).
  - cbn [write_value]. enc_simpl. cbn [parse_value]. zclosed. apply (literal_ok [117; 108; 108]).
  - destruct b; cbn [write_value]; enc_simpl; cbn [parse_value]; zclosed.
    + apply (literal_ok [114; 117; 101]).
    + apply (literal_ok [97; 108; 115; 101]).
  - destruct (number_shape n) as (d & t & En & Hd0 & Ha). cbn [write_value].
    rewrite En, Utf8.encode_ascii by (eapply List.Forall_impl; [|exact Ha]; simpl; lia).
    cbn [app parse_value]. zcase.
    change (d :: t ++ rest) with ((d :: t) ++ rest). rewrite <- En.
    by apply parse_number_number.
  - cbn [write_value]. enc_simpl. cbn [parse_value]. zclosed.
    unfold parse_string. cbn [wf_value] in Hwf. rewrite scan_escaped; [reflexivity|exact Hwf|].
    rewrite length_app. simpl. lia.
  - cbn [write_value]. enc_simpl. cbn [parse_value]. zclosed.
    cbn [wf_value] in Hwf. cbn [depth] in Hd. cbn [cost] in Hf.
    rewrite (parse_array_rt ind (S level) l fuel rest); [reflexivity|exact IH|exact Hwf|lia| |lia].
    apply List.Forall_forall. intros e He. pose proof (depth_elem e l He). lia.
  - cbn [write_value]. enc_simpl. cbn [parse_value]. zclosed.
    cbn [wf_value] in Hwf. apply andb_prop in Hwf as [Hs Hwf]. cbn [depth] in Hd. cbn [cost] in Hf.
    rewrite (parse_object_rt ind (S level) m fuel rest); [reflexivity|exact IH|exact Hwf|exact Hs|lia| |lia].
    apply List.Forall_forall. intros [k e] He. pose proof (depth_member k e m He). simpl. lia.
Qed.

(** ** The text of a document *)

(** A character [toJson] may write: a scalar value, never a carriage
    return. *)
Definition text_char (c : Z) : bool := Utf8.is_scalar c && negb (c =? 13).

Lemma ascii_text c : 0 <= c < 0x80 -> c <> 13 -> text_char c = true.
Proof. intros Hc H13. unfold text_char, Utf8.is_scalar, Utf8.is_surrogate. zcase; reflexivity. Qed.

Lemma hexdig_text d : 0 <= d < 16 -> text_char (hexdig d) = true.
Proof. intros Hd. pose proof (hexdig_range d Hd). apply ascii_text; lia. Qed.

Lemma escape_u_text u : forallb text_char (escape_u u) = true.
Proof.
  unfold escape_u. rewrite !(land_mask _ 4) by lia. cbn [forallb].
  rewrite !hexdig_text by (apply Z.mod_pos_bound; lia). reflexivity.
Qed.

Lemma escape_ascii_text u : 0 <= u < 0x80 -> forallb text_char (escape_ascii u) = true.
Proof.
  intros Hu. unfold escape_ascii. rewrite (land_mask _ 4) by lia.
  zcase; cbn [forallb]; try reflexivity.
  - rewrite !hexdig_text by (rewrite ?Z.shiftr_div_pow2 by lia; pow_consts; zlia). reflexivity.
  - rewrite ascii_text by lia. reflexivity.
Qed.

Lemma escaped_text us : forallb is_unit us = true -> forallb text_char (escaped us) = true.
Proof.
  induction us as [us IH] using (induction_ltof1 _ (@length Z)).
  destruct us as [|u r]; [done|]. cbn [forallb]. intros [Hu Hr]%andb_prop.
  assert (Hu' := Hu). unfold is_unit in Hu'. zbool_hyps. cbn [escaped].
  assert (IHr : forallb text_char (escaped r) = true) by (apply IH; [unfold ltof; simpl; lia|done]).
  destruct (Z.ltb_spec u 0x80).
  { rewrite forallb_app, escape_ascii_text, IHr by lia. reflexivity. }
  destruct (is_high u) eqn:Hh.
  - destruct r as [|lo r'].
    + apply escape_u_text.
    + destruct (is_low lo) eqn:Hl.
      * destruct (surrogates_roundtrip u lo Hh Hl) as (Hs & Hc & _). cbn [forallb].
        cbn [forallb] in Hr. apply andb_prop in Hr as [_ Hr'].
        rewrite IH by (unfold ltof; simpl; lia || done).
        unfold text_char. rewrite Hs. zcase. reflexivity.
      * rewrite forallb_app, escape_u_text, IHr. reflexivity.
  - destruct (is_low u) eqn:Hl.
    + rewrite forallb_app, escape_u_text, IHr. reflexivity.
    + cbn [forallb app]. rewrite IHr. revert Hh Hl.
      unfold is_high, is_low, text_char, Utf8.is_scalar, Utf8.is_surrogate.
      intros Hh Hl. zcase; reflexivity.
Qed.

Lemma indent_text k : forallb text_char (indent_string k) = true.
Proof. unfold indent_string. induction (4 * k)%nat as [|j IH]; [done|]. exact IH. Qed.

Lemma forallb_sep_lines (P : Z -> bool) xs :
  P 44 = true -> P 10 = true -> Forall (fun x => forallb P x = true) xs ->
  forallb P (sep_lines xs) = true.
Proof.
  intros H44 H10. induction 1 as [|x xs Hx _ IH]; [done|].
  rewrite sep_lines_cons, forallb_app, Hx. unfold sep_tail.
  destruct xs; cbn [forallb app]; rewrite ?H10, ?H44; [done|]. exact IH.
Qed.

Lemma write_value_text ind v : wf_value v = true -> forallb text_char (write_value ind v) = true.
Proof.
  revert ind. induction v as [| b | n | s | l IH | m IH] using value_ind'; intros ind Hwf.
  - reflexivity.
  - by destruct b.
  - cbn [write_value]. destruct (number_shape n) as (d & t & -> & _ & Ha).
    apply forallb_forall. intros c Hc. rewrite List.Forall_forall in Ha.
    specialize (Ha c Hc). apply ascii_text; lia.
  - cbn [write_value forallb]. rewrite forallb_app, escaped_text by exact Hwf. reflexivity.
  - cbn [write_value wf_value] in Hwf |- *. rewrite !forallb_app, indent_text.
    rewrite forallb_sep_lines; [reflexivity|reflexivity|reflexivity|].
    rewrite List.Forall_forall in IH |- *. intros x Hx. apply in_map_iff in Hx as (e & <- & He).
    rewrite forallb_app, indent_text, IH; [done|done|].
    rewrite forallb_forall in Hwf. by apply Hwf.
  - cbn [write_value wf_value] in Hwf |- *. apply andb_prop in Hwf as [_ Hwf].
    rewrite !forallb_app, indent_text.
    rewrite forallb_sep_lines; [reflexivity|reflexivity|reflexivity|].
    rewrite List.Forall_forall in IH |- *. intros x Hx. apply in_map_iff in Hx as ([k e] & <- & He).
    rewrite forallb_forall in Hwf. specialize (Hwf _ He). apply andb_prop in Hwf as [Hk He'].
    rewrite forallb_app, indent_text. cbn [forallb app].
    rewrite forallb_app, escaped_text by exact Hk. cbn [forallb].
    rewrite (IH (k, e) He (S ind) He' : forallb text_char (write_value (S ind) e) = true). reflexivity.
Qed.

Lemma text_props s : forallb text_char s = true -> Utf8.scalars s = true /\ ~ In 13 s.
Proof.
  intros H. rewrite forallb_forall in H. split.
  - apply forallb_forall. intros c Hc. specialize (H c Hc). unfold text_char in H.
    by apply andb_prop in H as [? _].
  - intros H13. specialize (H 13 H13). discriminate.
Qed.

(** ** Enough fuel *)

Lemma sum_list_with_mono {A} (f g : A -> nat) l :
  Forall (fun x => (f x <= g x)%nat) l -> (sum_list_with f l <= sum_list_with g l)%nat.
Proof. induction 1; simpl; lia. Qed.

Lemma sum_list_with_map {A B} (f : B -> nat) (g : A -> B) l :
  sum_list_with f (map g l) = sum_list_with (fun x => f (g x)) l.
Proof. induction l as [|x l IH]; simpl; [done|]. by rewrite IH. Qed.

Lemma sep_lines_length xs : (sum_list_with (fun x => S (length x)) xs <= length (sep_lines xs))%nat.
Proof.
  induction xs as [|x xs IH]; [done|]. rewrite sep_lines_cons, length_app. unfold sep_tail.
  destruct xs; simpl in *; rewrite ?length_app; simpl; lia.
Qed.

(** The parser never needs more fuel than the length of the text. *)
Lemma cost_le_length ind v : (cost v <= length (write_value ind v))%nat.
Proof.
  revert ind. induction v as [| b | n | s | l IH | m IH] using value_ind'; intros ind.
  - simpl; lia.
  - destruct b; simpl; lia.
  - cbn [write_value cost]. destruct (number_shape n) as (d & t & -> & _). simpl. lia.
  - simpl. lia.
  - cbn [write_value cost]. rewrite !length_app.
    pose proof (sep_lines_length (map (fun e => indent_string (S ind) ++ write_value (S ind) e) l)) as H.
    rewrite sum_list_with_map in H.
    enough ((sum_list_with (fun e => S (cost e)) l <=
             sum_list_with (fun e => S (length (indent_string (S ind) ++ write_value (S ind) e))) l)%nat)
      by (cbn [length] in *; lia).
    apply sum_list_with_mono. rewrite List.Forall_forall in IH |- *. intros e He.
    rewrite length_app. specialize (IH e He (S ind)). lia.
  - cbn [write_value cost]. rewrite !length_app.
    pose proof (sep_lines_length (map (fun '(k, e) => indent_string (S ind) ++ 34 :: escaped k
                                        ++ [34; 58; 32] ++ write_value (S ind) e) m)) as H.
    rewrite sum_list_with_map in H.
    enough ((sum_list_with (fun '(_, e) => S (cost e)) m <=
             sum_list_with (fun x : list Z * value => S (length ((fun '(k, e) => indent_string (S ind) ++ 34%Z :: escaped k
                                        ++ [34%Z; 58%Z; 32%Z] ++ write_value (S ind) e) x))) m)%nat)
      by (cbn [length] in *; lia).
    apply sum_list_with_mono. rewrite List.Forall_forall in IH |- *. intros [k e] He.
    rewrite !length_app. specialize (IH (k, e) He (S ind)). simpl in IH |- *. rewrite !length_app. simpl. lia.
Qed.

(** ** [fromJson (toJson d) = d] *)

Lemma fromJson_toJson_doc d : loadable d -> d <> NullDoc -> fromJson (QJson.toJson d) = d.
Proof.
  destruct d as [|l|m]; intros Hl Hn; [done| |]; unfold loadable in Hl; simpl in Hl;
    destruct Hl as [Hwf Hd]; unfold fromJson, QJson.toJson, toJson_text.
  - assert (Hf : (cost (Array l) <= length (Utf8.encode (write_value 0 (Array l) ++ [10%Z])))%nat).
    { pose proof (cost_le_length 0 (Array l)). pose proof (encode_length_ge (write_value 0 (Array l) ++ [10])).
      rewrite length_app in *. lia. }
    revert Hf. generalize (length (Utf8.encode (write_value 0 (Array l) ++ [10]))). intros len Hf.
    cbn [write_value] in Hf |- *. enc_simpl. unfold parse.
    change (eat_bom (91 :: ?x)) with (91 :: x). rewrite next_token_here by reflexivity. cbv beta iota.
    cbn [wf_value depth cost] in Hwf, Hd, Hf.
    change (10 :: ?a ++ [93; 10]) with (10 :: a ++ indent_string 0 ++ 93 :: [10]).
    rewrite (parse_array_rt 0 1 l (S (3 * len)) [10]); [reflexivity| | exact Hwf | cbv; lia | | lia].
    + apply List.Forall_forall. intros e _. apply value_roundtrip.
    + apply List.Forall_forall. intros e He. pose proof (depth_elem e l He). lia.
  - assert (Hf : (cost (Object m) <= length (Utf8.encode (write_value 0 (Object m) ++ [10%Z])))%nat).
    { pose proof (cost_le_length 0 (Object m)). pose proof (encode_length_ge (write_value 0 (Object m) ++ [10])).
      rewrite length_app in *. lia. }
    revert Hf. generalize (length (Utf8.encode (write_value 0 (Object m) ++ [10]))). intros len Hf.
    cbn [write_value] in Hf |- *. enc_simpl. unfold parse.
    change (eat_bom (123 :: ?x)) with (123 :: x). rewrite next_token_here by reflexivity. cbv beta iota.
    cbn [wf_value depth cost] in Hwf, Hd, Hf. apply andb_prop in Hwf as [Hs Hwf].
    change (10 :: ?a ++ [125; 10]) with (10 :: a ++ indent_string 0 ++ 125 :: [10]).
    rewrite (parse_object_rt 0 1 m (S (3 * len)) [10]); [reflexivity| | exact Hwf | exact Hs | cbv; lia | | lia].
    + apply List.Forall_forall. intros [k e] _. apply value_roundtrip.
    + apply List.Forall_forall. intros [k e] He. pose proof (depth_member k e m He). simpl. lia.
Qed.

(** ** [QJsonDocument] implements the interface [jnc::Json] relies on *)

#[export] Instance qjson_document : JsonDocument document :=
  {| null_document := NullDoc; JsonDocument.toJson := QJson.toJson;
     JsonDocument.fromJson := QJsonParser.fromJson; JsonDocument.valid := QJson.valid;
     JsonDocument.loadable := QJson.loadable |}.

#[export] Instance qjson_laws : JsonDocumentLaws document.
Proof.
  constructor; cbn.
  - intros d. split; [|intros ->; reflexivity].
    destruct d as [|l|m]; [done| |]; unfold QJson.toJson, toJson_text; cbn [write_value]; enc_simpl;
      discriminate.
  - intros d Hv. exists (toJson_text d). split; [reflexivity|].
    assert (Ht : forallb text_char (toJson_text d) = true).
    { destruct d as [|l|m]; [done| |]; unfold toJson_text; rewrite forallb_app, write_value_text by exact Hv;
        reflexivity. }
    destruct (text_props _ Ht) as [Hs Hcr]. split; [done|]. split; [done|].
    destruct d; cbn; discriminate.
  - intros d. unfold QJson.loadable, QJson.valid. destruct (value_of d); tauto.
  - exact fromJson_toJson_doc.
Qed.

End QJsonLaws.
