(* ===== verification/Json.v ===== *)
(** * [jnc::Json] (src/Qt/Json.h, src/Qt/Json.cpp)

    [dump] and [load] each put a [File] on the stack, call its methods, and
    leave the scope, where the destructor closes the [QFile]: they are
    operations of the state monad on the file system alone.  They are
    written for any [JsonDocument] and proved against [JsonDocumentLaws],
    in the [WithDocument] section.  After it, with Qt's documents: what
    [load] makes of a file that is not UTF-8, and examples on the sample
    file system. *)

From S2P Require Import Prelude Utf8 FileSystem QFile File JsonDocument.
From S2P Require Import QJsonWriter QJsonParser QJsonFuel QJson.
From stdpp Require Import base list gmap strings.
From Stdlib Require Import ZArith Lia.
Open Scope Z_scope.

Module Json.
Import ErrorCode.

(** [QString::isEmpty]. *)
Definition isEmpty (s : list Z) : bool :=
  match s with [] => true | _ => false end.

Section WithDocument.
Context {D : Type} `{JsonDocument D}.

(** [Json::dump(fileName, jsonDoc)]: [File::write] takes a [QString], so
    the [QByteArray] of [toJson()] goes through [QString::fromUtf8]. *)
Definition dump (fileName : string) (jsonDoc : D) : State FS.t unit := fun fs =>
  let body : State File.world unit :=
    err ← File.open fileName (OpenMode.value OpenMode.write);
    if decide (err <> NoError) then mret tt else
    File.write (Utf8.decode (toJson jsonDoc));;
    File.close in
  let '(_, (fs', _)) := (body;; File.destruct) (fs, File.construct) in
  (tt, fs').

(** [Json::load(fileName)]: [data.toUtf8()] is [Utf8.encode data]. *)
Definition load (fileName : string) : State FS.t D := fun fs =>
  let body : State File.world D :=
    err ← File.open fileName (OpenMode.value OpenMode.read);
    if decide (err <> NoError) then mret null_document else
    data ← File.read;
    File.close;;
    mret (if negb (isEmpty data) then fromJson (Utf8.encode data) else null_document) in
  let '(doc, (fs', _)) := (doc ← body; File.destruct;; mret doc) (fs, File.construct) in
  (doc, fs').

(** ** When [open] fails *)

Lemma destruct_closed fs f :
  QFile.isOpen f = false -> File.destruct (fs, f) = (tt, (fs, f)).
Proof. intros Hc. unfold File.destruct. simpl. by rewrite Hc. Qed.

(** [load] returns the null document and changes nothing when its
    [open] fails. *)
Lemma load_open_error name fs :
  (File.open name (OpenMode.value OpenMode.read) (fs, File.construct)).1 <> NoError ->
  load name fs = (null_document, fs).
Proof.
  intros Herr. destruct (File.open_error_state name (OpenMode.value OpenMode.read) fs
                           File.construct eq_refl Herr) as (f' & Ew & Hc).
  unfold load, mbind, state_bind at 1 2 3.
  destruct (File.open _ _ _) as [err w] eqn:Eo. simpl in Herr, Ew. subst w.
  rewrite decide_True by done. unfold mbind, state_bind, mret, state_ret.
  by rewrite destruct_closed.
Qed.

(** [dump] changes nothing when its [open] fails. *)
Lemma dump_open_error name d fs :
  (File.open name (OpenMode.value OpenMode.write) (fs, File.construct)).1 <> NoError ->
  dump name d fs = (tt, fs).
Proof.
  intros Herr. destruct (File.open_error_state name (OpenMode.value OpenMode.write) fs
                           File.construct eq_refl Herr) as (f' & Ew & Hc).
  unfold dump, mbind, state_bind at 1 2.
  destruct (File.open _ _ _) as [err w] eqn:Eo. simpl in Herr, Ew. subst w.
  rewrite decide_True by done. unfold mbind, state_bind, mret, state_ret.
  by rewrite destruct_closed.
Qed.

(** ** [load] and [dump] on a file that opens *)

(** [load] of a file that opens: the text read from it (carriage returns
    removed, a leading byte-order mark skipped) is parsed unless it is
    empty, in which case the result is the null document without a
    parse. *)
Lemma load_existing name fs p :
  FS.cdUp fs name = true -> QFile.can_open fs name false p ->
  let data := QFile.drop_cr (Utf8.decode_stream (QFile.contents fs p)) in
  load name fs = (if negb (isEmpty data) then fromJson (Utf8.encode data) else null_document, fs).
Proof.
  intros Hc Ho. unfold load, mbind at 1 2 3, state_bind at 1 2 3.
  rewrite (File.open_success _ _ OpenMode.read _ _ p) by done. simpl.
  assert (Hfs : QFile.set_contents fs p (QFile.contents fs p) = fs).
  { destruct Ho as (_ & dir & n & _ & _ & _ & _ & [[c Hc']|[? _]]); [|discriminate].
    apply QFile.set_contents_id. unfold QFile.contents. by rewrite Hc'. }
  rewrite Hfs. unfold mbind, state_bind, mret, state_ret. simpl. reflexivity.
Qed.

(** C13: [load] of a name at which the kernel finds no file returns the
    null document and changes nothing; no error reaches the caller. *)
Theorem load_missing name fs :
  (forall dir n, FS.resolve fs name = Some (FS.TEntry dir n) -> FS.files fs !! (dir ++ [n]) = None) ->
  load name fs = (null_document, fs).
Proof.
  intros Hno. apply load_open_error.
  destruct (FS.cdUp fs name) eqn:Hc; [|rewrite File.open_eq, Hc; simpl; discriminate].
  rewrite (File.open_failure _ _ OpenMode.read); [discriminate|exact Hc|reflexivity|reflexivity|].
  intros p (_ & dir & n & Hr & -> & _ & _ & [[c Hc']|[? _]]); [|discriminate].
  rewrite Hno in Hc' by exact Hr. discriminate.
Qed.

(** C14: [load] of a file whose text is empty (an empty file, or one that
    holds only carriage returns, or only a byte-order mark) returns the
    null document, whatever the parser would make of it, and changes
    nothing. *)
Theorem load_empty name fs p :
  FS.cdUp fs name = true -> QFile.can_open fs name false p ->
  QFile.drop_cr (Utf8.decode_stream (QFile.contents fs p)) = [] ->
  load name fs = (null_document, fs).
Proof. intros Hc Ho He. rewrite (load_existing name fs p Hc Ho). simpl. by rewrite He. Qed.


(** C20: [load] of a file that holds nothing but blanks (spaces, tabs and
    line feeds, at least one) passes them to the parser: the result is
    [fromJson] of those bytes, the check on line 26 being only for an
    empty text. *)
Theorem load_blank name fs p :
  FS.cdUp fs name = true -> QFile.can_open fs name false p ->
  QFile.contents fs p <> [] ->
  Forall (fun b => b = 32 \/ b = 9 \/ b = 10) (QFile.contents fs p) ->
  load name fs = (fromJson (QFile.contents fs p), fs).
Proof.
  intros Hc Ho Hne Hb. rewrite (load_existing name fs p Hc Ho). cbv zeta.
  destruct (QFile.contents fs p) as [|b bs] eqn:Ec; [done|].
  assert (Ha : Forall (fun b => 0 <= b < 0x80) (b :: bs))
    by (rewrite List.Forall_forall in *; intros x Hx; specialize (Hb x Hx); lia).
  assert (Hcr : QFile.drop_cr (b :: bs) = b :: bs).
  { apply forallb_filter_id, forallb_forall. intros x Hx.
    rewrite List.Forall_forall in Hb. destruct (Hb x Hx) as [->|[->| ->]]; reflexivity. }
  assert (Hbom : Utf8.skip_bom (b :: bs) = b :: bs).
  { inversion Hb as [|? ? Hb0]; subst. unfold Utf8.skip_bom, Utf8.bom.
    by destruct Hb0 as [->|[->| ->]]. }
  unfold Utf8.decode_stream. by rewrite Utf8.decode_ascii, Hbom, Hcr, Utf8.encode_ascii by exact Ha.
Qed.

(** C28: [load] only reads: whatever the name and whatever happens to its
    [open], the file system after [load] is the one before. *)
Theorem load_read_only name fs : (load name fs).2 = fs.
Proof.
  unfold load. cbv zeta. rewrite let_pair_proj. change File.destruct with File.close.
  apply (fun c (H : File.keeps_fs c) => H (fs, File.construct)). File.seq_solve.
Qed.

(** The file system [load] leaves is one that [File]'s methods reach. *)
Lemma load_reach name fs :
  exists w, rtc File.step (fs, File.construct) w /\ (load name fs).2 = w.1.
Proof.
  unfold load. cbv zeta. rewrite let_pair_proj. eexists. split; [|reflexivity].
  change File.destruct with File.close.
  apply (fun c (H : File.reaches c) => H (fs, File.construct)). File.seq_solve.
Qed.

Context `{!JsonDocumentLaws D}.

(** The file system [dump] leaves is one that [File]'s methods reach. *)
Lemma dump_reach name d fs :
  valid d -> exists w, rtc File.step (fs, File.construct) w /\ (dump name d fs).2 = w.1.
Proof.
  intros Hv. destruct (toJson_text d Hv) as (s & Hs & Hsc & _).
  unfold dump. cbv zeta. rewrite let_pair_proj_tt. eexists. split; [|reflexivity].
  change File.destruct with File.close.
  apply (fun c (H : File.reaches c) => H (fs, File.construct)). File.seq_solve.
  apply File.reaches_write. by rewrite Hs, Utf8.decode_encode.
Qed.

(** [dump] of a document to a file that can be written: the file holds
    [toJson()]. *)
Lemma dump_writes name d fs p :
  FS.cdUp fs name = true -> QFile.can_open fs name true p -> valid d ->
  dump name d fs = (tt, QFile.set_contents fs p (toJson d)).
Proof.
  intros Hc Ho Hv. destruct (toJson_text d Hv) as (s & Hs & Hsc & _).
  unfold dump, mbind at 1 2, state_bind at 1 2.
  rewrite (File.open_success _ _ OpenMode.write _ _ p) by done. simpl.
  rewrite Hs, Utf8.decode_encode by exact Hsc.
  unfold mbind, state_bind, mret, state_ret, File.write, QFile.ts_write.
  destruct s as [|c s'].
  - simpl. reflexivity.
  - rewrite QFile.qwrite_ok by reflexivity. simpl.
    autorewrite with jnc_rw.
    change (Z.to_nat 0) with 0%nat. rewrite QFile.write_at_nil. reflexivity.
Qed.

(** [dump] either writes [toJson()] to a file the engine opens for
    writing, or changes nothing. *)
Lemma dump_cases name d fs :
  valid d ->
  (exists p, FS.cdUp fs name = true /\ QFile.can_open fs name true p /\
             dump name d fs = (tt, QFile.set_contents fs p (toJson d))) \/
  dump name d fs = (tt, fs).
Proof.
  intros Hv. destruct (FS.cdUp fs name) eqn:Hc.
  2: { right. apply dump_open_error. rewrite File.open_eq, Hc. discriminate. }
  destruct (QFile.engine_open fs name (QFile.adjust (File.ioMode OpenMode.write))) as [[fs' p]|] eqn:E.
  - left. exists p. apply QFile.engine_open_can_open in E.
    split_and!; [done|exact E|by apply dump_writes].
  - right. apply dump_open_error.
    rewrite (File.open_failure _ _ OpenMode.write); [discriminate|done|reflexivity|reflexivity|].
    intros p Ho. change (File.writable (File.qt_flags OpenMode.write))
      with (QIODevice.has (QFile.adjust (File.ioMode OpenMode.write)) QIODevice.WriteOnly) in Ho.
    by rewrite (QFile.engine_open_ok _ _ _ p Ho) in E.
Qed.

(** [load] after [dump] of a document Qt can hold: the parse of
    [toJson()], or the null document when [toJson()] is empty. *)
Lemma load_after_dump name d fs p :
  FS.cdUp fs name = true -> QFile.can_open fs name true p -> valid d ->
  (load name (dump name d fs).2).1 =
  match toJson d with [] => null_document | _ => fromJson (toJson d) end.
Proof.
  intros Hc Ho Hv. rewrite (dump_writes name d fs p Hc Ho Hv). simpl.
  rewrite (load_existing name _ p); [|by rewrite QFile.cdUp_set_contents|by eapply QFile.can_open_set_contents].
  simpl. autorewrite with jnc_rw.
  destruct (toJson_text d Hv) as (s & Hs & Hsc & Hcr & Hbom).
  rewrite Hs, QFile.text_read_back by assumption.
  destruct s as [|c s']; [reflexivity|].
  simpl. rewrite <- Utf8.encode_cons, <- Hs.
  destruct (toJson d) as [|b bs] eqn:E; [|reflexivity].
  destruct (Utf8.encode_nil (c :: s')) as [He _]. symmetry in Hs. specialize (He Hs). discriminate.
Qed.

(** C1: [load] after [dump] of the same file name returns the document
    dumped, when the file can be written and the document is one the
    parser accepts. *)
Theorem dump_load name d fs p :
  FS.cdUp fs name = true -> QFile.can_open fs name true p -> loadable d ->
  (load name (dump name d fs).2).1 = d.
Proof.
  intros Hc Ho Hl. rewrite (load_after_dump name d fs p Hc Ho (loadable_valid d Hl)).
  destruct (toJson d) as [|b bs] eqn:E.
  - symmetry. by apply toJson_nil.
  - rewrite <- E. apply fromJson_toJson; [exact Hl|]. intros Hn. apply toJson_nil in Hn. congruence.
Qed.


(** C29: the last [dump] wins: a second [dump] to the same name leaves the
    file system the second alone leaves, nothing of the first document
    remaining, since [write] mode truncates the file on [open]. *)
Theorem dump_dump name d1 d2 fs :
  valid d1 -> valid d2 -> (dump name d2 (dump name d1 fs).2).2 = (dump name d2 fs).2.
Proof.
  intros H1 H2. destruct (dump_cases name d1 fs H1) as [(p & Hc & Ho & ->)| ->]; [|reflexivity].
  cbn [snd]. rewrite !(dump_writes name d2 _ p) by
    (rewrite ?QFile.cdUp_set_contents; try apply (QFile.can_open_set_contents _ _ true); done).
  cbn [snd]. by autorewrite with jnc_rw.
Qed.

End WithDocument.

(** ** Instances with Qt's documents on the sample file system *)

Import QJsonLaws.

(** An object with an array: [{"a": [1, "x"]}]. *)
Lemma dump_load_witness :
  let d := QJson.DObject [([97], QJson.Array [QJson.Integer 1; QJson.String [120]])] in
  FS.cdUp FS.sample "out.json" = true /\
  QFile.can_open FS.sample "out.json" true ["home"; "out.json"] /\ loadable d /\
  (load "out.json" (dump "out.json" d FS.sample).2).1 = d.
Proof.
  intros d.
  assert (Hc : FS.cdUp FS.sample "out.json" = true) by (vm_compute; reflexivity).
  assert (Ho : QFile.can_open FS.sample "out.json" true ["home"; "out.json"]) by QFile.solve_can_open.
  assert (Hl : loadable d) by (split; [reflexivity|vm_compute; lia]).
  split_and!; [exact Hc|exact Ho|exact Hl|].
  exact (dump_load "out.json" d FS.sample ["home"; "out.json"] Hc Ho Hl).
Defined.


(** [a.txt] is rewritten with a two-element array, then with the empty
    one: the file is the four bytes of the empty array. *)
Lemma dump_dump_witness :
  let d1 := QJson.DArray [QJson.Integer 1; QJson.Integer 2] in
  let d2 := QJson.DArray [] in
  valid d1 /\ valid d2 /\
  (dump "a.txt" d2 (dump "a.txt" d1 FS.sample).2).2 = (dump "a.txt" d2 FS.sample).2 /\
  QFile.contents (dump "a.txt" d2 (dump "a.txt" d1 FS.sample).2).2 ["home"; "a.txt"] = [91; 10; 93; 10].
Proof.
  intros d1 d2. assert (H1 : valid d1) by reflexivity. assert (H2 : valid d2) by reflexivity.
  split_and!; [exact H1|exact H2|exact (dump_dump "a.txt" d1 d2 FS.sample H1 H2)|].
  vm_compute. reflexivity.
Defined.

(** [nothing.json] does not exist in [/home]. *)
Lemma load_missing_witness :
  (forall dir n, FS.resolve FS.sample "nothing.json" = Some (FS.TEntry dir n) ->
                 FS.files FS.sample !! (dir ++ [n]) = None) /\
  load (D := QJson.document) "nothing.json" FS.sample = (QJson.NullDoc, FS.sample).
Proof.
  assert (Hno : forall dir n, FS.resolve FS.sample "nothing.json" = Some (FS.TEntry dir n) ->
                              FS.files FS.sample !! (dir ++ [n]) = None).
  { intros dir n Hr. vm_compute in Hr. injection Hr as <- <-. vm_compute. reflexivity. }
  split; [exact Hno|]. exact (load_missing "nothing.json" FS.sample Hno).
Defined.

(** [e.txt] is empty. *)
Lemma load_empty_witness :
  FS.cdUp FS.sample "e.txt" = true /\ QFile.can_open FS.sample "e.txt" false ["home"; "e.txt"] /\
  QFile.drop_cr (Utf8.decode_stream (QFile.contents FS.sample ["home"; "e.txt"])) = [] /\
  load (D := QJson.document) "e.txt" FS.sample = (QJson.NullDoc, FS.sample).
Proof.
  assert (Hc : FS.cdUp FS.sample "e.txt" = true) by (vm_compute; reflexivity).
  assert (Ho : QFile.can_open FS.sample "e.txt" false ["home"; "e.txt"]) by QFile.solve_can_open.
  assert (He : QFile.drop_cr (Utf8.decode_stream (QFile.contents FS.sample ["home"; "e.txt"])) = [])
    by (vm_compute; reflexivity).
  split_and!; [exact Hc|exact Ho|exact He|].
  exact (load_empty "e.txt" FS.sample ["home"; "e.txt"] Hc Ho He).
Defined.

(** [blank.json] holds a space and a line feed; Qt's parser makes the
    null document of them. *)
Lemma load_blank_witness :
  FS.cdUp FS.sample "blank.json" = true /\
  QFile.can_open FS.sample "blank.json" false ["home"; "blank.json"] /\
  QFile.contents FS.sample ["home"; "blank.json"] <> [] /\
  Forall (fun b => b = 32 \/ b = 9 \/ b = 10) (QFile.contents FS.sample ["home"; "blank.json"]) /\
  load (D := QJson.document) "blank.json" FS.sample = (QJson.NullDoc, FS.sample).
Proof.
  assert (Hc : FS.cdUp FS.sample "blank.json" = true) by (vm_compute; reflexivity).
  assert (Ho : QFile.can_open FS.sample "blank.json" false ["home"; "blank.json"])
    by QFile.solve_can_open.
  assert (Hne : QFile.contents FS.sample ["home"; "blank.json"] <> []) by (vm_compute; discriminate).
  assert (Hb : Forall (fun b => b = 32 \/ b = 9 \/ b = 10)
                 (QFile.contents FS.sample ["home"; "blank.json"])).
  { vm_compute. repeat (apply List.Forall_cons; [lia|]). apply List.Forall_nil. }
  split_and!; [exact Hc|exact Ho|exact Hne|exact Hb|].
  rewrite (load_blank "blank.json" FS.sample ["home"; "blank.json"] Hc Ho Hne Hb).
  vm_compute. reflexivity.
Defined.




(** C24: [load] runs Qt's parser to completion: for a file that opens
    and holds a text that is not empty, [load] returns the parse of the
    text's UTF-8 encoding with any fuel of at least three units per byte,
    so no parse is cut short by the model. *)
Theorem load_parse_total name fs p n :
  FS.cdUp fs name = true -> QFile.can_open fs name false p ->
  let text := Utf8.encode (QFile.drop_cr (Utf8.decode_stream (QFile.contents fs p))) in
  text <> [] -> (S (3 * length text) <= n)%nat ->
  (load (D := QJson.document) name fs).1 =
  match QJsonParser.parse n text with Some d => d | None => QJson.NullDoc end.
Proof.
  intros Hc Ho text Hne Hn. unfold text in *. rewrite (load_existing name fs p Hc Ho). cbn [fst].
  destruct (QFile.drop_cr (Utf8.decode_stream (QFile.contents fs p))) as [|c s];
    [by exfalso; apply Hne|].
  exact (QJsonFuel.fromJson_fuel _ n Hn).
Qed.

(** [latin1.json] holds a JSON array of one string in Latin-1: Qt's
    parser refuses its bytes, but [load] parses their re-encoding, in
    which the byte [0xE9] has become U+FFFD, and returns an array. *)
Lemma load_parse_total_witness :
  let text := Utf8.encode (QFile.drop_cr (Utf8.decode_stream (QFile.contents FS.sample ["home"; "latin1.json"]))) in
  FS.cdUp FS.sample "latin1.json" = true /\
  QFile.can_open FS.sample "latin1.json" false ["home"; "latin1.json"] /\
  text <> [] /\ (S (3 * length text) <= 100)%nat /\
  (load (D := QJson.document) "latin1.json" FS.sample).1 =
  match QJsonParser.parse 100 text with Some d => d | None => QJson.NullDoc end /\
  (load (D := QJson.document) "latin1.json" FS.sample).1 = QJson.DArray [QJson.String [0xFFFD]] /\
  QJsonParser.fromJson (QFile.contents FS.sample ["home"; "latin1.json"]) = QJson.NullDoc.
Proof.
  intros text.
  assert (Hc : FS.cdUp FS.sample "latin1.json" = true) by (vm_compute; reflexivity).
  assert (Ho : QFile.can_open FS.sample "latin1.json" false ["home"; "latin1.json"])
    by QFile.solve_can_open.
  assert (Hne : text <> []) by (vm_compute; discriminate).
  assert (Hn : (S (3 * length text) <= 100)%nat) by (vm_compute; lia).
  split_and!; [exact Hc|exact Ho|exact Hne|exact Hn| |vm_compute; reflexivity..].
  exact (load_parse_total "latin1.json" FS.sample ["home"; "latin1.json"] 100 Hc Ho Hne Hn).
Defined.


End Json.
