(* ===== verification/JsonStore.v ===== *)
(** * [class jnc::Json] against the specification's JsonStore

    [class Json] (src/Qt/Json.h) has a deleted constructor and two static
    functions: it is a [store] of the two operations [dump] and [load], and
    [json_store] is the one of Json.cpp.  The specification's JsonStore
    (its section 4.2) is written here on the abstract [FileHandle] of
    FileSpec.v, for a table of flags: [spec_dump] opens in [write] mode and
    returns on a failure, otherwise writes the serialized document and
    closes; [spec_load] opens in [read] mode, reads the whole text, and
    parses it unless it is empty.

    With Qt's table the two stores are the same functions: the simulation
    of [File] by [FileHandle] lifts through [dump] and [load], and the
    destructor's [close] at the end of the scope changes no file. *)

From S2P Require Import Prelude Utf8 FileSystem QFile File FileSpec JsonDocument Json.
From stdpp Require Import base list gmap strings.
From Stdlib Require Import ZArith Lia.
Open Scope Z_scope.

Module JsonStore.
Import ErrorCode FileHandle.

(** The static interface of [class Json]. *)
Record store (D : Type) := mkstore {
  st_dump : string -> D -> State FS.t unit;
  st_load : string -> State FS.t D;
}.
Arguments st_dump {D}.
Arguments st_load {D}.

Section WithDocument.
Context {D : Type} `{JsonDocument D}.

(** [Json::dump] and [Json::load]. *)
Definition json_store : store D := mkstore D Json.dump Json.load.

(** The body of [dump(path, document)] of the specification. *)
Definition spec_dump_body (table : OpenMode.t -> File.flags) (fileName : string) (jsonDoc : D)
  : State FileHandle.state unit :=
  err ← aopen table fileName (OpenMode.value OpenMode.write);
  if decide (err <> NoError) then mret tt else
  awrite (Utf8.decode (toJson jsonDoc));;
  aclose.

(** The body of [load(path)] of the specification. *)
Definition spec_load_body (table : OpenMode.t -> File.flags) (fileName : string)
  : State FileHandle.state D :=
  err ← aopen table fileName (OpenMode.value OpenMode.read);
  if decide (err <> NoError) then mret null_document else
  data ← aread;
  aclose;;
  mret (if negb (Json.isEmpty data) then fromJson (Utf8.encode data) else null_document).

Definition spec_store (table : OpenMode.t -> File.flags) : store D :=
  mkstore D
    (fun fileName jsonDoc fs => (tt, (spec_dump_body table fileName jsonDoc (fs, None)).2.1))
    (fun fileName fs => let '(d, (fs', _)) := spec_load_body table fileName (fs, None) in (d, fs')).

(** ** The two stores with Qt's table *)

(** The release of the handle at the end of the scope changes no file. *)
Lemma aclose_fs {A} (s : State FileHandle.state A) a :
  ((s;; aclose) a).2.1 = (s a).2.1 /\
  ((x ← s; aclose;; mret x) a).1 = (s a).1 /\ ((x ← s; aclose;; mret x) a).2.1 = (s a).2.1.
Proof. unfold mbind, state_bind, mret, state_ret, aclose. destruct (s a) as [x [fs h]]. by split_and!. Qed.

Lemma sim_dump_body name d :
  sim (err ← File.open name (OpenMode.value OpenMode.write);
       if decide (err <> NoError) then mret tt else
       File.write (Utf8.decode (toJson d));; File.close)
      (spec_dump_body File.qt_flags name d).
Proof.
  apply sim_bind; [apply sim_open|intros e]. apply sim_if; [apply sim_ret|].
  apply sim_bind; [apply sim_write|intros; apply sim_close].
Qed.

Lemma sim_load_body name :
  sim (err ← File.open name (OpenMode.value OpenMode.read);
       if decide (err <> NoError) then mret null_document else
       data ← File.read; File.close;;
       mret (if negb (Json.isEmpty data) then fromJson (Utf8.encode data) else null_document))
      (spec_load_body File.qt_flags name).
Proof.
  apply sim_bind; [apply sim_open|intros e]. apply sim_if; [apply sim_ret|].
  apply sim_bind; [apply sim_read|intros data].
  apply sim_bind; [apply sim_close|intros; apply sim_ret].
Qed.

Lemma dump_spec name d fs : Json.dump name d fs = st_dump (spec_store File.qt_flags) name d fs.
Proof.
  assert (Hs := sim_bind _ _ _ _ (sim_dump_body name d) (fun _ => sim_close)).
  destruct (sim_run _ _ fs Hs) as [_ Efs]. destruct (aclose_fs (spec_dump_body File.qt_flags name d) (fs, None)) as [Ea _].
  unfold Json.dump. cbv zeta. cbn [st_dump spec_store]. change File.destruct with File.close.
  by rewrite let_pair_proj_tt, Efs, Ea.
Qed.

Lemma load_spec name fs : Json.load name fs = st_load (spec_store File.qt_flags) name fs.
Proof.
  assert (Hs := sim_bind _ _ _ _ (sim_load_body name)
                  (fun doc => sim_bind _ _ _ _ sim_close (fun _ => sim_ret doc))).
  destruct (sim_run _ _ fs Hs) as [Er Efs].
  destruct (aclose_fs (spec_load_body File.qt_flags name) (fs, None)) as (_ & Ea1 & Ea2).
  unfold Json.load. cbv zeta. cbn [st_load spec_store]. change File.destruct with File.close.
  by rewrite !let_pair_proj, Er, Efs, Ea1, Ea2.
Qed.

(** C21: [class Json] is the specification's JsonStore on a [FileHandle]
    with the flags Qt gives each mode: [dump] and [load] are the same
    functions of the file system as [spec_dump] and [spec_load]. *)
Theorem json_store_spec name d fs :
  st_dump json_store name d fs = st_dump (spec_store File.qt_flags) name d fs /\
  st_load json_store name fs = st_load (spec_store File.qt_flags) name fs.
Proof. split; [apply dump_spec|apply load_spec]. Qed.

End WithDocument.

End JsonStore.
