(* ===== verification/Sharing.v ===== *)
(** * Two [File]s on one file system

    The specification (its section 5) leaves handles that share a file to
    the callers: each [File] owns its [QFile], and nothing orders the
    calls of two of them.  Here two [File] objects and [Json::dump] run on
    the same file system, their calls interleaved in an explicit order:
    a world holds the file system and the two [QFile]s, [on_left] and
    [on_right] run a method of one [File] on it, and [on_fs] runs an
    operation of the file system alone, such as [Json::dump].

    The file system is shared, the positions are not: a [File] that
    appends writes at the end the kernel sees at the time of the write,
    while one that does not writes at the position it kept, past the end
    of a file someone else has truncated, with zero bytes in the gap.

    [step2] is one step of such a world: a method call on either [File]
    (a [FileHandle.call] run by [FileHandle.run_file]), a [Json::dump] or
    a [Json::load].  [inv2] is [good] for both handles ([File.inv] and
    [File.opened]); it holds of every world [step2] reaches from two new
    [File]s, because every operation on files keeps the files, the
    directories and the working directory there were ([QFile.grows]):
    the file one handle is open on is never removed by the other, and
    its name still resolves to it. *)

From S2P Require Import Prelude Utf8 FileSystem QFile File FileSpec JsonDocument Json.
From S2P Require Import QJsonWriter QJsonParser QJson.
From stdpp Require Import base list gmap strings.
From Stdlib Require Import ZArith Lia.
Open Scope Z_scope.

Module Sharing.
Import QIODevice ErrorCode.

(** The file system and the [QFile]s of two [File] objects. *)
Abbreviation world2 := (FS.t * (QFile.t * QFile.t))%type.

(** A computation on the file system and one handle, run on one side of a
    world of two handles of type [H], or on its file system alone. *)
Definition on_left {H A} (c : State (FS.t * H) A) : State (FS.t * (H * H)) A := fun '(fs, (f1, f2)) =>
  let '(x, (fs', f1')) := c (fs, f1) in (x, (fs', (f1', f2))).

Definition on_right {H A} (c : State (FS.t * H) A) : State (FS.t * (H * H)) A := fun '(fs, (f1, f2)) =>
  let '(x, (fs', f2')) := c (fs, f2) in (x, (fs', (f1, f2'))).

Definition on_fs {H A} (c : State FS.t A) : State (FS.t * H) A := fun '(fs, fp) =>
  let '(x, fs') := c fs in (x, (fs', fp)).

(** Two new [File]s. *)
Definition start (fs : FS.t) : world2 := (fs, (File.construct, File.construct)).

(** What [on_left] and [on_right] leave: the call's file system, the
    call's handle on its side, the other handle as it was. *)
Lemma on_left_run {H A} (c : State (FS.t * H) A) fs (f1 f2 : H) :
  (on_left c (fs, (f1, f2))).2 = ((c (fs, f1)).2.1, ((c (fs, f1)).2.2, f2)).
Proof. unfold on_left. by destruct (c (fs, f1)) as [x [fs' f1']]. Qed.

Lemma on_right_run {H A} (c : State (FS.t * H) A) fs (f1 f2 : H) :
  (on_right c (fs, (f1, f2))).2 = ((c (fs, f2)).2.1, (f1, (c (fs, f2)).2.2)).
Proof. unfold on_right. by destruct (c (fs, f2)) as [x [fs' f2']]. Qed.

Lemma on_fs_run {H A} (c : State FS.t A) fs (fp : H) : (on_fs c (fs, fp)).2 = ((c fs).2, fp).
Proof. unfold on_fs. by destruct (c fs). Qed.

(** A call of a [File] method whose [QString] argument, if any, holds
    scalar values, and the step of [File] it makes. *)
Definition call_ok (c : FileHandle.call) : bool :=
  match c with FileHandle.Write text => Utf8.scalars text | _ => true end.

Lemma run_file_step c w : call_ok c = true -> File.step w (FileHandle.run_file c w).2.
Proof. intros Hc. destruct c; cbn in *; rewrite state_bind_run; cbn; by constructor. Qed.

(** A handle is well formed and, if open, open as a successful [open]
    left it ([File.opened]). *)
Definition good (w : File.world) : Prop := File.inv w /\ File.opened w.

(** Both handles are good on the shared file system. *)
Definition inv2 (w : world2) : Prop := good (w.1, w.2.1) /\ good (w.1, w.2.2).

(** A good handle stays good on a well-formed file system that has kept
    the files, the directories and the working directory. *)
Lemma good_grows fs fs' f : good (fs, f) -> QFile.grows fs fs' -> FS.wf fs' -> good (fs', f).
Proof.
  intros [[_ Hf] Ho] Hg Hfs'. split; [split; [exact Hfs'|exact (QFile.wf_grows _ _ _ Hg Hf)]|].
  by apply (File.opened_keep (fs, f)).
Qed.

Lemma good_step w w' : good w -> File.step w w' -> good w'.
Proof. intros [Hi Ho] Hs. split; [exact (File.step_inv _ _ Hi Hs)|exact (File.step_opened _ _ Ho Hs)]. Qed.

(** Calls of [File] methods from a new handle keep the other handles
    good. *)
Lemma reach_inv2 fs f1 f2 w :
  inv2 (fs, (f1, f2)) -> rtc File.step (fs, File.construct) w -> good (w.1, f1) /\ good (w.1, f2).
Proof.
  intros [H1 H2] Hr.
  destruct (File.rtc_step_inv (fs, File.construct) w (conj (proj1 (proj1 H1)) eq_refl) Hr) as [Hfs _].
  pose proof (File.rtc_step_grows _ _ Hr) as Hg. split; eapply good_grows; eauto.
Qed.

Section WithDocument.
Context {D : Type} `{JsonDocument D} `{!JsonDocumentLaws D}.

(** One step of the two-[File] world: a method call on either [File], or
    a [Json::dump] of a document Qt can hold, or a [Json::load], each
    with its own [File] on the stack. *)
Inductive step2 : world2 -> world2 -> Prop :=
| step2_left c w : call_ok c = true -> step2 w (on_left (FileHandle.run_file c) w).2
| step2_right c w : call_ok c = true -> step2 w (on_right (FileHandle.run_file c) w).2
| step2_dump name d w : valid d -> step2 w (on_fs (Json.dump name d) w).2
| step2_load name w : step2 w (on_fs (Json.load (D := D) name) w).2.

Lemma step2_inv w w' : inv2 w -> step2 w w' -> inv2 w'.
Proof.
  intros Hw Hs. destruct Hs as [c w Hc|c w Hc|name d w Hd|name w];
    destruct w as [fs [f1 f2]]; destruct Hw as [H1 H2].
  - rewrite on_left_run. pose proof (run_file_step c (fs, f1) Hc) as Hs.
    pose proof (good_step _ _ H1 Hs) as H1'.
    split; [exact H1'|]. eapply good_grows; [exact H2|apply (File.step_grows _ _ Hs)|apply H1'].
  - rewrite on_right_run. pose proof (run_file_step c (fs, f2) Hc) as Hs.
    pose proof (good_step _ _ H2 Hs) as H2'.
    split; [|exact H2']. eapply good_grows; [exact H1|apply (File.step_grows _ _ Hs)|apply H2'].
  - rewrite on_fs_run. destruct (Json.dump_reach name d fs Hd) as (w' & Hr & ->).
    exact (reach_inv2 _ _ _ _ (conj H1 H2) Hr).
  - rewrite on_fs_run. destruct (Json.load_reach (D := D) name fs) as (w' & Hr & ->).
    exact (reach_inv2 _ _ _ _ (conj H1 H2) Hr).
Qed.

(** C27: two [File]s and [Json]'s functions on one file system, their
    calls interleaved in any order: from a well-formed file system and two
    new [File]s, every reachable world has a well-formed file system and
    two well-formed handles, each open handle still open as its own
    successful [open] left it: its name passes [cdUp] and resolves to the
    file it is open on, which exists, whatever the other calls did. *)
Theorem reachable2_inv fs w : FS.wf fs -> rtc step2 (start fs) w -> inv2 w.
Proof.
  intros Hfs Hr.
  assert (H0 : inv2 (start fs)).
  { split; split; [by split|by apply File.closed_opened|by split|by apply File.closed_opened]. }
  induction Hr; eauto using step2_inv.
Qed.

(** C25: a [File] open in [append] mode while [Json::dump] rewrites the
    file writes after the document: [dump] truncates the file and writes
    [toJson()], and the appending [File], whatever its position, adds its
    text at the new end. *)
Theorem dump_under_append name d fs p text :
  FS.cdUp fs name = true -> QFile.can_open fs name true p -> valid d -> text <> [] ->
  let prog := on_left (File.open name (OpenMode.value OpenMode.append));;
              on_fs (Json.dump name d);;
              on_left (File.write text) in
  QFile.contents (prog (start fs)).2.1 p = toJson d ++ Utf8.encode text.
Proof.
  intros Hc Ho Hv Hne prog. unfold prog, start, mbind, state_bind, on_left, on_fs.
  cbn -[File.open Json.dump File.write].
  rewrite (File.open_success name 2 OpenMode.append fs File.construct p Hc eq_refl eq_refl Ho).
  cbn -[Json.dump File.write].
  rewrite (Json.dump_writes name d _ p); [|by rewrite QFile.cdUp_set_contents
                                          |by eapply QFile.can_open_set_contents|exact Hv].
  cbn -[File.write]. unfold File.write, QFile.ts_write. destruct text as [|c t]; [done|].
  rewrite QFile.qwrite_ok by reflexivity. cbn. by autorewrite with jnc_rw.
Qed.

(** C26: a [File] that does not append keeps its position while
    [Json::dump] rewrites the file: opened in [writeplus] mode, after it
    wrote [s], its next write goes at the length of [s]'s encoding in the
    new file, over the document, or past its end with zero bytes in the
    gap. *)
Theorem dump_under_writer name d fs p s text :
  FS.cdUp fs name = true -> QFile.can_open fs name true p -> valid d -> s <> [] -> text <> [] ->
  let prog := on_left (File.open name (OpenMode.value OpenMode.writeplus));;
              on_left (File.write s);;
              on_fs (Json.dump name d);;
              on_left (File.write text) in
  QFile.contents (prog (start fs)).2.1 p =
  QFile.write_at (length (Utf8.encode s)) (Utf8.encode text) (toJson d).
Proof.
  intros Hc Ho Hv Hs Ht prog. unfold prog, start, mbind, state_bind, on_left, on_fs.
  cbn -[File.open Json.dump File.write].
  rewrite (File.open_success name 4 OpenMode.writeplus fs File.construct p Hc eq_refl eq_refl Ho).
  cbn -[Json.dump File.write]. unfold File.write at 1, QFile.ts_write at 1.
  destruct s as [|c s]; [done|]. rewrite QFile.qwrite_ok by reflexivity. cbn -[Json.dump File.write].
  rewrite (Json.dump_writes name d _ p); [|by rewrite !QFile.cdUp_set_contents
                                          |by do 2 apply (QFile.can_open_set_contents _ _ true)|exact Hv].
  cbn -[File.write]. unfold File.write, QFile.ts_write. destruct text as [|c' t]; [done|].
  rewrite QFile.qwrite_ok by reflexivity. cbn. autorewrite with jnc_rw.
  change (has (QFile.adjust (File.ioMode OpenMode.writeplus)) Append) with false. cbv iota.
  by rewrite Z.add_0_l, Nat2Z.id.
Qed.

End WithDocument.

Import QJsonLaws.

Lemma dump_under_append_witness :
  FS.cdUp FS.sample "log.json" = true /\
  QFile.can_open FS.sample "log.json" true ["home"; "log.json"] /\
  QJson.valid (QJson.DArray []) /\ [120] <> [] /\
  QFile.contents ((on_left (File.open "log.json" (OpenMode.value OpenMode.append));;
                   on_fs (Json.dump "log.json" (QJson.DArray []));;
                   on_left (File.write [120])) (start FS.sample)).2.1 ["home"; "log.json"] =
  QJson.toJson (QJson.DArray []) ++ Utf8.encode [120].
Proof.
  assert (Hc : FS.cdUp FS.sample "log.json" = true) by (vm_compute; reflexivity).
  assert (Ho : QFile.can_open FS.sample "log.json" true ["home"; "log.json"]) by QFile.solve_can_open.
  assert (Hv : QJson.valid (QJson.DArray [])) by reflexivity.
  split_and!; [exact Hc|exact Ho|exact Hv|discriminate|].
  exact (dump_under_append "log.json" (QJson.DArray []) FS.sample ["home"; "log.json"] [120]
           Hc Ho Hv ltac:(discriminate)).
Defined.

(** Six bytes written, then the four of the empty array dumped: the next
    byte lands at offset 6, after two zero bytes. *)
Lemma dump_under_writer_witness :
  FS.cdUp FS.sample "g.json" = true /\
  QFile.can_open FS.sample "g.json" true ["home"; "g.json"] /\
  QJson.valid (QJson.DArray []) /\ [97; 98; 99; 100; 101; 102] <> [] /\ [120] <> [] /\
  QFile.contents ((on_left (File.open "g.json" (OpenMode.value OpenMode.writeplus));;
                   on_left (File.write [97; 98; 99; 100; 101; 102]);;
                   on_fs (Json.dump "g.json" (QJson.DArray []));;
                   on_left (File.write [120])) (start FS.sample)).2.1 ["home"; "g.json"] =
  QFile.write_at (length (Utf8.encode [97; 98; 99; 100; 101; 102])) (Utf8.encode [120])
    (QJson.toJson (QJson.DArray [])) /\
  QFile.write_at (length (Utf8.encode [97; 98; 99; 100; 101; 102])) (Utf8.encode [120])
    (QJson.toJson (QJson.DArray [])) = [91; 10; 93; 10; 0; 0; 120].
Proof.
  assert (Hc : FS.cdUp FS.sample "g.json" = true) by (vm_compute; reflexivity).
  assert (Ho : QFile.can_open FS.sample "g.json" true ["home"; "g.json"]) by QFile.solve_can_open.
  assert (Hv : QJson.valid (QJson.DArray [])) by reflexivity.
  split_and!; [exact Hc|exact Ho|exact Hv|discriminate|discriminate| |vm_compute; reflexivity].
  exact (dump_under_writer "g.json" (QJson.DArray []) FS.sample ["home"; "g.json"]
           [97; 98; 99; 100; 101; 102] [120] Hc Ho Hv ltac:(discriminate) ltac:(discriminate)).
Defined.

(** [a.txt] open for appending on the left and for reading on the right,
    then rewritten by [Json::dump]: both handles are still well formed. *)
Lemma reachable2_inv_witness :
  let w1 := (on_left (FileHandle.run_file (FileHandle.Open "a.txt" 2)) (start FS.sample)).2 in
  let w2 := (on_right (FileHandle.run_file (FileHandle.Open "a.txt" 0)) w1).2 in
  let w3 := (on_fs (Json.dump "a.txt" (QJson.DArray [])) w2).2 in
  FS.wf FS.sample /\ rtc (step2 (D := QJson.document)) (start FS.sample) w3 /\ inv2 w3.
Proof.
  intros w1 w2 w3.
  assert (Hr : rtc (step2 (D := QJson.document)) (start FS.sample) w3).
  { apply (rtc_l _ _ w1); [by apply step2_left|].
    apply (rtc_l _ _ w2); [by apply step2_right|].
    apply rtc_once, step2_dump. reflexivity. }
  split_and!; [exact FS.sample_wf|exact Hr|exact (reachable2_inv _ _ FS.sample_wf Hr)].
Defined.

End Sharing.
