(* ===== verification/SharedRefinement.v ===== *)
(** * Two [File]s and [class Json] refine the specification together

    A program of this library creates [File]s and calls [Json::dump] and
    [Json::load] on one file system, in an order of its own.  Here such a
    program is a list of [event]s: a method call on one of two [File]s
    ([ECall] with its [side]), a [dump] or a [load].  [run_events] runs
    it for any handle type and any [store] of the two [Json] operations:
    on two [File]s with [class Json] ([json_store]), or on two abstract
    [FileHandle]s with the specification's JsonStore ([spec_store]), both
    with Qt's table of flags.

    [refines2] is [FileHandle.refines] for both sides; [sim2] is the
    simulation of the two-handle world.  A simulation of one handle lifts
    to either side ([sim2_left], [sim2_right]), because the relation
    between a [File] and its abstract handle does not look at the file
    system beyond requiring it to be the same; equal functions of the file
    system lift to [on_fs] ([sim2_fs]); simulations compose through the
    bind ([sim2_bind]). *)

From S2P Require Import Prelude Utf8 FileSystem QFile File FileSpec JsonDocument Json JsonStore Sharing.
From S2P Require Import QJsonWriter QJsonParser QJson.
From stdpp Require Import base list gmap strings.
From Stdlib Require Import ZArith Lia.
Open Scope Z_scope.

Module SharedRefinement.
Import ErrorCode FileHandle JsonStore Sharing.

Inductive side := Left | Right.

(** A computation on one handle, run on the given side. *)
Definition on_side {H A} (s : side) (c : State (FS.t * H) A) : State (FS.t * (H * H)) A :=
  match s with Left => on_left c | Right => on_right c end.

(** The abstract world: the file system and two abstract handles. *)
Abbreviation astate2 := (FS.t * (option handle * option handle))%type.

Section WithDocument.
Context {D : Type} `{JsonDocument D}.

Inductive event :=
| ECall (s : side) (c : call)
| EDump (name : string) (d : D)
| ELoad (name : string).

Inductive answer := ACall (r : result) | ADump | ALoad (d : D).

Definition run_event {H} (run : call -> State (FS.t * H) result) (st : store D) (e : event)
  : State (FS.t * (H * H)) answer :=
  match e with
  | ECall s c => r ← on_side s (run c); mret (ACall r)
  | EDump name d => on_fs (st_dump st name d);; mret ADump
  | ELoad name => d ← on_fs (st_load st name); mret (ALoad d)
  end.

Fixpoint run_events {H} (run : call -> State (FS.t * H) result) (st : store D) (es : list event)
  : State (FS.t * (H * H)) (list answer) :=
  match es with
  | [] => mret []
  | e :: es' => a ← run_event run st e; rs ← run_events run st es'; mret (a :: rs)
  end.

(** ** The simulation of the two-handle world *)

Definition refines2 (w : world2) (a : astate2) : Prop :=
  refines (w.1, w.2.1) (a.1, a.2.1) /\ refines (w.1, w.2.2) (a.1, a.2.2).

Definition sim2 {A} (c : State world2 A) (s : State astate2 A) : Prop :=
  forall w a, refines2 w a -> (c w).1 = (s a).1 /\ refines2 (c w).2 (s a).2.

(** A handle refines its abstract one on any file system both share. *)
Lemma refines_fs fs fs' f h g : refines (fs, f) (fs', h) -> refines (g, f) (g, h).
Proof. intros [_ Hh]. by split. Qed.

Lemma sim2_ret {A} (x : A) : sim2 (mret x) (mret x).
Proof. intros w a Hr. by split. Qed.

Lemma sim2_bind {A B} (c : State world2 A) (s : State astate2 A)
      (k : A -> State world2 B) (k' : A -> State astate2 B) :
  sim2 c s -> (forall x, sim2 (k x) (k' x)) -> sim2 (c ≫= k) (s ≫= k').
Proof.
  intros Hc Hk w a Hr. rewrite !state_bind_run.
  destruct (Hc w a Hr) as [-> R]. by apply Hk.
Qed.

Lemma sim2_left {A} (c : State File.world A) (s : State state A) :
  sim c s -> sim2 (on_left c) (on_left s).
Proof.
  intros Hs [fs [f1 f2]] [fs' [h1 h2]] [H1 H2]. cbn in H1, H2.
  destruct (Hs _ _ H1) as [Er R]. unfold on_left.
  destruct (c (fs, f1)) as [x [g f1']], (s (fs', h1)) as [y [g' h1']]. cbn in *.
  split; [exact Er|]. destruct R as [Eg Rh]. cbn in Eg. subst g'. split; [by split|].
  exact (refines_fs _ _ _ _ g H2).
Qed.

Lemma sim2_right {A} (c : State File.world A) (s : State state A) :
  sim c s -> sim2 (on_right c) (on_right s).
Proof.
  intros Hs [fs [f1 f2]] [fs' [h1 h2]] [H1 H2]. cbn in H1, H2.
  destruct (Hs _ _ H2) as [Er R]. unfold on_right.
  destruct (c (fs, f2)) as [x [g f2']], (s (fs', h2)) as [y [g' h2']]. cbn in *.
  split; [exact Er|]. destruct R as [Eg Rh]. cbn in Eg. subst g'. split; [|by split].
  exact (refines_fs _ _ _ _ g H1).
Qed.

Lemma sim2_fs {A} (c s : State FS.t A) : (forall fs, c fs = s fs) -> sim2 (on_fs c) (on_fs s).
Proof.
  intros E [fs [f1 f2]] [fs' [h1 h2]] [H1 H2]. cbn in H1, H2.
  assert (fs' = fs) as -> by (symmetry; apply (proj1 H1)). unfold on_fs. rewrite E.
  destruct (s fs) as [x g]. split; [done|]. split; eapply refines_fs; eauto.
Qed.

Lemma sim2_side {A} sd (c : State File.world A) (s : State state A) :
  sim c s -> sim2 (on_side sd c) (on_side sd s).
Proof. destruct sd; [apply sim2_left|apply sim2_right]. Qed.

Lemma sim2_event e :
  sim2 (run_event run_file json_store e) (run_event (run_spec File.qt_flags) (spec_store File.qt_flags) e).
Proof.
  destruct e as [sd c|name d|name]; cbn [run_event].
  - apply sim2_bind; [apply sim2_side, sim_call|intros; apply sim2_ret].
  - apply sim2_bind; [apply sim2_fs; intros; apply dump_spec|intros; apply sim2_ret].
  - apply sim2_bind; [apply sim2_fs; intros; apply load_spec|intros; apply sim2_ret].
Qed.

Lemma sim2_events es :
  sim2 (run_events run_file json_store es) (run_events (run_spec File.qt_flags) (spec_store File.qt_flags) es).
Proof.
  induction es as [|e es IH]; cbn [run_events]; [apply sim2_ret|].
  apply sim2_bind; [apply sim2_event|intros a].
  apply sim2_bind; [exact IH|intros; apply sim2_ret].
Qed.


End WithDocument.

Import QJsonLaws.


End SharedRefinement.
